(** * Picard MarkDuplicates report parser (multiqc/modules/picard/MarkDuplicates.py)

    A shallow embedding of [parse_reports] and a verification of the
    properties stated for it.

    Modelling conventions.
    - Text is [string] over 8-bit [ascii]; log lines are taken to be ASCII
      (case folding and the whitespace class are the ASCII ones of Python 3).
    - A Python [dict] is an association list in insertion order with unique
      keys (assignment to an existing key keeps its place, a new key goes
      last), see [Dict].
    - A metric value is a binary64 number or text, see [value]; numbers are
      Rocq's primitive floats, whose arithmetic is the IEEE 754 one Python uses.
    - The function mutates attributes of [self] and may raise: it is a
      computation in a state-and-exception monad over [module_state]; the
      state reached when an exception leaves the function is kept, as the
      mutated object outlives the call.
    - What lives outside this file ([find_log_files], [clean_s_name], the
      ignore patterns behind [ignore_samples], Python's [float]) is a field
      of the class [Host]: the statements hold for every host. *)

From Stdlib Require Import List String Ascii Bool Arith Lia.
From Stdlib Require Import PrimFloat.
Import ListNotations.
Open Scope string_scope.
Open Scope list_scope.

(** ** Python string operations *)

Module PyStr.

Definition is_upper (c : ascii) : bool :=
  ((65 <=? nat_of_ascii c) && (nat_of_ascii c <=? 90))%nat.

Definition is_lower (c : ascii) : bool :=
  ((97 <=? nat_of_ascii c) && (nat_of_ascii c <=? 122))%nat.

Definition is_alpha (c : ascii) : bool := is_upper c || is_lower c.

Definition to_lower (c : ascii) : ascii :=
  if is_upper c then ascii_of_nat (nat_of_ascii c + 32) else c.

Definition to_upper (c : ascii) : ascii :=
  if is_lower c then ascii_of_nat (nat_of_ascii c - 32) else c.

(** [s.lower()] *)
Fixpoint lower (s : string) : string :=
  match s with
  | EmptyString => EmptyString
  | String c s' => String (to_lower c) (lower s')
  end.

(** [s.startswith(p)] *)
Fixpoint startswith (p s : string) : bool :=
  match p, s with
  | EmptyString, _ => true
  | String _ _, EmptyString => false
  | String a p', String b s' => Ascii.eqb a b && startswith p' s'
  end.

(** [sub in s] *)
Fixpoint contains (sub s : string) : bool :=
  startswith sub s ||
  match s with
  | EmptyString => false
  | String _ s' => contains sub s'
  end.

Definition is_empty (s : string) : bool :=
  match s with EmptyString => true | String _ _ => false end.

(** membership of a character in a set of characters given as a string *)
Fixpoint mem (c : ascii) (cs : string) : bool :=
  match cs with
  | EmptyString => false
  | String d cs' => Ascii.eqb c d || mem c cs'
  end.

(** [s.lstrip(cs)] *)
Fixpoint lstrip (cs s : string) : string :=
  match s with
  | EmptyString => EmptyString
  | String c s' => if mem c cs then lstrip cs s' else s
  end.

(** [s.rstrip(cs)] *)
Fixpoint rstrip (cs s : string) : string :=
  match s with
  | EmptyString => EmptyString
  | String c s' =>
      let r := rstrip cs s' in
      if mem c cs && is_empty r then EmptyString else String c r
  end.

(** [s.strip(cs)] *)
Definition strip (cs s : string) : string := rstrip cs (lstrip cs s).

Definition tab : ascii := "009"%char.
Definition newline : string := String "010"%char EmptyString.

(** [s.split(sep)] for a one-character separator: never the empty list. *)
Fixpoint split (sep : ascii) (s : string) : list string :=
  match s with
  | EmptyString => [EmptyString]
  | String c s' =>
      if Ascii.eqb c sep then EmptyString :: split sep s'
      else match split sep s' with
           | [] => [String c EmptyString]
           | w :: ws => String c w :: ws
           end
  end.

(** [os.path.basename(p)]: what follows the last slash. *)
Definition basename (p : string) : string :=
  last (split "/"%char p) EmptyString.

(** [s.replace(old, new)] for a non-empty [old]: occurrences are replaced
    from the left and do not overlap; [skip] counts the characters of the
    occurrence being replaced that are still to be dropped. *)
Fixpoint replace_from (old new : string) (skip : nat) (s : string) : string :=
  match s with
  | EmptyString => EmptyString
  | String c s' =>
      match skip with
      | S k => replace_from old new k s'
      | O =>
          if startswith old s
          then new ++ replace_from old new (String.length old - 1) s'
          else String c (replace_from old new 0 s')
      end
  end.

Definition replace (old new s : string) : string := replace_from old new 0 s.

(** [s.title()]: a letter that follows a letter is lowered, any other
    letter is raised. *)
Fixpoint title_from (prev_cased : bool) (s : string) : string :=
  match s with
  | EmptyString => EmptyString
  | String c s' =>
      String (if is_alpha c
              then if prev_cased then to_lower c else to_upper c
              else c)
             (title_from (is_alpha c) s')
  end.

Definition title (s : string) : string := title_from false s.

(** The class [\s] of [re] on ASCII text: TAB, LF, VT, FF, CR, the four
    separators FS GS RS US, and the space. *)
Definition is_space (c : ascii) : bool :=
  let n := nat_of_ascii c in
  (((9 <=? n) && (n <=? 13)) || ((28 <=? n) && (n <=? 31)) || (n =? 32))%nat.

(** case-insensitive prefix test, [p] given in lower case *)
Fixpoint istartswith (p s : string) : bool :=
  match p, s with
  | EmptyString, _ => true
  | String _ _, EmptyString => false
  | String a p', String b s' => Ascii.eqb a (to_lower b) && istartswith p' s'
  end.

Fixpoint drop (n : nat) (s : string) : string :=
  match n, s with
  | O, _ => s
  | S _, EmptyString => EmptyString
  | S k, String _ s' => drop k s'
  end.

(** the longest prefix without whitespace: what [[^\s]+] takes greedily *)
Fixpoint take_nonspace (s : string) : string :=
  match s with
  | EmptyString => EmptyString
  | String c s' => if is_space c then EmptyString else String c (take_nonspace s')
  end.

(** what is left after the longest run of whitespace: [\s+] taken greedily *)
Fixpoint skip_space (s : string) : string :=
  match s with
  | EmptyString => EmptyString
  | String c s' => if is_space c then skip_space s' else s
  end.

(** A match of [INPUT(?:=|\s+)(\[?[^\s]+\]?)] (ignoring case) anchored at the
    start of [s]; the result is group 1.  After [INPUT] comes either [=] or
    a run of whitespace, then the group.  The group is [\[?] then a greedy
    run of non-blanks then [\]?]: the run takes every non-blank that
    follows, brackets included, so the group is the longest run of
    non-blanks at that place, and there is a match when that run is not
    empty.  After [=] the whitespace alternative cannot apply, and a run of
    whitespace cut short would leave a blank where the group starts. *)
Definition match_input_at (s : string) : option string :=
  if istartswith "input" s then
    match drop 5 s with
    | EmptyString => None
    | String c r =>
        let after := if Ascii.eqb c "="%char then Some r
                     else if is_space c then Some (skip_space r)
                     else None in
        match after with
        | None => None
        | Some r' =>
            let g := take_nonspace r' in
            if is_empty g then None else Some g
        end
    end
  else None.

(** [re.search(r"INPUT(?:=|\s+)(\[?[^\s]+\]?)", s, flags=re.IGNORECASE)],
    giving [group(1)] of the leftmost match. *)
Fixpoint search_input (s : string) : option string :=
  match match_input_at s with
  | Some g => Some g
  | None =>
      match s with
      | EmptyString => None
      | String _ s' => search_input s'
      end
  end.

End PyStr.

(** ** Python dictionaries *)

(** A dictionary with text keys, its items in insertion order. *)
Definition dict (V : Type) : Type := list (string * V).

Module Dict.

Section Ops.
Context {V : Type}.

(** [d.get(k)] *)
Fixpoint get (d : dict V) (k : string) : option V :=
  match d with
  | [] => None
  | (k', v) :: d' => if String.eqb k k' then Some v else get d' k
  end.

(** [d[k] = v] *)
Fixpoint set (d : dict V) (k : string) (v : V) : dict V :=
  match d with
  | [] => [(k, v)]
  | (k', v') :: d' =>
      if String.eqb k k' then (k, v) :: d' else (k', v') :: set d' k v
  end.

(** [d.pop(k, None)], the popped value dropped *)
Fixpoint pop (d : dict V) (k : string) : dict V :=
  match d with
  | [] => []
  | (k', v') :: d' =>
      if String.eqb k k' then d' else (k', v') :: pop d' k
  end.

(** [k in d] *)
Definition mem (d : dict V) (k : string) : bool :=
  match get d k with Some _ => true | None => false end.

(** [list(d.keys())] *)
Definition keys (d : dict V) : list string := map fst d.

(** [len(d)] *)
Definition len (d : dict V) : nat := List.length d.

(** [d.update(e)] *)
Definition update (d e : dict V) : dict V :=
  fold_left (fun acc kv => set acc (fst kv) (snd kv)) e d.

(** the keys of a dictionary are pairwise distinct *)
Definition wf (d : dict V) : Prop := NoDup (keys d).

End Ops.

End Dict.

(** ** Values, exceptions, and the monad of [self]-mutating code *)

(** A parsed field: [float(text)] when that succeeds, the text otherwise. *)
Inductive value : Type :=
| VFloat (x : float)
| VStr (s : string).

(** the metrics of one sample: [self.picard_dupMetrics_data[s_name]] *)
Definition record : Type := dict value.

Inductive exn : Type :=
| KeyError (k : string)
| TypeError
| IndexError.

(** [2.0 * v] *)
Definition py_double (v : value) : exn + value :=
  match v with
  | VFloat x => inr (VFloat (2 * x)%float)
  | VStr _ => inl TypeError
  end.

(** [a - b] *)
Definition py_sub (a b : value) : exn + value :=
  match a, b with
  | VFloat x, VFloat y => inr (VFloat (x - y)%float)
  | _, _ => inl TypeError
  end.

(** [v == 0] *)
Definition py_eq_zero (v : value) : bool :=
  match v with
  | VFloat x => PrimFloat.eqb x 0%float
  | VStr _ => false
  end.

(** What a computation leaves: a result or an exception, and the state of
    the mutated object in both cases. *)
Inductive outcome (S A : Type) : Type :=
| Ok (a : A) (s : S)
| Raise (e : exn) (s : S).
Arguments Ok {S A} a s.
Arguments Raise {S A} e s.

Definition M (S A : Type) : Type := S -> outcome S A.

Definition ret {S A} (a : A) : M S A := fun s => Ok a s.

Definition bind {S A B} (c : M S A) (k : A -> M S B) : M S B :=
  fun s => match c s with
           | Ok a s' => k a s'
           | Raise e s' => Raise e s'
           end.

Definition raise {S A} (e : exn) : M S A := fun s => Raise e s.

Definition gets {S A} (f : S -> A) : M S A := fun s => Ok (f s) s.

Definition modify {S} (f : S -> S) : M S unit := fun s => Ok tt (f s).

Definition lift {S A} (r : exn + A) : M S A :=
  match r with
  | inl e => raise e
  | inr a => ret a
  end.

Declare Scope py_scope.
Delimit Scope py_scope with py.
Notation "x <- c1 ;; c2" := (bind c1 (fun x => c2))
  (at level 61, c1 at next level, right associativity) : py_scope.
Notation "c1 ;; c2" := (bind c1 (fun _ => c2))
  (at level 61, right associativity) : py_scope.
Open Scope py_scope.

(** [for x in xs: body(x)] *)
Fixpoint for_each {S A} (xs : list A) (body : A -> M S unit) : M S unit :=
  match xs with
  | [] => ret tt
  | x :: xs' => body x ;; for_each xs' body
  end.

(** the final state of an outcome *)
Definition state_of {S A} (o : outcome S A) : S :=
  match o with Ok _ s => s | Raise _ s => s end.

(** *** Operations on one record *)

(** [metr[k]] *)
Definition getitem (k : string) : M record value :=
  fun metr => match Dict.get metr k with
              | Some v => Ok v metr
              | None => Raise (KeyError k) metr
              end.

(** [metr[k] = v] *)
Definition setitem (k : string) (v : value) : M record unit :=
  modify (fun metr => Dict.set metr k v).

(** ** The state of the module object and its collaborators *)

(** one found log: [f['s_name']], [f['root']], [f['fn']] and the lines that
    iterating [f['f']] yields, line ends included *)
Record log_file : Type := {
  f_s_name : string;
  f_root : string;
  f_fn : string;
  f_lines : list string
}.

(** an entry of [self.general_stats_headers], the [modify] callback left out *)
Record header : Type := {
  h_title : string;
  h_description : string;
  h_max : nat;
  h_min : nat;
  h_suffix : string;
  h_scale : string
}.

(** [pconfig] of the bar plot *)
Record plot_config : Type := {
  pc_id : string;
  pc_title : string;
  pc_ylab : string;
  pc_cpswitch_counts_label : string;
  pc_cpswitch_c_active : bool
}.

(** What the function does to the outside, in the order it does it. *)
Inductive event : Type :=
| log_debug (msg : string)
| log_warn (msg : string)
| add_data_source (fn s_name section : string)
| write_data_file (data : dict record) (fn : string)
| add_section (name anchor description : string)
              (plot_data : dict record) (plot_keys : list (string * string))
              (plot_conf : plot_config).

Record module_state : Type := {
  picard_dupMetrics_data : dict record;
  general_stats_headers : dict header;
  general_stats_data : dict record;
  trace : list event
}.

Definition with_data (f : dict record -> dict record) (st : module_state) : module_state :=
  {| picard_dupMetrics_data := f (picard_dupMetrics_data st);
     general_stats_headers := general_stats_headers st;
     general_stats_data := general_stats_data st;
     trace := trace st |}.

Definition with_headers (f : dict header -> dict header) (st : module_state) : module_state :=
  {| picard_dupMetrics_data := picard_dupMetrics_data st;
     general_stats_headers := f (general_stats_headers st);
     general_stats_data := general_stats_data st;
     trace := trace st |}.

Definition with_stats (f : dict record -> dict record) (st : module_state) : module_state :=
  {| picard_dupMetrics_data := picard_dupMetrics_data st;
     general_stats_headers := general_stats_headers st;
     general_stats_data := f (general_stats_data st);
     trace := trace st |}.

Definition with_event (e : event) (st : module_state) : module_state :=
  {| picard_dupMetrics_data := picard_dupMetrics_data st;
     general_stats_headers := general_stats_headers st;
     general_stats_data := general_stats_data st;
     trace := trace st ++ [e] |}.

Definition emit (e : event) : M module_state unit := modify (with_event e).

(** [self.picard_dupMetrics_data[s_name]] *)
Definition sample (s_name : string) : M module_state record :=
  fun st => match Dict.get (picard_dupMetrics_data st) s_name with
            | Some metr => Ok metr st
            | None => Raise (KeyError s_name) st
            end.

(** [self.general_stats_data[s_name]] *)
Definition stats_of (s_name : string) : M module_state record :=
  fun st => match Dict.get (general_stats_data st) s_name with
            | Some g => Ok g st
            | None => Raise (KeyError s_name) st
            end.

(** [self.picard_dupMetrics_data[s_name] = metr] *)
Definition set_sample (s_name : string) (metr : record) : M module_state unit :=
  modify (with_data (fun d => Dict.set d s_name metr)).

(** [self.picard_dupMetrics_data.pop(s_name, None)] *)
Definition pop_sample (s_name : string) : M module_state unit :=
  modify (with_data (fun d => Dict.pop d s_name)).

(** A computation on the record of [s_name], run on the object that
    [self.picard_dupMetrics_data[s_name]] denotes: what it did to the record
    stays, also when it raises. *)
Definition on_sample {A} (s_name : string) (c : M record A) : M module_state A :=
  fun st => match Dict.get (picard_dupMetrics_data st) s_name with
            | None => Raise (KeyError s_name) st
            | Some metr =>
                match c metr with
                | Ok a metr' => Ok a (with_data (fun d => Dict.set d s_name metr') st)
                | Raise e metr' => Raise e (with_data (fun d => Dict.set d s_name metr') st)
                end
            end.

(** The methods of the module object and the built-ins that [parse_reports]
    calls and this file does not define. *)
Class Host : Type := {
  (** [float(text)]: [None] when it raises [ValueError] *)
  py_float : string -> option float;
  (** [self.find_log_files(log_key, filehandles=True)] *)
  find_log_files : string -> list log_file;
  (** [self.clean_s_name(s_name, root)] *)
  clean_s_name : string -> string -> string;
  (** whether a sample name matches one of the caller's ignore patterns *)
  ignored : string -> bool
}.

(** the keyword arguments of [parse_reports] *)
Record params : Type := {
  log_key : string;
  section_name : string;
  section_anchor : string;
  plot_title : string;
  plot_id : string;
  data_filename : string
}.

Definition default_params : params :=
  {| log_key := "picard/markdups";
     section_name := "Mark Duplicates";
     section_anchor := "picard-markduplicates";
     plot_title := "Picard: Deduplication Stats";
     plot_id := "picard_deduplication";
     data_filename := "multiqc_picard_dups" |}.

(** ** The parser *)

Section Parser.
Context {host : Host}.

(** the test of line 35: a new log starts on this line *)
Definition is_block_start (l : string) : bool :=
  PyStr.contains "markduplicates" (PyStr.lower l) &&
  PyStr.contains "input" (PyStr.lower l).

(** the test of line 45: this line is the header row of the metrics table *)
Definition is_header (l : string) : bool :=
  PyStr.contains "UNPAIRED_READ_DUPLICATES" l.

(** lines 36-42: the sample name a block-start line gives, [None] when it
    has no [INPUT] directive *)
Definition name_from_input (root l : string) : option string :=
  match PyStr.search_input l with
  | Some g => Some (clean_s_name (PyStr.basename (PyStr.strip "[]" g)) root)
  | None => None
  end.

(** lines 35-42: the pending sample name after looking at line [l] *)
Definition next_name (f : log_file) (s_name : option string) (l : string) : option string :=
  if is_block_start l then name_from_input (f_root f) l else s_name.

(** lines 53-56: [float(text)], the text itself on [ValueError] *)
Definition coerce (text : string) : value :=
  match py_float text with
  | Some x => VFloat x
  | None => VStr text
  end.

(** lines 52-56, on the record of the sample: [i] is the index [enumerate]
    has reached; [vals[i]] raises [IndexError] past the end of the row. *)
Fixpoint store_fields (i : nat) (keys vals : list string) : M record unit :=
  match keys with
  | [] => ret tt
  | k :: keys' =>
      match nth_error vals i with
      | None => raise IndexError
      | Some text => setitem k (coerce text) ;; store_fields (S i) keys' vals
      end
  end.

(** [metr.get(k, 0) == 0] *)
Definition get_is_zero (metr : record) (k : string) : bool :=
  match Dict.get metr k with
  | Some v => py_eq_zero v
  | None => true
  end.

(** the condition of lines 58-59 *)
Definition no_reads (metr : record) : bool :=
  get_is_zero metr "READ_PAIRS_EXAMINED" &&
  get_is_zero metr "UNPAIRED_READS_EXAMINED".

(** the texts of the log messages of lines 47, 61 and 67 *)
Definition duplicate_message (fn s_name : string) : string :=
  "Duplicate sample name found in " ++ fn ++ "! Overwriting: " ++ s_name.

Definition no_reads_message (s_name : string) : string :=
  "Skipping MarkDuplicates sample '" ++ s_name ++ "' as log contained no reads".

Definition removing_message (s_name : string) : string :=
  "Removing " ++ s_name ++ " as no data parsed".

(** lines 46-56: the header row [l] and the value row [next] are stored
    under [s_name], over a fresh record *)
Definition store_block (f : log_file) (s_name l next : string) : M module_state unit :=
  known <- gets (fun st => Dict.mem (picard_dupMetrics_data st) s_name) ;;
  (if known : bool
   then emit (log_debug (duplicate_message (f_fn f) s_name))
   else ret tt) ;;
  emit (add_data_source (f_fn f) s_name "DuplicationMetrics") ;;
  set_sample s_name [] ;;
  let keys := PyStr.split PyStr.tab (PyStr.rstrip PyStr.newline l) in
  let vals := PyStr.split PyStr.tab (PyStr.rstrip PyStr.newline next) in
  on_sample s_name (store_fields 0 keys vals).

(** lines 57-61: a sample without reads is taken out again *)
Definition check_reads (s_name : string) : M module_state unit :=
  metr <- sample s_name ;;
  if no_reads metr
  then pop_sample s_name ;;
       emit (log_warn (no_reads_message s_name))
  else ret tt.

(** lines 46-61 *)
Definition parse_block (f : log_file) (s_name l next : string) : M module_state unit :=
  store_block f s_name l next ;; check_reads s_name.

(** Lines 33-62, the loop over the lines of one file.  [s_name] is the
    pending sample name and [ls] what the file handle has still to give;
    [readline()] takes the line after the header row away from the loop,
    and gives the empty text at the end of the file. *)
Fixpoint scan_lines (f : log_file) (s_name : option string) (ls : list string)
  : M module_state unit :=
  match ls with
  | [] => ret tt
  | l :: rest =>
      match next_name f s_name l with
      | None => scan_lines f None rest
      | Some n =>
          if is_header l then
            match rest with
            | [] => parse_block f n l EmptyString
            | next :: rest' => parse_block f n l next ;; scan_lines f None rest'
            end
          else scan_lines f (Some n) rest
      end
  end.

(** lines 64-67: records left without any field are removed *)
Definition remove_empty : M module_state unit :=
  names <- gets (fun st => Dict.keys (picard_dupMetrics_data st)) ;;
  for_each names (fun s_name =>
    metr <- sample s_name ;;
    if (Dict.len metr =? 0)%nat
    then pop_sample s_name ;;
         emit (log_debug (removing_message s_name))
    else ret tt).

(** lines 32-67, one turn of the loop over the files *)
Definition process_file (f : log_file) : M module_state unit :=
  scan_lines f (Some (f_s_name f)) (f_lines f) ;; remove_empty.

(** Modelled from the spec: [self.ignore_samples], the exclusion collaborator,
    whose code is not in this file.  It "removes samples matching
    caller-supplied ignore patterns" and "must not reorder or mutate
    surviving entries". *)
Definition ignore_samples (data : dict record) : dict record :=
  filter (fun kv => negb (ignored (fst kv))) data.

(** lines 79-87 *)
Definition percent_duplication_header (p : params) : header :=
  {| h_title := "% Dups";
     h_description := section_name p ++ " - Percent Duplication";
     h_max := 100;
     h_min := 0;
     h_suffix := "%";
     h_scale := "OrRd" |}.

(** lines 88-91 *)
Definition add_general_stats : M module_state unit :=
  names <- gets (fun st => Dict.keys (picard_dupMetrics_data st)) ;;
  for_each names (fun s_name =>
    known <- gets (fun st => Dict.mem (general_stats_data st) s_name) ;;
    (if known : bool then ret tt
     else modify (with_stats (fun g => Dict.set g s_name []))) ;;
    g <- stats_of s_name ;;
    metr <- sample s_name ;;
    modify (with_stats (fun gs => Dict.set gs s_name (Dict.update g metr)))).

(** lines 98-104, on one record *)
Definition derive_metrics : M record unit :=
  a <- getitem "READ_PAIR_DUPLICATES" ;;
  v <- lift (py_double a) ;;
  setitem "READS_IN_DUPLICATE_PAIRS" v ;;
  a <- getitem "READ_PAIRS_EXAMINED" ;;
  b <- getitem "READ_PAIR_DUPLICATES" ;;
  d <- lift (py_sub a b) ;;
  v <- lift (py_double d) ;;
  setitem "READS_IN_UNIQUE_PAIRS" v ;;
  a <- getitem "UNPAIRED_READS_EXAMINED" ;;
  b <- getitem "UNPAIRED_READ_DUPLICATES" ;;
  v <- lift (py_sub a b) ;;
  setitem "READS_IN_UNIQUE_UNPAIRED" v ;;
  a <- getitem "READ_PAIR_OPTICAL_DUPLICATES" ;;
  v <- lift (py_double a) ;;
  setitem "READS_IN_DUPLICATE_PAIRS_OPTICAL" v ;;
  a <- getitem "READS_IN_DUPLICATE_PAIRS" ;;
  b <- getitem "READS_IN_DUPLICATE_PAIRS_OPTICAL" ;;
  v <- lift (py_sub a b) ;;
  setitem "READS_IN_DUPLICATE_PAIRS_NONOPTICAL" v ;;
  v <- getitem "UNPAIRED_READ_DUPLICATES" ;;
  setitem "READS_IN_DUPLICATE_UNPAIRED" v ;;
  v <- getitem "UNMAPPED_READS" ;;
  setitem "READS_UNMAPPED" v.

(** lines 97-104: the loop over [items()] changes each record in place, in
    the order of the collection, and stops at the first exception *)
Fixpoint derive_all : M (dict record) unit :=
  fun data =>
    match data with
    | [] => Ok tt []
    | (s_name, metr) :: data' =>
        match derive_metrics metr with
        | Raise e metr' => Raise e ((s_name, metr') :: data')
        | Ok _ metr' =>
            match derive_all data' with
            | Ok _ data'' => Ok tt ((s_name, metr') :: data'')
            | Raise e data'' => Raise e ((s_name, metr') :: data'')
            end
        end
    end.

(** [derive_all] on [self.picard_dupMetrics_data] *)
Definition derive_samples : M module_state unit :=
  fun st => match derive_all (picard_dupMetrics_data st) with
            | Ok _ data' => Ok tt (with_data (fun _ => data') st)
            | Raise e data' => Raise e (with_data (fun _ => data') st)
            end.

(** lines 107-114 *)
Definition keys_r : list string :=
  [ "READS_IN_UNIQUE_PAIRS";
    "READS_IN_UNIQUE_UNPAIRED";
    "READS_IN_DUPLICATE_PAIRS_OPTICAL";
    "READS_IN_DUPLICATE_PAIRS_NONOPTICAL";
    "READS_IN_DUPLICATE_UNPAIRED";
    "READS_UNMAPPED" ].

(** line 116: the label of a plotted field *)
Definition label (k : string) : string :=
  PyStr.title
    (PyStr.replace "_" " " (PyStr.replace "IN_" "" (PyStr.replace "READS_" "" k))).

(** lines 106 and 115-116: the ordered [keys] given to the bar plot, each
    field with its ['name'] *)
Definition plot_keys : list (string * string) :=
  fold_left (fun keys k => Dict.set keys k (label k)) keys_r [].

(** lines 119-125 *)
Definition pconfig (p : params) : plot_config :=
  {| pc_id := plot_id p;
     pc_title := plot_title p;
     pc_ylab := "# Reads";
     pc_cpswitch_counts_label := "Number of Reads";
     pc_cpswitch_c_active := false |}.

(** the description given to [add_section]; its help text, a constant, is
    left out of the model *)
Definition section_description : string :=
  "Number of reads, categorised by duplication state. **Pair counts are doubled** - see help text for details.".

(** lines 73-147: what is done when a sample is left *)
Definition report (p : params) : M module_state unit :=
  data <- gets picard_dupMetrics_data ;;
  emit (write_data_file data (data_filename p)) ;;
  modify (with_headers (fun h =>
    Dict.set h "PERCENT_DUPLICATION" (percent_duplication_header p))) ;;
  add_general_stats ;;
  derive_samples ;;
  data <- gets picard_dupMetrics_data ;;
  emit (add_section (section_name p) (section_anchor p) section_description
          data plot_keys (pconfig p)).

(** [parse_reports]: the number of samples found, or the exception that
    leaves the function *)
Definition parse_reports (p : params) : M module_state nat :=
  modify (with_data (fun _ => [])) ;;
  for_each (find_log_files (log_key p)) process_file ;;
  modify (with_data ignore_samples) ;;
  n <- gets (fun st => Dict.len (picard_dupMetrics_data st)) ;;
  (if (0 <? n)%nat then report p else ret tt) ;;
  gets (fun st => Dict.len (picard_dupMetrics_data st)).

End Parser.

Arguments duplicate_message : simpl never.
Arguments no_reads_message : simpl never.
Arguments removing_message : simpl never.

(** * Views of the code

    The definitions below are read off the code above and say what it
    does in terms that the later statements use: the record of a pair of
    rows, the header rows that the loop over the lines reaches, the
    collection that parsed blocks leave.  Each is tied to the code by a
    lemma further down. *)

Section Views.
Context {host : Host}.

(** ** A header row and its value row *)

(** the fields of a row: [l.rstrip("\n").split("\t")] *)
Definition row (l : string) : list string :=
  PyStr.split PyStr.tab (PyStr.rstrip PyStr.newline l).

(** the assignments lines 52-56 make for the header fields that have a
    value at their position, in the order of the header row *)
Definition paired (keys vals : list string) : list (string * value) :=
  combine keys (map coerce vals).

(** the record of a header row and a value row *)
Definition block_record (l next : string) : record :=
  Dict.update [] (paired (row l) (row next)).

(** the value row has a field for every field of the header row *)
Definition covers (l next : string) : bool :=
  (List.length (row l) <=? List.length (row next))%nat.

(** what lines 46-48 report *)
Definition announce (f : log_file) (s_name : string) (st : module_state) : list event :=
  (if Dict.mem (picard_dupMetrics_data st) s_name
   then [log_debug (duplicate_message (f_fn f) s_name)]
   else []) ++ [add_data_source (f_fn f) s_name "DuplicationMetrics"].

(** the state after lines 46-56 *)
Definition stored (f : log_file) (s_name l next : string) (st : module_state) : module_state :=
  {| picard_dupMetrics_data :=
       Dict.set (picard_dupMetrics_data st) s_name (block_record l next);
     general_stats_headers := general_stats_headers st;
     general_stats_data := general_stats_data st;
     trace := trace st ++ announce f s_name st |}.

(** the state after lines 60-61 *)
Definition dropped (s_name : string) (st : module_state) : module_state :=
  with_event (log_warn (no_reads_message s_name))
             (with_data (fun d => Dict.pop d s_name) st).

(** ** The header rows that are parsed *)

(** The header rows that the loop over the lines of [f] reaches with a
    pending sample name, each with that name and with the line that
    [readline()] gives for it: the recursion of [scan_lines], without the
    state. *)
Fixpoint blocks (f : log_file) (s_name : option string) (ls : list string)
  : list (string * string * string) :=
  match ls with
  | [] => []
  | l :: rest =>
      match next_name f s_name l with
      | None => blocks f None rest
      | Some n =>
          if is_header l then
            match rest with
            | [] => [(n, l, EmptyString)]
            | next :: rest' => (n, l, next) :: blocks f None rest'
            end
          else blocks f (Some n) rest
      end
  end.

(** the blocks of a file: the loop starts with the file's own sample name *)
Definition file_blocks (f : log_file) : list (string * string * string) :=
  blocks f (Some (f_s_name f)) (f_lines f).

(** lines 46-61 on a block *)
Definition run_block (f : log_file) (b : string * string * string) : M module_state unit :=
  let '(n, l, next) := b in parse_block f n l next.

(** the value row of a block has a field for every field of its header row *)
Definition block_covers (b : string * string * string) : bool :=
  let '(_, l, next) := b in covers l next.

(** the blocks of the files, in the order they are parsed *)
Definition all_blocks (files : list log_file) : list (string * string * string) :=
  flat_map file_blocks files.

(** every record of the collection has reads *)
Definition with_reads (data : dict record) : Prop :=
  Forall (fun kv => no_reads (snd kv) = false) data.

(** what one parsed block does to the collection when its value row
    covers its header row *)
Definition settle (data : dict record) (b : string * string * string) : dict record :=
  let '(n, l, next) := b in
  if no_reads (block_record l next)
  then Dict.pop data n
  else Dict.set data n (block_record l next).

(** the collection after the loop over the files and the exclusion filter *)
Definition collected (files : list log_file) : dict record :=
  ignore_samples (fold_left settle (all_blocks files) []).

(** ** The derived metrics *)

(** the raw fields that lines 98-104 read *)
Definition required_fields : list string :=
  [ "READ_PAIR_DUPLICATES"; "READ_PAIRS_EXAMINED"; "UNPAIRED_READS_EXAMINED";
    "UNPAIRED_READ_DUPLICATES"; "READ_PAIR_OPTICAL_DUPLICATES"; "UNMAPPED_READS" ].

(** those of them that are operands of a product or of a difference *)
Definition arithmetic_fields : list string :=
  [ "READ_PAIR_DUPLICATES"; "READ_PAIRS_EXAMINED"; "UNPAIRED_READS_EXAMINED";
    "UNPAIRED_READ_DUPLICATES"; "READ_PAIR_OPTICAL_DUPLICATES" ].

(** the fields that lines 98-104 assign *)
Definition derived_names : list string :=
  [ "READS_IN_DUPLICATE_PAIRS"; "READS_IN_UNIQUE_PAIRS"; "READS_IN_UNIQUE_UNPAIRED";
    "READS_IN_DUPLICATE_PAIRS_OPTICAL"; "READS_IN_DUPLICATE_PAIRS_NONOPTICAL";
    "READS_IN_DUPLICATE_UNPAIRED"; "READS_UNMAPPED" ].

(** [metr[k]] is there and is a number *)
Definition is_number (metr : record) (k : string) : bool :=
  match Dict.get metr k with Some (VFloat _) => true | _ => false end.

(** the records on which lines 98-104 run to their end *)
Definition derivable (metr : record) : bool :=
  forallb (is_number metr) arithmetic_fields && Dict.mem metr "UNMAPPED_READS".

(** why lines 98-104 raise [e] on [metr] *)
Definition failure (metr : record) (e : exn) : Prop :=
  (exists k, In k required_fields /\ Dict.get metr k = None /\ e = KeyError k) \/
  (exists k s, In k arithmetic_fields /\ Dict.get metr k = Some (VStr s) /\ e = TypeError).

(** a computation on a record that leaves every field alone that is not a
    derived one, whether it returns or raises *)
Definition frames {A} (c : M record A) : Prop :=
  forall metr k, ~ In k derived_names ->
    Dict.get (state_of (c metr)) k = Dict.get metr k.

(** the records before and after the loop of lines 97-104: the same names
    in the same order, and every field that is not a derived one as it was *)
Definition framed (data data' : dict record) : Prop :=
  Forall2 (fun kv kv' =>
             fst kv' = fst kv /\
             forall k, ~ In k derived_names ->
               Dict.get (snd kv') k = Dict.get (snd kv) k) data data'.

(** the records after the loop of lines 97-104 has run to its end: each is
    what lines 98-104 make of the record before *)
Definition derived_from (data data' : dict record) : Prop :=
  Forall2 (fun kv kv' =>
             fst kv' = fst kv /\ derive_metrics (snd kv) = Ok tt (snd kv'))
          data data'.

(** what a call reports after the loop over the files, when [raw] is the
    collection it has then and [data'] the one it leaves *)
Definition reported (p : params) (raw data' : dict record) : list event :=
  match raw with
  | [] => []
  | _ :: _ =>
      [ write_data_file raw (data_filename p);
        add_section (section_name p) (section_anchor p) section_description
                    data' plot_keys (pconfig p) ]
  end.

(** ** What the loop over the files reports, and what the call merges *)

(** the events that parsing the blocks [bs] can add: the report of a
    duplicate name, the data source of a block, and the warning for a block
    of [bs] that is stored whole and has no reads *)
Definition scan_event (bs : list (string * string * string)) (e : event) : Prop :=
  (exists fn s, e = log_debug (duplicate_message fn s)) \/
  (exists fn s, e = add_data_source fn s "DuplicationMetrics") \/
  (exists n l next,
     In (n, l, next) bs /\ covers l next = true /\
     no_reads (block_record l next) = true /\
     e = log_warn (no_reads_message n)).

(** what parsing the blocks [bs] does to the module, whether they return or raise:
    events of the block are added, the general statistics are left alone *)
Definition scan_effect (bs : list (string * string * string))
    (st st' : module_state) : Prop :=
  general_stats_headers st' = general_stats_headers st /\
  general_stats_data st' = general_stats_data st /\
  exists evs, trace st' = trace st ++ evs /\ Forall (scan_event bs) evs.

(** the events of lines 76 and 127-147 *)
Definition report_event (e : event) : Prop :=
  (exists data fn, e = write_data_file data fn) \/
  (exists name anchor descr data keys conf,
     e = add_section name anchor descr data keys conf).

(** the last block parsed under the name [s]: its header row and its value
    row *)
Fixpoint last_block (bs : list (string * string * string)) (s : string)
  : option (string * string) :=
  match bs with
  | [] => None
  | (n, l, next) :: bs' =>
      match last_block bs' s with
      | Some b => Some b
      | None => if String.eqb n s then Some (l, next) else None
      end
  end.

(** [gs[s]] when it is there, the empty record that line 90 puts there
    otherwise *)
Definition entry (gs : dict record) (s : string) : record :=
  match Dict.get gs s with
  | Some g => g
  | None => []
  end.

(** lines 88-91 as a function of the general statistics: the samples
    [names] of [data], one after the other, are merged into their entries *)
Definition merge_stats (data : dict record) (names : list string) (gs : dict record)
  : dict record :=
  fold_left (fun gs s =>
               match Dict.get data s with
               | Some metr => Dict.set gs s (Dict.update (entry gs s) metr)
               | None => gs
               end) names gs.

(** the text of [n] line ends *)
Fixpoint line_ends (n : nat) : string :=
  match n with
  | O => EmptyString
  | S k => (PyStr.newline ++ line_ends k)%string
  end.

(** what lines 39-41 hand to [clean_s_name] for the group that the
    pattern has found *)
Definition name_candidate (g : string) : string :=
  PyStr.basename (PyStr.strip "[]" g).

(** every character of [s] passes the test [p] *)
Fixpoint all_chars (p : ascii -> bool) (s : string) : bool :=
  match s with
  | EmptyString => true
  | String c s' => p c && all_chars p s'
  end.

(** a text without whitespace *)
Definition solid (s : string) : bool :=
  all_chars (fun c => negb (PyStr.is_space c)) s.

(** a text that is empty or starts with whitespace: what can follow the
    group of the pattern *)
Definition ends_group (s : string) : bool :=
  match s with
  | EmptyString => true
  | String c _ => PyStr.is_space c
  end.

(** * The specification, where it is compared with the code *)

(** The table of the specification: the seven derived fields with their
    formulas, in the order in which they are computed, from the values of
    the six raw fields. *)
Definition spec_derived_fields (rpd rpe ure urd rpod unm : float) : list (string * value) :=
  let reads_in_duplicate_pairs := (2 * rpd)%float in
  let reads_in_duplicate_pairs_optical := (2 * rpod)%float in
  [ ("READS_IN_DUPLICATE_PAIRS", VFloat reads_in_duplicate_pairs);
    ("READS_IN_UNIQUE_PAIRS", VFloat (2 * (rpe - rpd))%float);
    ("READS_IN_UNIQUE_UNPAIRED", VFloat (ure - urd)%float);
    ("READS_IN_DUPLICATE_PAIRS_OPTICAL", VFloat reads_in_duplicate_pairs_optical);
    ("READS_IN_DUPLICATE_PAIRS_NONOPTICAL",
       VFloat (reads_in_duplicate_pairs - reads_in_duplicate_pairs_optical)%float);
    ("READS_IN_DUPLICATE_UNPAIRED", VFloat urd);
    ("READS_UNMAPPED", VFloat unm) ].

(** C1 as the specification states it: every record that is left after
    the loop over the files and the exclusion filter, and whose six raw
    fields are numbers, has got the seven derived fields when the call is
    over. *)
Definition spec_every_numeric_record_is_derived (p : params) (st : module_state) : Prop :=
  forall st1 s metr rpd rpe ure urd rpod unm,
    for_each (find_log_files (log_key p)) process_file
      (with_data (fun _ => []) st) = Ok tt st1 ->
    In (s, metr) (ignore_samples (picard_dupMetrics_data st1)) ->
    Dict.get metr "READ_PAIR_DUPLICATES" = Some (VFloat rpd) ->
    Dict.get metr "READ_PAIRS_EXAMINED" = Some (VFloat rpe) ->
    Dict.get metr "UNPAIRED_READS_EXAMINED" = Some (VFloat ure) ->
    Dict.get metr "UNPAIRED_READ_DUPLICATES" = Some (VFloat urd) ->
    Dict.get metr "READ_PAIR_OPTICAL_DUPLICATES" = Some (VFloat rpod) ->
    Dict.get metr "UNMAPPED_READS" = Some (VFloat unm) ->
    Dict.get (picard_dupMetrics_data (state_of (parse_reports p st))) s
      = Some (Dict.update metr (spec_derived_fields rpd rpe ure urd rpod unm)).

(** C2 as the specification states it: whenever a file holds a header row
    that the loop parses and whose value row has fewer fields, the call
    still returns a sample count, and a warning has been logged. *)
Definition spec_short_row_is_dropped (p : params) (st : module_state) : Prop :=
  forall f n l next,
    In f (find_log_files (log_key p)) ->
    In (n, l, next) (file_blocks f) ->
    covers l next = false ->
    exists count st',
      parse_reports p st = Ok count st' /\
      (exists msg, In (log_warn msg) (trace st')).

(** C3 as the specification states it: when a record that passed the
    validation lacks one of the six required raw fields, or holds text in
    one, the call still returns a sample count, the record is in the final
    collection with its raw fields and without derived fields, and a
    warning has been logged. *)
Definition spec_missing_input_is_soft (p : params) (st : module_state) : Prop :=
  forall st1 s metr,
    for_each (find_log_files (log_key p)) process_file
      (with_data (fun _ => []) st) = Ok tt st1 ->
    In (s, metr) (ignore_samples (picard_dupMetrics_data st1)) ->
    (exists k, In k required_fields /\
       (Dict.get metr k = None \/ exists t, Dict.get metr k = Some (VStr t))) ->
    exists count st',
      parse_reports p st = Ok count st' /\
      Dict.get (picard_dupMetrics_data st') s = Some metr /\
      (exists msg, In (log_warn msg) (trace st')).

(** C5 as the specification states it: when two blocks are parsed under
    one name, a call that returns leaves one record for each name, the
    record of that name is the one of the later block, and a warning about
    the duplicate name has been logged. *)
Definition spec_duplicate_is_warned (p : params) (st : module_state) : Prop :=
  forall bs1 s l1 next1 bs2 l2 next2 bs3 count st',
    all_blocks (find_log_files (log_key p))
      = bs1 ++ (s, l1, next1) :: bs2 ++ (s, l2, next2) :: bs3 ->
    Forall (fun b => fst (fst b) <> s) bs3 ->
    parse_reports p st = Ok count st' ->
    Dict.wf (picard_dupMetrics_data st') /\
    (forall metr', Dict.get (picard_dupMetrics_data st') s = Some metr' ->
       derive_metrics (state_of (store_fields 0 (row l2) (row next2) [])) = Ok tt metr') /\
    (exists msg, In (log_warn msg) (trace st')).

(** C8 as the specification states it: in the record of a header row and
    a value row of equal length, the field name at every position is bound
    to the coercion of the value at that position. *)
Definition spec_pair_is_positional : Prop :=
  forall (f : log_file) (s_name l next : string) (st : module_state)
         (metr : record) (i : nat) (k text : string),
    List.length (row l) = List.length (row next) ->
    Dict.get (picard_dupMetrics_data (state_of (store_block f s_name l next st)))
             s_name = Some metr ->
    nth_error (row l) i = Some k ->
    nth_error (row next) i = Some text ->
    Dict.get metr k = Some (coerce text).

(** C6 as the specification states it, for a file none of whose lines
    starts a block: no line of it is parsed as a header row, and the file
    leaves the module as it found it. *)
Definition spec_idle_header_is_ignored (f : log_file) (st : module_state) : Prop :=
  Forall (fun l => is_block_start l = false) (f_lines f) ->
  file_blocks f = [] /\ process_file f st = Ok tt st.

(** [s] without the prefix [p], when it starts with it *)
Definition strip_prefix (p s : string) : string :=
  if PyStr.startswith p s then PyStr.drop (String.length p) s else s.

(** C7 as the specification states it: the label of a field is its name
    without the prefixes READS_ and IN_, in title case, and the plot is
    given the seven derived fields in the order of their computation. *)
Definition spec_label (k : string) : string :=
  PyStr.title (strip_prefix "IN_" (strip_prefix "READS_" k)).

(** the fields and labels that the specification gives the plot *)
Definition spec_plot_keys : list (string * string) :=
  map (fun k => (k, spec_label k)) derived_names.

(** the label as the code makes it, said with prefixes: the name without
    READS_ and IN_, its underscores turned into spaces, in title case *)
Definition spaced_label (k : string) : string :=
  PyStr.title (PyStr.replace "_" " " (strip_prefix "IN_" (strip_prefix "READS_" k))).

End Views.

(** ** Sample inputs *)

Module Sample.

Definition digit_value (c : ascii) : option float :=
  match c with
  | "0"%char => Some 0%float | "1"%char => Some 1%float
  | "2"%char => Some 2%float | "3"%char => Some 3%float
  | "4"%char => Some 4%float | "5"%char => Some 5%float
  | "6"%char => Some 6%float | "7"%char => Some 7%float
  | "8"%char => Some 8%float | "9"%char => Some 9%float
  | _ => None
  end.

(** the number written by a run of decimal digits, most significant first *)
Fixpoint digits_value (acc : float) (s : string) : option float :=
  match s with
  | EmptyString => Some acc
  | String c s' =>
      match digit_value c with
      | Some d => digits_value (acc * 10 + d)%float s'
      | None => None
      end
  end.

(** [float] on the texts used below: a run of one to fifteen decimal
    digits is the whole number it writes (exact in binary64), and a text
    that is no number at all raises [ValueError]. *)
Definition float_of_digits (s : string) : option float :=
  if PyStr.is_empty s || (15 <? String.length s)%nat then None
  else digits_value 0%float s.

(** A host that finds the given files under the key of the Picard reports,
    leaves sample names as they are and ignores no sample. *)
Definition host_of (files : list log_file) : Host :=
  {| py_float := float_of_digits;
     find_log_files := fun key => if String.eqb key "picard/markdups" then files else [];
     clean_s_name := fun s _ => s;
     ignored := fun _ => false |}.

Definition line (fields : list string) : string :=
  String.concat (String PyStr.tab EmptyString) fields ++ PyStr.newline.

(** the object before the call: nothing recorded yet *)
Definition fresh : module_state :=
  {| picard_dupMetrics_data := [];
     general_stats_headers := [];
     general_stats_data := [];
     trace := [] |}.

Definition columns : list string :=
  [ "LIBRARY"; "UNPAIRED_READS_EXAMINED"; "READ_PAIRS_EXAMINED";
    "UNMAPPED_READS"; "UNPAIRED_READ_DUPLICATES"; "READ_PAIR_DUPLICATES";
    "READ_PAIR_OPTICAL_DUPLICATES" ].

(** the line that starts the block of a sample in a log of Picard *)
Definition start_line (bam : string) : string :=
  "# picard.sam.markduplicates.MarkDuplicates INPUT=[" ++ bam ++ "] OUTPUT=out.bam"
  ++ PyStr.newline.

Definition log_of (s_name : string) (lines : list string) : log_file :=
  {| f_s_name := s_name; f_root := "/data"; f_fn := s_name ++ ".txt";
     f_lines := lines |}.

(** the raw fields of the worked example of the specification *)
Definition counts : record :=
  [ ("READ_PAIR_DUPLICATES", VFloat 10); ("READ_PAIRS_EXAMINED", VFloat 100);
    ("UNPAIRED_READS_EXAMINED", VFloat 0); ("UNPAIRED_READ_DUPLICATES", VFloat 0);
    ("READ_PAIR_OPTICAL_DUPLICATES", VFloat 2); ("UNMAPPED_READS", VFloat 5) ].

(** a complete report for sampleB *)
Definition full_log : log_file :=
  log_of "full"
    [ start_line "/runs/sampleB";
      line columns;
      line ["lib"; "0"; "100"; "5"; "0"; "10"; "2"] ].

(** a report for sampleA whose value row lacks its last field *)
Definition short_log : log_file :=
  log_of "short"
    [ start_line "/runs/sampleA";
      line columns;
      line ["lib"; "0"; "100"; "5"; "0"; "10"] ].

(** a report for sampleA from a tool that does not count unmapped reads *)
Definition unmapped_missing_log : log_file :=
  log_of "old"
    [ start_line "/runs/sampleA";
      line [ "LIBRARY"; "UNPAIRED_READS_EXAMINED"; "READ_PAIRS_EXAMINED";
             "UNPAIRED_READ_DUPLICATES"; "READ_PAIR_DUPLICATES";
             "READ_PAIR_OPTICAL_DUPLICATES" ];
      line ["lib"; "0"; "100"; "0"; "10"; "2"] ].

(** two reports that both name sampleA, with different counts *)
Definition first_log : log_file :=
  log_of "first"
    [ start_line "/runs/sampleA";
      line columns;
      line ["lib"; "0"; "100"; "5"; "0"; "10"; "2"] ].

Definition second_log : log_file :=
  log_of "second"
    [ start_line "/other/sampleA";
      line columns;
      line ["lib"; "4"; "200"; "7"; "1"; "30"; "6"] ].

(** a metrics table with no line before it that starts a block, and the
    same table once more *)
Definition headless_log : log_file :=
  log_of "headless"
    [ ("## METRICS CLASS picard.sam.DuplicationMetrics" ++ PyStr.newline)%string;
      line columns;
      line ["lib"; "0"; "100"; "5"; "0"; "10"; "2"];
      line columns;
      line ["lib"; "4"; "200"; "7"; "1"; "30"; "6"] ].

(** a report without reads for sampleA, then a complete one for sampleB *)
Definition empty_log : log_file :=
  log_of "empty"
    [ start_line "/runs/sampleA";
      line columns;
      line ["lib"; "0"; "0"; "0"; "0"; "0"; "0"];
      start_line "/runs/sampleB";
      line columns;
      line ["lib"; "0"; "100"; "5"; "0"; "10"; "2"] ].

(** the rows of the samples above *)
Definition header_row : string := line columns.
Definition full_row : string := line ["lib"; "0"; "100"; "5"; "0"; "10"; "2"].
Definition other_row : string := line ["lib"; "4"; "200"; "7"; "1"; "30"; "6"].
Definition short_row : string := line ["lib"; "0"; "100"; "5"; "0"; "10"].
Definition empty_row : string := line ["lib"; "0"; "0"; "0"; "0"; "0"; "0"].

(** the record of [unmapped_missing_log] *)
Definition old_record : record :=
  [ ("LIBRARY", VStr "lib"); ("UNPAIRED_READS_EXAMINED", VFloat 0);
    ("READ_PAIRS_EXAMINED", VFloat 100); ("UNPAIRED_READ_DUPLICATES", VFloat 0);
    ("READ_PAIR_DUPLICATES", VFloat 10); ("READ_PAIR_OPTICAL_DUPLICATES", VFloat 2) ].

(** the record of [full_log], as it is parsed *)
Definition full_record : record :=
  [ ("LIBRARY", VStr "lib"); ("UNPAIRED_READS_EXAMINED", VFloat 0);
    ("READ_PAIRS_EXAMINED", VFloat 100); ("UNMAPPED_READS", VFloat 5);
    ("UNPAIRED_READ_DUPLICATES", VFloat 0); ("READ_PAIR_DUPLICATES", VFloat 10);
    ("READ_PAIR_OPTICAL_DUPLICATES", VFloat 2) ].

(** a header row that holds one name twice, and its values *)
Definition repeated_header : string :=
  line ["READ_PAIRS_EXAMINED"; "UNPAIRED_READ_DUPLICATES"; "READ_PAIRS_EXAMINED"].
Definition repeated_row : string := line ["7"; "3"; "8"].

(** the module after the loop over the given files *)
Definition scanned (files : list log_file) : module_state :=
  state_of (for_each (find_log_files (Host := host_of files) "picard/markdups")
              (process_file (host := host_of files))
              (with_data (fun _ => []) fresh)).

(** the module after a call on the given files *)
Definition final (files : list log_file) : module_state :=
  state_of (parse_reports (host := host_of files) default_params fresh).

(** a log in which no metrics table follows the command line *)
Definition plain_log : log_file :=
  log_of "plain"
    [ start_line "/runs/sampleA";
      ("[Mon Jan 01] picard.sam.markduplicates.MarkDuplicates done." ++ PyStr.newline)%string ].

(** a line that starts a block and names no input file *)
Definition unnamed_start : string :=
  "# MarkDuplicates finished, no input" ++ PyStr.newline.

(** a table without the two columns of examined reads *)
Definition bare_header : string :=
  line ["LIBRARY"; "UNPAIRED_READ_DUPLICATES"; "UNMAPPED_READS"].
Definition bare_row : string := line ["lib"; "3"; "4"].

(** a value row whose count of examined pairs is no number *)
Definition text_row : string := line ["lib"; "0"; "n/a"; "5"; "0"; "10"; "2"].

(** the parts of the command line of sampleB *)
Definition command_start : string := "# picard.sam.markduplicates.MarkDuplicates ".
Definition command_end : string := " OUTPUT=out.bam" ++ PyStr.newline.


End Sample.

(** * Properties *)

(** ** Dictionaries *)

Module DictFacts.
Import Dict.

Section Facts.
Context {V : Type}.
Implicit Types (d : dict V) (k : string) (v : V).

Lemma get_set d k v k' :
  get (set d k v) k' = if String.eqb k' k then Some v else get d k'.
Proof.
  induction d as [|[k0 v0] d IH]; simpl.
  - reflexivity.
  - destruct (String.eqb_spec k k0) as [->|Hk]; simpl.
    + destruct (String.eqb k' k0); reflexivity.
    + rewrite IH. destruct (String.eqb_spec k' k0) as [->|Hk'].
      * destruct (String.eqb_spec k0 k); congruence.
      * reflexivity.
Qed.

Lemma get_set_same d k v : get (set d k v) k = Some v.
Proof. rewrite get_set, String.eqb_refl. reflexivity. Qed.

Lemma get_set_other d k v k' : k' <> k -> get (set d k v) k' = get d k'.
Proof.
  intros Hk. rewrite get_set.
  destruct (String.eqb_spec k' k); congruence.
Qed.

Lemma get_in d k v : get d k = Some v -> In (k, v) d.
Proof.
  induction d as [|[k0 v0] d IH]; simpl; [discriminate|].
  destruct (String.eqb_spec k k0) as [->|Hk].
  - intros [= ->]. now left.
  - intros Hg. right. now apply IH.
Qed.

Lemma get_none_keys d k : get d k = None <-> ~ In k (keys d).
Proof.
  induction d as [|[k0 v0] d IH]; simpl.
  - tauto.
  - destruct (String.eqb_spec k k0) as [->|Hk].
    + split; [discriminate|]. intros Hn. exfalso. apply Hn. now left.
    + rewrite IH. split.
      * intros Hn [He|Hi]; [congruence|tauto].
      * tauto.
Qed.

Lemma in_keys_get d k : In k (keys d) -> exists v, get d k = Some v.
Proof.
  intros Hi. destruct (get d k) as [v|] eqn:Hg.
  - now exists v.
  - apply get_none_keys in Hg. contradiction.
Qed.

Lemma mem_keys d k : mem d k = true <-> In k (keys d).
Proof.
  unfold mem. split.
  - destruct (get d k) eqn:Hg; [|discriminate]. intros _.
    apply get_in in Hg. apply (in_map fst) in Hg. exact Hg.
  - intros Hi. apply in_keys_get in Hi as [v ->]. reflexivity.
Qed.

Lemma in_get d k v : wf d -> In (k, v) d -> get d k = Some v.
Proof.
  unfold wf. induction d as [|[k0 v0] d IH]; simpl; [tauto|].
  intros Hnd [[= -> ->]|Hi].
  - now rewrite String.eqb_refl.
  - inversion Hnd as [|? ? Hn Hnd']; subst.
    destruct (String.eqb_spec k k0) as [->|Hk].
    + exfalso. apply Hn. apply (in_map fst) in Hi. exact Hi.
    + now apply IH.
Qed.

Lemma keys_set d k v :
  keys (set d k v) = if mem d k then keys d else keys d ++ [k].
Proof.
  unfold mem. induction d as [|[k0 v0] d IH]; simpl.
  - reflexivity.
  - destruct (String.eqb_spec k k0) as [->|Hk]; simpl.
    + reflexivity.
    + rewrite IH. destruct (get d k); reflexivity.
Qed.

Lemma wf_set d k v : wf d -> wf (set d k v).
Proof.
  unfold wf. intros Hnd. rewrite keys_set.
  destruct (mem d k) eqn:Hm; [exact Hnd|].
  apply NoDup_app; [exact Hnd|repeat constructor; simpl; tauto|].
  intros x Hx [<-|[]]. apply mem_keys in Hx. congruence.
Qed.

Lemma set_set d k v v' : set (set d k v) k v' = set d k v'.
Proof.
  induction d as [|[k0 v0] d IH]; simpl.
  - now rewrite String.eqb_refl.
  - destruct (String.eqb_spec k k0) as [->|Hk]; simpl.
    + now rewrite String.eqb_refl.
    + destruct (String.eqb_spec k k0); [congruence|]. now rewrite IH.
Qed.

Lemma in_pop d k x : In x (pop d k) -> In x d.
Proof.
  induction d as [|[k0 v0] d IH]; simpl; [tauto|].
  destruct (String.eqb k k0); simpl; [tauto|].
  intros [->|Hi]; [now left|right; now apply IH].
Qed.

Lemma keys_pop_incl d k x : In x (keys (pop d k)) -> In x (keys d).
Proof.
  unfold keys. rewrite !in_map_iff. intros [y [Hy Hi]].
  exists y. split; [exact Hy|]. eapply in_pop; eassumption.
Qed.

Lemma wf_pop d k : wf d -> wf (pop d k).
Proof.
  unfold wf. induction d as [|[k0 v0] d IH]; simpl; [tauto|].
  intros Hnd. inversion Hnd as [|? ? Hn Hnd']; subst.
  destruct (String.eqb k k0); [exact Hnd'|].
  simpl. constructor; [|now apply IH].
  intros Hi. apply Hn. eapply keys_pop_incl; eassumption.
Qed.

Lemma get_pop_other d k k' : k' <> k -> get (pop d k) k' = get d k'.
Proof.
  intros Hk. induction d as [|[k0 v0] d IH]; simpl; [reflexivity|].
  destruct (String.eqb_spec k k0) as [->|Hk0]; simpl.
  - destruct (String.eqb_spec k' k0); congruence.
  - now rewrite IH.
Qed.

Lemma get_pop_same d k : wf d -> get (pop d k) k = None.
Proof.
  unfold wf. induction d as [|[k0 v0] d IH]; simpl; [reflexivity|].
  intros Hnd. inversion Hnd as [|? ? Hn Hnd']; subst.
  destruct (String.eqb_spec k k0) as [->|Hk0]; simpl.
  - now apply get_none_keys.
  - destruct (String.eqb_spec k k0); [congruence|]. now apply IH.
Qed.

Lemma pop_set_absent d k v : get d k = None -> pop (set d k v) k = d.
Proof.
  induction d as [|[k0 v0] d IH]; simpl.
  - now rewrite String.eqb_refl.
  - destruct (String.eqb_spec k k0) as [->|Hk0]; [discriminate|].
    intros Hg. simpl. destruct (String.eqb_spec k k0); [congruence|].
    now rewrite IH.
Qed.

Lemma pop_set d k v : pop (set d k v) k = pop d k.
Proof.
  induction d as [|[k0 v0] d IH]; simpl.
  - now rewrite String.eqb_refl.
  - destruct (String.eqb_spec k k0) as [->|Hk0]; simpl.
    + now rewrite String.eqb_refl.
    + destruct (String.eqb_spec k k0); [congruence|]. now rewrite IH.
Qed.

Lemma in_set d k v x : In x (set d k v) -> x = (k, v) \/ In x d.
Proof.
  induction d as [|[k0 v0] d IH]; simpl.
  - intros [<-|[]]. now left.
  - destruct (String.eqb k k0); simpl.
    + intros [<-|Hi]; [now left|right; now right].
    + intros [<-|Hi]; [right; now left|].
      destruct (IH Hi) as [->|Hd]; [now left|right; now right].
Qed.

Lemma update_app d e1 e2 : update d (e1 ++ e2) = update (update d e1) e2.
Proof. unfold update. apply fold_left_app. Qed.

Lemma keys_update_incl d e k :
  In k (keys (update d e)) -> In k (keys d) \/ In k (keys e).
Proof.
  revert d. induction e as [|[k0 v0] e IH]; simpl; intros d.
  - now left.
  - intros Hi. destruct (IH _ Hi) as [Hd|He].
    + rewrite keys_set in Hd. destruct (mem d k0).
      * now left.
      * apply in_app_or in Hd as [Hd|[<-|[]]]; [now left|right; now left].
    + right. now right.
Qed.

Lemma get_update_other d e k :
  ~ In k (keys e) -> get (update d e) k = get d k.
Proof.
  revert d. induction e as [|[k0 v0] e IH]; simpl; intros d Hn.
  - reflexivity.
  - unfold update in *. simpl. rewrite IH by tauto.
    apply get_set_other. intros ->. apply Hn. now left.
Qed.

Lemma get_update_some d e k :
  In k (keys e) -> exists v, In (k, v) e /\ get (update d e) k = Some v.
Proof.
  revert d. induction e as [|[k0 v0] e IH]; simpl; intros d; [tauto|].
  intros Hi. destruct (in_dec string_dec k (keys e)) as [He|He].
  - destruct (IH (set d k0 v0) He) as [v [Hv Hg]].
    exists v. split; [now right|exact Hg].
  - destruct Hi as [->|Hi]; [|contradiction].
    exists v0. split; [now left|].
    change (get (update (set d k v0) e) k = Some v0).
    rewrite get_update_other by exact He. apply get_set_same.
Qed.

Lemma wf_update d e : wf d -> wf (update d e).
Proof.
  revert d. induction e as [|[k0 v0] e IH]; simpl; intros d Hd.
  - exact Hd.
  - apply IH. now apply wf_set.
Qed.

End Facts.

End DictFacts.

(** ** One header row and its value row *)

Section Blocks.
Context {host : Host}.
Import DictFacts.

Lemma row_nonempty l : row l <> [].
Proof.
  unfold row. generalize (PyStr.rstrip PyStr.newline l) as s.
  induction s as [|c s IH]; simpl; [discriminate|].
  destruct (Ascii.eqb c PyStr.tab); [discriminate|].
  destruct (PyStr.split PyStr.tab s); [contradiction|discriminate].
Qed.

Lemma nth_error_skipn {A} (xs : list A) i x :
  nth_error xs i = Some x -> skipn i xs = x :: skipn (S i) xs.
Proof.
  revert i. induction xs as [|y xs IH]; intros [|i]; simpl; try discriminate.
  - now intros [= ->].
  - intros Hn. now rewrite (IH _ Hn).
Qed.

Lemma nth_error_none_skipn {A} (xs : list A) i :
  nth_error xs i = None -> skipn i xs = [].
Proof.
  intros Hn. apply nth_error_None in Hn. now apply skipn_all2.
Qed.

(** The loop of lines 52-56 makes the assignments of [paired], and ends
    with [IndexError] exactly when the header row is the longer one. *)
Lemma store_fields_eq keys : forall i vals metr,
  (i <= List.length vals)%nat ->
  store_fields i keys vals metr =
  (if (List.length keys + i <=? List.length vals)%nat
   then Ok tt else Raise IndexError)
    (Dict.update metr (paired keys (skipn i vals))).
Proof.
  induction keys as [|k keys IH]; intros i vals metr Hi.
  - cbn. destruct (Nat.leb_spec i (List.length vals)); [reflexivity|lia].
  - cbn [store_fields List.length].
    destruct (nth_error vals i) as [text|] eqn:Hn.
    + assert (Hlt : (i < List.length vals)%nat)
        by (apply nth_error_Some; congruence).
      rewrite (nth_error_skipn _ _ _ Hn).
      unfold bind, setitem, modify. rewrite IH by lia.
      replace (S (List.length keys) + i)%nat with (List.length keys + S i)%nat by lia.
      reflexivity.
    + rewrite (nth_error_none_skipn _ _ Hn).
      apply nth_error_None in Hn.
      destruct (Nat.leb_spec (S (List.length keys) + i) (List.length vals)); [lia|].
      reflexivity.
Qed.

Lemma store_block_eq f n l next st :
  store_block f n l next st =
  (if covers l next then Ok tt else Raise IndexError) (stored f n l next st).
Proof.
  unfold store_block, stored, announce, covers, block_record.
  unfold set_sample, emit, on_sample, gets, modify, ret, bind.
  destruct (Dict.mem (picard_dupMetrics_data st) n);
    cbn [picard_dupMetrics_data with_data with_event];
    rewrite get_set_same, store_fields_eq by (cbn; lia);
    cbn [skipn]; rewrite Nat.add_0_r;
    fold (row l); fold (row next);
    destruct (List.length (row l) <=? List.length (row next))%nat;
    unfold with_data, with_event;
    cbn [picard_dupMetrics_data general_stats_headers general_stats_data trace];
    rewrite set_set, <- ?app_assoc; reflexivity.
Qed.

(** Lines 46-61 in one equation: the block is stored over whatever was
    there; a value row that is too short ends the call with [IndexError],
    and a sample without reads is taken out again. *)
Lemma parse_block_eq f n l next st :
  parse_block f n l next st =
  if covers l next
  then Ok tt (if no_reads (block_record l next)
              then dropped n (stored f n l next st)
              else stored f n l next st)
  else Raise IndexError (stored f n l next st).
Proof.
  unfold parse_block, bind. rewrite store_block_eq.
  destruct (covers l next); [|reflexivity].
  unfold check_reads, bind, sample. simpl. rewrite get_set_same.
  destruct (no_reads (block_record l next)); reflexivity.
Qed.

(** *** The header rows a file gives *)

Lemma bind_ret_tt {S} (c : M S unit) st : (c ;; ret tt) st = c st.
Proof. unfold bind, ret. destruct (c st) as [[] s'|e s']; reflexivity. Qed.

Lemma list_length_ind {A} (P : list A -> Prop) :
  (forall ls, (forall ls', (List.length ls' < List.length ls)%nat -> P ls') -> P ls) ->
  forall ls, P ls.
Proof.
  intros Hstep ls.
  assert (H : forall n ls', (List.length ls' < n)%nat -> P ls').
  { induction n as [|n IH]; intros ls' Hlt; [lia|].
    apply Hstep. intros ls'' Hlt'. apply IH. lia. }
  apply (H (S (List.length ls))). lia.
Qed.

(** The loop over the lines parses the blocks of the file, in order. *)
Lemma scan_lines_blocks f ls : forall s_name st,
  scan_lines f s_name ls st = for_each (blocks f s_name ls) (run_block f) st.
Proof.
  induction ls as [ls IH] using list_length_ind. intros s_name st.
  destruct ls as [|l rest]; [reflexivity|].
  cbn [scan_lines blocks].
  destruct (next_name f s_name l) as [n|].
  - destruct (is_header l).
    + destruct rest as [|next rest'].
      * cbn [for_each run_block]. now rewrite bind_ret_tt.
      * cbn [for_each run_block]. unfold bind.
        destruct (parse_block f n l next st) as [[] st'|e st']; [|reflexivity].
        apply IH. simpl. lia.
    + apply IH. simpl. lia.
  - apply IH. simpl. lia.
Qed.

End Blocks.

(** ** The loop over the files *)

Section Scanning.
Context {host : Host}.
Import DictFacts.

Lemma with_reads_settle data b : with_reads data -> with_reads (settle data b).
Proof.
  destruct b as [[n l] next]. unfold with_reads, settle.
  rewrite !Forall_forall. intros Hd.
  destruct (no_reads (block_record l next)) eqn:Hr; intros x Hx.
  - apply Hd. eapply in_pop; eassumption.
  - apply in_set in Hx as [->|Hx]; [exact Hr|now apply Hd].
Qed.

Lemma wf_settle data b : Dict.wf data -> Dict.wf (settle data b).
Proof.
  destruct b as [[n l] next]. unfold settle.
  destruct (no_reads (block_record l next)); [apply wf_pop|apply wf_set].
Qed.

Lemma with_reads_fold bs : forall data,
  with_reads data -> with_reads (fold_left settle bs data).
Proof.
  induction bs as [|b bs IH]; simpl; intros data Hd; [exact Hd|].
  apply IH. now apply with_reads_settle.
Qed.

Lemma wf_fold bs : forall data,
  Dict.wf data -> Dict.wf (fold_left settle bs data).
Proof.
  induction bs as [|b bs IH]; simpl; intros data Hd; [exact Hd|].
  apply IH. now apply wf_settle.
Qed.

(** One block: either it settles in the collection, or its row is too
    short and the call ends. *)
Lemma run_block_cases f b st :
  if block_covers b
  then exists st', run_block f b st = Ok tt st' /\
         picard_dupMetrics_data st' = settle (picard_dupMetrics_data st) b
  else run_block f b st = Raise IndexError
         (stored f (fst (fst b)) (snd (fst b)) (snd b) st).
Proof.
  destruct b as [[n l] next]. unfold run_block, block_covers, settle.
  rewrite parse_block_eq. destruct (covers l next); [|reflexivity].
  eexists. split; [reflexivity|].
  destruct (no_reads (block_record l next)); simpl; [apply pop_set|reflexivity].
Qed.

Lemma run_blocks_cases f bs : forall st,
  if forallb block_covers bs
  then exists st', for_each bs (run_block f) st = Ok tt st' /\
         picard_dupMetrics_data st' = fold_left settle bs (picard_dupMetrics_data st)
  else exists st', for_each bs (run_block f) st = Raise IndexError st'.
Proof.
  induction bs as [|b bs IH]; intros st; cbn [forallb for_each fold_left].
  - exists st. split; reflexivity.
  - unfold bind. pose proof (run_block_cases f b st) as Hb.
    destruct (block_covers b); cbn [andb].
    + destruct Hb as [st1 [-> Hd1]]. specialize (IH st1).
      destruct (forallb block_covers bs).
      * destruct IH as [st' [-> Hd']]. exists st'. split; [reflexivity|].
        now rewrite Hd', Hd1.
      * exact IH.
    + rewrite Hb. eexists; reflexivity.
Qed.

(** Lines 64-67 find nothing to remove: a record that has reads has fields. *)
Lemma remove_empty_id st :
  with_reads (picard_dupMetrics_data st) -> remove_empty st = Ok tt st.
Proof.
  intros Hr. unfold remove_empty, bind, gets.
  assert (H : forall names, incl names (Dict.keys (picard_dupMetrics_data st)) ->
    for_each names (fun s_name =>
      metr <- sample s_name ;;
      if (Dict.len metr =? 0)%nat
      then pop_sample s_name ;; emit (log_debug (removing_message s_name))
      else ret tt) st = Ok tt st).
  { induction names as [|s names IH]; intros Hincl; [reflexivity|].
    cbn [for_each]. unfold bind at 1. unfold bind at 1. unfold sample.
    destruct (in_keys_get _ s (Hincl s (or_introl eq_refl))) as [metr Hg].
    rewrite Hg. apply get_in in Hg.
    unfold with_reads in Hr. rewrite Forall_forall in Hr.
    specialize (Hr _ Hg). simpl in Hr.
    destruct metr as [|kv metr]; [discriminate Hr|].
    cbn [Dict.len List.length Nat.eqb]. unfold ret at 1.
    apply IH. intros x Hx. apply Hincl. now right. }
  apply H. apply incl_refl.
Qed.

Lemma process_file_cases f st :
  with_reads (picard_dupMetrics_data st) ->
  if forallb block_covers (file_blocks f)
  then exists st', process_file f st = Ok tt st' /\
         picard_dupMetrics_data st' =
           fold_left settle (file_blocks f) (picard_dupMetrics_data st)
  else exists st', process_file f st = Raise IndexError st'.
Proof.
  intros Hr. unfold process_file, bind. rewrite scan_lines_blocks.
  fold (file_blocks f). pose proof (run_blocks_cases f (file_blocks f) st) as Hb.
  destruct (forallb block_covers (file_blocks f)).
  - destruct Hb as [st' [-> Hd]]. exists st'.
    rewrite remove_empty_id; [now split|].
    rewrite Hd. now apply with_reads_fold.
  - destruct Hb as [st' ->]. now exists st'.
Qed.

(** The loop over the files: it ends with [IndexError] at the first value
    row that is too short, and otherwise leaves the collection that the
    blocks settle, one after the other. *)
Lemma process_files_cases files : forall st,
  with_reads (picard_dupMetrics_data st) ->
  if forallb block_covers (all_blocks files)
  then exists st', for_each files process_file st = Ok tt st' /\
         picard_dupMetrics_data st' =
           fold_left settle (all_blocks files) (picard_dupMetrics_data st)
  else exists st', for_each files process_file st = Raise IndexError st'.
Proof.
  induction files as [|f files IH]; intros st Hr;
    cbn [all_blocks flat_map forallb for_each fold_left].
  - exists st. split; reflexivity.
  - rewrite forallb_app, fold_left_app. unfold bind.
    pose proof (process_file_cases f st Hr) as Hf.
    destruct (forallb block_covers (file_blocks f)); cbn [andb].
    + destruct Hf as [st1 [-> Hd1]].
      assert (Hr1 : with_reads (picard_dupMetrics_data st1))
        by (rewrite Hd1; now apply with_reads_fold).
      specialize (IH st1 Hr1). fold (all_blocks files).
      destruct (forallb block_covers (all_blocks files)).
      * destruct IH as [st' [-> Hd']]. exists st'. split; [reflexivity|].
        now rewrite Hd', Hd1.
      * exact IH.
    + destruct Hf as [st' ->]. now exists st'.
Qed.

End Scanning.

(** ** The derived metrics *)

Section Derived.
Import DictFacts.

Ltac known :=
  repeat match goal with
         | H : Dict.get ?m ?k = _ |- context [Dict.get ?m ?k] => rewrite H
         end.

Ltac look :=
  repeat (progress (rewrite ?get_set;
                    cbn [String.eqb Ascii.eqb Bool.eqb andb py_double py_sub];
                    known)).

Ltac absent K H :=
  eexists; eexists; split; [reflexivity|];
  left; exists K; split; [cbn; tauto|]; split; [exact H|reflexivity].

Ltac textual K H :=
  eexists; eexists; split; [reflexivity|];
  right; eexists K, _; split; [cbn; tauto|]; split; [exact H|reflexivity].

Ltac read K :=
  look;
  let H := fresh "H" in
  destruct (Dict.get _ K) as [[?|?]|] eqn:H;
  look;
  [ | try solve [textual K H] | try solve [absent K H] ].

Ltac run_derive :=
  unfold derive_metrics, bind, getitem, setitem, modify, lift, ret, raise.

(** Lines 98-104 run to their end exactly on the records that have the five
    operands as numbers and [UNMAPPED_READS] as anything; on any other
    record they raise [KeyError] for a field that is not there or
    [TypeError] for an operand that is text. *)
Lemma derive_metrics_cases metr :
  if derivable metr
  then exists metr', derive_metrics metr = Ok tt metr'
  else exists e metr', derive_metrics metr = Raise e metr' /\ failure metr e.
Proof.
  unfold derivable, Dict.mem. cbn [forallb arithmetic_fields]. unfold is_number.
  run_derive.
  read "READ_PAIR_DUPLICATES".
  read "READ_PAIRS_EXAMINED".
  read "UNPAIRED_READS_EXAMINED".
  2: { (* both operands of the difference are read before it is taken *)
       destruct (Dict.get metr "UNPAIRED_READ_DUPLICATES") eqn:Hd;
         [textual "UNPAIRED_READS_EXAMINED" H1
         |absent "UNPAIRED_READ_DUPLICATES" Hd]. }
  read "UNPAIRED_READ_DUPLICATES".
  read "READ_PAIR_OPTICAL_DUPLICATES".
  look.
  destruct (Dict.get metr "UNMAPPED_READS") eqn:Hu.
  - eexists; reflexivity.
  - absent "UNMAPPED_READS" Hu.
Qed.

Lemma frames_bind {A B} (c : M record A) (k : A -> M record B) :
  frames c -> (forall a, frames (k a)) -> frames (bind c k).
Proof.
  intros Hc Hk metr x Hx. unfold bind.
  specialize (Hc metr x Hx). destruct (c metr) as [a s'|e s']; simpl in Hc.
  - rewrite <- Hc. now apply Hk.
  - exact Hc.
Qed.

Lemma frames_getitem k : frames (getitem k).
Proof.
  intros metr x _. unfold getitem. destruct (Dict.get metr k); reflexivity.
Qed.

Lemma frames_lift {A} (r : exn + A) : frames (lift r).
Proof. intros metr x _. destruct r; reflexivity. Qed.

Lemma frames_setitem k v : In k derived_names -> frames (setitem k v).
Proof.
  intros Hk metr x Hx. unfold setitem, modify. simpl.
  apply get_set_other. intros ->. contradiction.
Qed.

Lemma derive_metrics_frames : frames derive_metrics.
Proof.
  unfold derive_metrics.
  repeat first
    [ apply frames_getitem
    | apply frames_lift
    | apply frames_setitem; cbn; tauto
    | apply frames_bind; [|intros ?] ].
Qed.

Lemma no_reads_frame (metr metr' : record) :
  (forall k, ~ In k derived_names -> Dict.get metr' k = Dict.get metr k) ->
  no_reads metr' = no_reads metr.
Proof.
  intros Hf. unfold no_reads, get_is_zero.
  rewrite !Hf; [reflexivity| |];
    cbn; intros H; repeat (destruct H as [H|H]; [discriminate H|]); exact H.
Qed.

Lemma framed_refl data : framed data data.
Proof. induction data; constructor; auto. Qed.

Lemma derive_all_framed data : framed data (state_of (derive_all data)).
Proof.
  induction data as [|[s metr] data IH]; cbn [derive_all state_of].
  - constructor.
  - pose proof (derive_metrics_frames metr) as Hm.
    destruct (derive_metrics metr) as [[] metr'|e metr']; cbn [state_of] in Hm.
    + destruct (derive_all data) as [[] data'|e data']; cbn [state_of] in *;
        (constructor; [split; [reflexivity|exact Hm]|exact IH]).
    + constructor; [split; [reflexivity|exact Hm]|apply framed_refl].
Qed.

Lemma framed_keys data data' : framed data data' -> Dict.keys data' = Dict.keys data.
Proof.
  induction 1 as [|kv kv' data data' [Hk _] _ IH]; [reflexivity|].
  unfold Dict.keys in *. simpl. f_equal; [exact Hk|exact IH].
Qed.

Lemma framed_with_reads data data' :
  framed data data' -> with_reads data -> with_reads data'.
Proof.
  unfold with_reads.
  induction 1 as [|kv kv' data data' [_ Hf] _ IH]; intros Hr; [constructor|].
  inversion Hr as [|? ? Hkv Hrest]; subst.
  constructor; [|now apply IH].
  exact (eq_trans (no_reads_frame _ _ Hf) Hkv).
Qed.

Lemma framed_get data data' s metr :
  framed data data' -> Dict.get data s = Some metr ->
  exists metr', Dict.get data' s = Some metr' /\
    forall k, ~ In k derived_names -> Dict.get metr' k = Dict.get metr k.
Proof.
  induction 1 as [|[s0 m0] [s0' m0'] data data' [Hk Hf] _ IH]; simpl in *;
    [discriminate|].
  subst s0'. destruct (String.eqb s s0).
  - intros [= <-]. now exists m0'.
  - exact IH.
Qed.

(** The loop over the records: it runs to its end when every record is
    derivable, and stops with the exception of the first one that is not. *)
Lemma derive_all_cases data :
  if forallb (fun kv => derivable (snd kv)) data
  then exists data', derive_all data = Ok tt data'
  else exists e data', derive_all data = Raise e data' /\
         exists s metr, In (s, metr) data /\ failure metr e.
Proof.
  induction data as [|[s metr] data IH]; cbn [forallb derive_all snd].
  - now exists [].
  - pose proof (derive_metrics_cases metr) as Hm.
    destruct (derivable metr); cbn [andb].
    + destruct Hm as [metr' ->].
      destruct (forallb (fun kv => derivable (snd kv)) data).
      * destruct IH as [data' ->]. eexists; reflexivity.
      * destruct IH as [e [data' [-> [s' [m' [Hin Hf]]]]]].
        eexists; eexists; split; [reflexivity|].
        exists s', m'. split; [now right|exact Hf].
    + destruct Hm as [e [metr' [-> Hf]]].
      eexists; eexists; split; [reflexivity|].
      exists s, metr. split; [now left|exact Hf].
Qed.

End Derived.

(** ** Stepping through a computation *)

Section Steps.
Context {S A B : Type}.

Lemma bind_ok (c : M S A) (k : A -> M S B) st a st' :
  c st = Ok a st' -> bind c k st = k a st'.
Proof. unfold bind. now intros ->. Qed.

Lemma bind_raise (c : M S A) (k : A -> M S B) st e st' :
  c st = Raise e st' -> bind c k st = Raise e st'.
Proof. unfold bind. now intros ->. Qed.

Lemma bind_modify (f : S -> S) (k : unit -> M S B) st :
  bind (modify f) k st = k tt (f st).
Proof. reflexivity. Qed.

Lemma bind_gets (f : S -> A) (k : A -> M S B) st :
  bind (gets f) k st = k (f st) st.
Proof. reflexivity. Qed.

Lemma bind_assoc {C} (c : M S A) (k : A -> M S B) (h : B -> M S C) st :
  bind (bind c k) h st = bind c (fun a => bind (k a) h) st.
Proof. unfold bind. destruct (c st); reflexivity. Qed.

End Steps.

(** ** The whole call *)

Section Whole.
Context {host : Host}.
Import DictFacts.

(** Lines 88-91 never raise, and touch nothing but the general statistics. *)
Lemma add_general_stats_ok st :
  exists st', add_general_stats st = Ok tt st' /\
    picard_dupMetrics_data st' = picard_dupMetrics_data st /\
    trace st' = trace st.
Proof.
  unfold add_general_stats, bind at 1, gets at 1.
  assert (H : forall names st1,
    incl names (Dict.keys (picard_dupMetrics_data st1)) ->
    exists st', for_each names (fun s_name =>
        known <- gets (fun st => Dict.mem (general_stats_data st) s_name) ;;
        (if known : bool then ret tt
         else modify (with_stats (fun g => Dict.set g s_name []))) ;;
        g <- stats_of s_name ;;
        metr <- sample s_name ;;
        modify (with_stats (fun gs => Dict.set gs s_name (Dict.update g metr)))) st1
      = Ok tt st' /\
      picard_dupMetrics_data st' = picard_dupMetrics_data st1 /\
      trace st' = trace st1).
  { induction names as [|s names IH]; intros st1 Hincl.
    - exists st1. now split.
    - cbn [for_each]. unfold bind at 1.
      destruct (in_keys_get _ s (Hincl s (or_introl eq_refl))) as [metr Hg].
      assert (Hstep : exists st2,
        (known <- gets (fun st => Dict.mem (general_stats_data st) s) ;;
         (if known : bool then ret tt
          else modify (with_stats (fun g => Dict.set g s []))) ;;
         g <- stats_of s ;;
         metr <- sample s ;;
         modify (with_stats (fun gs => Dict.set gs s (Dict.update g metr)))) st1
        = Ok tt st2 /\
        picard_dupMetrics_data st2 = picard_dupMetrics_data st1 /\
        trace st2 = trace st1).
      { unfold bind, gets, stats_of, sample, modify, ret, Dict.mem.
        destruct (Dict.get (general_stats_data st1) s) as [g|] eqn:Hs.
        - cbn. rewrite Hs. cbn. rewrite Hg.
          eexists. split; [reflexivity|]. now split.
        - cbn. rewrite get_set_same. cbn. rewrite Hg.
          eexists. split; [reflexivity|]. now split. }
      destruct Hstep as [st2 [-> [Hd2 Ht2]]].
      destruct (IH st2) as [st' [Hrun [Hd' Ht']]].
      { rewrite Hd2. intros x Hx. apply Hincl. now right. }
      exists st'. split; [exact Hrun|]. split; congruence. }
  apply H. apply incl_refl.
Qed.

(** What a call comes to once the loop over the files has run to its end:
    the exclusion filter is applied and the derived metrics are computed
    record by record; the call returns the number of records when that runs
    to its end, and ends with the exception it raises otherwise, the
    collection written to the data file but no section added. *)
Lemma parse_reports_after_scan p st st1 :
  for_each (find_log_files (log_key p)) process_file
    (with_data (fun _ => []) st) = Ok tt st1 ->
  let raw := ignore_samples (picard_dupMetrics_data st1) in
  match derive_all raw with
  | Ok _ data' =>
      exists st', parse_reports p st = Ok (Dict.len data') st' /\
        picard_dupMetrics_data st' = data' /\
        trace st' = trace st1 ++ reported p raw data'
  | Raise e data' =>
      exists st', parse_reports p st = Raise e st' /\
        picard_dupMetrics_data st' = data' /\
        trace st' = trace st1 ++ [write_data_file raw (data_filename p)]
  end.
Proof.
  intros Hs raw. unfold parse_reports. rewrite bind_modify.
  rewrite (bind_ok _ _ _ _ _ Hs). cbv beta.
  rewrite bind_modify. cbv beta. rewrite bind_gets. cbv beta.
  assert (Hraw : picard_dupMetrics_data (with_data ignore_samples st1) = raw)
    by reflexivity.
  assert (Htr : trace (with_data ignore_samples st1) = trace st1) by reflexivity.
  set (st2 := with_data ignore_samples st1) in *. rewrite Hraw.
  destruct raw as [|kv raw'] eqn:Eraw.
  - cbn [Dict.len List.length Nat.ltb Nat.leb derive_all reported].
    exists st2. unfold bind, ret, gets. rewrite Hraw, app_nil_r.
    split; [reflexivity|]. now split.
  - rewrite <- Eraw in *.
    replace (0 <? Dict.len raw)%nat with true by (rewrite Eraw; reflexivity).
    unfold report. rewrite bind_assoc, bind_gets. cbv beta.
    rewrite bind_assoc. unfold emit. rewrite bind_modify. cbv beta.
    rewrite bind_assoc, bind_modify. cbv beta. rewrite bind_assoc.
    match goal with
    | |- context [bind add_general_stats _ ?s] =>
        destruct (add_general_stats_ok s) as [st3 [Hgs [Hd3 Ht3]]]
    end.
    cbn [picard_dupMetrics_data trace with_data with_headers with_event] in Hd3, Ht3.
    rewrite Hraw in Hd3, Ht3. rewrite Htr in Ht3.
    destruct (derive_all raw) as [[] data'|e data'] eqn:Hder.
    + eexists. split; [|split].
      * rewrite (bind_ok _ _ _ _ _ Hgs). cbv beta. rewrite bind_assoc.
        erewrite bind_ok
          by (unfold derive_samples; rewrite Hd3, Hder; reflexivity).
        cbv beta. reflexivity.
      * reflexivity.
      * cbn [picard_dupMetrics_data trace with_data with_event].
        rewrite Ht3, Eraw, <- app_assoc. reflexivity.
    + eexists. split; [|split].
      * rewrite (bind_ok _ _ _ _ _ Hgs). cbv beta. rewrite bind_assoc.
        apply bind_raise. unfold derive_samples. rewrite Hd3, Hder. reflexivity.
      * reflexivity.
      * cbn [trace with_data]. exact Ht3.
Qed.

(** What a call of [parse_reports] comes to.  A value row shorter than its
    header row ends the call with [IndexError].  Without such a row, the
    blocks of the files settle into a collection, the exclusion filter is
    applied, and the derived metrics are computed record by record. *)
Lemma parse_reports_cases p st :
  let files := find_log_files (log_key p) in
  if forallb block_covers (all_blocks files)
  then match derive_all (collected files) with
       | Ok _ data' =>
           exists st', parse_reports p st = Ok (Dict.len data') st' /\
             picard_dupMetrics_data st' = data' /\
             (data' <> [] -> exists tr,
                trace st' = tr ++ [add_section (section_name p) (section_anchor p)
                                     section_description data' plot_keys (pconfig p)])
       | Raise e data' =>
           exists st', parse_reports p st = Raise e st' /\
             picard_dupMetrics_data st' = data'
       end
  else exists st', parse_reports p st = Raise IndexError st'.
Proof.
  cbv zeta.
  pose proof (process_files_cases (find_log_files (log_key p))
                (with_data (fun _ => []) st)) as Hscan.
  cbn [picard_dupMetrics_data with_data] in Hscan.
  specialize (Hscan (Forall_nil _)).
  destruct (forallb block_covers (all_blocks (find_log_files (log_key p)))).
  2: { destruct Hscan as [st' Hs]. exists st'.
       unfold parse_reports. rewrite bind_modify. now apply bind_raise. }
  destruct Hscan as [st1 [Hs Hd1]].
  pose proof (parse_reports_after_scan p st st1 Hs) as Hafter. cbv zeta in Hafter.
  rewrite Hd1 in Hafter. fold (collected (find_log_files (log_key p))) in Hafter.
  destruct (derive_all (collected (find_log_files (log_key p))))
    as [[] data'|e data'] eqn:Hder.
  - destruct Hafter as [st' [Hrun [Hd Ht]]]. exists st'.
    split; [exact Hrun|]. split; [exact Hd|].
    intros Hne. unfold reported in Ht.
    destruct (collected (find_log_files (log_key p))) as [|kv raw'].
    + cbn in Hder. injection Hder as <-. contradiction.
    + exists (trace st1 ++ [write_data_file (kv :: raw') (data_filename p)]).
      rewrite Ht, <- app_assoc. reflexivity.
  - destruct Hafter as [st' [Hrun [Hd _]]]. now exists st'.
Qed.

End Whole.

(** * The claims *)

(** ** Derived metrics of a record *)

Section DerivedClaims.
Import DictFacts.

(** Lines 98-104 on one record.  On a record whose six raw fields
    READ_PAIR_DUPLICATES, READ_PAIRS_EXAMINED, UNPAIRED_READS_EXAMINED,
    UNPAIRED_READ_DUPLICATES, READ_PAIR_OPTICAL_DUPLICATES and
    UNMAPPED_READS are present and numeric, the body of the loop runs to
    its end and makes exactly the seven assignments of the specification's
    table, in its order: afterwards each derived field holds the value of
    its formula, and every other field is as it was. *)
Lemma derive_metrics_on_numbers (metr : record) (rpd rpe ure urd rpod unm : float) :
  Dict.get metr "READ_PAIR_DUPLICATES" = Some (VFloat rpd) ->
  Dict.get metr "READ_PAIRS_EXAMINED" = Some (VFloat rpe) ->
  Dict.get metr "UNPAIRED_READS_EXAMINED" = Some (VFloat ure) ->
  Dict.get metr "UNPAIRED_READ_DUPLICATES" = Some (VFloat urd) ->
  Dict.get metr "READ_PAIR_OPTICAL_DUPLICATES" = Some (VFloat rpod) ->
  Dict.get metr "UNMAPPED_READS" = Some (VFloat unm) ->
  let derived := spec_derived_fields rpd rpe ure urd rpod unm in
  derive_metrics metr = Ok tt (Dict.update metr derived) /\
  (forall k v, In (k, v) derived -> Dict.get (Dict.update metr derived) k = Some v) /\
  (forall k, ~ In k (Dict.keys derived) ->
     Dict.get (Dict.update metr derived) k = Dict.get metr k).
Proof.
  intros Hrpd Hrpe Hure Hurd Hrpod Hunm derived. split; [|split].
  - unfold derive_metrics, bind, getitem, setitem, modify, lift, ret, raise.
    repeat (progress (rewrite ?get_set;
                      cbn [String.eqb Ascii.eqb Bool.eqb andb py_double py_sub];
                      rewrite ?Hrpd, ?Hrpe, ?Hure, ?Hurd, ?Hrpod, ?Hunm)).
    reflexivity.
  - intros k v Hin. unfold derived, spec_derived_fields in *. cbv zeta in *.
    cbn [In] in Hin.
    repeat (destruct Hin as [Hin|Hin];
            [injection Hin as <- <-; unfold Dict.update; cbn [fold_left fst snd];
             rewrite ?get_set; reflexivity|]).
    contradiction.
  - intros k Hk. now apply get_update_other.
Qed.

End DerivedClaims.

(** ** Header rows and value rows *)

Section RowClaims.
Context {host : Host}.
Import DictFacts.

Lemma in_keys_combine {V} (ks : list string) (vs : list V) k :
  In k (Dict.keys (combine ks vs)) -> In k ks.
Proof.
  unfold Dict.keys. rewrite in_map_iff. intros [[k' v] [<- Hin]].
  eapply in_combine_l; eassumption.
Qed.

Lemma keys_combine {V} (ks : list string) (vs : list V) :
  List.length ks <= List.length vs -> Dict.keys (combine ks vs) = ks.
Proof.
  revert vs. induction ks as [|k ks IH]; intros vs Hlen; [reflexivity|].
  destruct vs as [|v vs]; simpl in Hlen; [lia|].
  unfold Dict.keys in *. simpl. f_equal. apply IH. lia.
Qed.

(** The assignments of a header row and a value row, made one after the
    other, leave each field name with the value at its last position. *)
Lemma get_update_combine_at {V} (ks : list string) : forall (vs : list V) d i k v,
  nth_error ks i = Some k -> nth_error vs i = Some v ->
  (forall j, i < j -> nth_error ks j <> Some k) ->
  Dict.get (Dict.update d (combine ks vs)) k = Some v.
Proof.
  induction ks as [|k0 ks IH]; intros vs d i k v Hk Hv Hlast.
  - destruct i; discriminate.
  - destruct vs as [|v0 vs]; [destruct i; discriminate|].
    destruct i as [|i]; simpl in Hk, Hv.
    + injection Hk as ->. injection Hv as ->.
      change (Dict.get (Dict.update (Dict.set d k v) (combine ks vs)) k = Some v).
      rewrite get_update_other; [apply get_set_same|].
      intros Hin. apply in_keys_combine in Hin.
      apply In_nth_error in Hin as [j Hj].
      apply (Hlast (S j)); [lia|exact Hj].
    + change (Dict.get (Dict.update (Dict.set d k0 v0) (combine ks vs)) k = Some v).
      apply (IH vs _ i); [exact Hk|exact Hv|].
      intros j Hj. apply (Hlast (S j)). lia.
Qed.

Lemma keys_block_record l next k :
  In k (Dict.keys (block_record l next)) -> In k (row l).
Proof.
  unfold block_record, paired. intros Hin.
  apply keys_update_incl in Hin as [[]|Hin].
  eapply in_keys_combine; eassumption.
Qed.

Lemma stored_get f n l next st :
  Dict.get (picard_dupMetrics_data (stored f n l next st)) n =
  Some (block_record l next).
Proof. simpl. apply get_set_same. Qed.

(** C8, amended.  When the header row and the value row split on the tab
    into lists of equal length, the pair is stored without an exception,
    and the record stored under the sample name has every header field
    name as a key and no other key.  A name is bound to the value at the
    last position at which the header row holds it - the number [float]
    gives for that value, or its text when [float] raises [ValueError] -
    because a later assignment to a key replaces the earlier one; so each
    name is bound to the value at its own position exactly when the
    header row repeats no name, and a value under an earlier occurrence of
    a repeated name is not in the record. *)
Theorem well_formed_pair_record (f : log_file) (s_name l next : string) (st : module_state) :
  List.length (row l) = List.length (row next) ->
  exists st' metr,
    store_block f s_name l next st = Ok tt st' /\
    Dict.get (picard_dupMetrics_data st') s_name = Some metr /\
    (forall k, In k (row l) -> In k (Dict.keys metr)) /\
    (forall i k text,
       nth_error (row l) i = Some k ->
       nth_error (row next) i = Some text ->
       (forall j, i < j -> nth_error (row l) j <> Some k) ->
       Dict.get metr k =
         Some (match py_float text with
               | Some x => VFloat x
               | None => VStr text
               end)) /\
    (NoDup (row l) ->
     forall i k text,
       nth_error (row l) i = Some k ->
       nth_error (row next) i = Some text ->
       Dict.get metr k =
         Some (match py_float text with
               | Some x => VFloat x
               | None => VStr text
               end)) /\
    (forall k, In k (Dict.keys metr) -> In k (row l)).
Proof.
  intros Hlen. exists (stored f s_name l next st), (block_record l next).
  assert (Hpos : forall i k text,
       nth_error (row l) i = Some k ->
       nth_error (row next) i = Some text ->
       (forall j, i < j -> nth_error (row l) j <> Some k) ->
       Dict.get (block_record l next) k = Some (coerce text)).
  { intros i k text Hk Ht Hlast. unfold block_record, paired.
    apply (get_update_combine_at _ _ _ i); [exact Hk| |exact Hlast].
    rewrite nth_error_map, Ht. reflexivity. }
  split; [|split; [|split; [|split; [|split]]]].
  - rewrite store_block_eq. unfold covers.
    rewrite Hlen, Nat.leb_refl. reflexivity.
  - apply stored_get.
  - intros k Hk. unfold block_record, paired.
    assert (Hin : In k (Dict.keys (combine (row l) (map coerce (row next))))).
    { rewrite keys_combine; [exact Hk|]. rewrite length_map. lia. }
    destruct (get_update_some [] _ k Hin) as [v [_ Hg]].
    apply get_in in Hg. apply (in_map fst) in Hg. exact Hg.
  - exact Hpos.
  - intros Hnd i k text Hk Ht. apply (Hpos i k text Hk Ht).
    intros j Hj Hkj.
    assert (Hi : i < List.length (row l)) by (apply nth_error_Some; congruence).
    pose proof (proj1 (NoDup_nth_error (row l)) Hnd i j Hi) as Heq.
    rewrite Hk, Hkj in Heq. specialize (Heq eq_refl). lia.
  - apply keys_block_record.
Qed.

(** C10.  When a header/value pair is parsed under a name that already has
    a record, the record found under that name after lines 46-56 is the one
    that the fields of this pair give when they are stored over an empty
    record: its keys are header field names of this pair, and what the
    earlier record held has no influence - the call goes on exactly as if
    the earlier record had been empty.  After lines 57-61 the name has that
    record, or has none when it has no reads. *)
Theorem reparsed_sample_is_replaced (f : log_file) (s_name l next : string)
    (st : module_state) (old : record) :
  Dict.get (picard_dupMetrics_data st) s_name = Some old ->
  let metr := state_of (store_fields 0 (row l) (row next) []) in
  Dict.get (picard_dupMetrics_data (state_of (store_block f s_name l next st))) s_name
    = Some metr /\
  (forall k, In k (Dict.keys metr) -> In k (row l)) /\
  parse_block f s_name l next st =
    parse_block f s_name l next (with_data (fun d => Dict.set d s_name []) st) /\
  (Dict.wf (picard_dupMetrics_data st) ->
   Dict.get (picard_dupMetrics_data (state_of (parse_block f s_name l next st))) s_name
     = if covers l next && no_reads metr then None else Some metr).
Proof.
  intros Hold metr.
  assert (Hmetr : metr = block_record l next).
  { unfold metr. rewrite store_fields_eq by (simpl; lia).
    destruct (List.length (row l) + 0 <=? List.length (row next))%nat; reflexivity. }
  rewrite Hmetr. split; [|split; [|split]].
  - rewrite store_block_eq. destruct (covers l next); apply stored_get.
  - apply keys_block_record.
  - rewrite !parse_block_eq.
    assert (Hst : stored f s_name l next
                    (with_data (fun d => Dict.set d s_name []) st)
                  = stored f s_name l next st).
    { unfold stored, announce, Dict.mem.
      cbn [picard_dupMetrics_data general_stats_headers general_stats_data
           trace with_data].
      rewrite set_set, get_set_same, Hold. reflexivity. }
    rewrite Hst. reflexivity.
  - intros Hwf. rewrite parse_block_eq.
    destruct (covers l next); cbn [andb].
    + destruct (no_reads (block_record l next)); cbn [state_of].
      * cbn [dropped picard_dupMetrics_data with_event with_data stored].
        rewrite pop_set. now apply get_pop_same.
      * apply stored_get.
    + apply stored_get.
Qed.

End RowClaims.

(** ** The pending sample name *)

Section ScanClaims.
Context {host : Host}.
Import DictFacts.

(** With a pending name, lines that neither start a block nor hold the
    header marker are passed over and the name stays. *)
Lemma scan_lines_pass f d pre rest st :
  Forall (fun l => is_block_start l = false /\ is_header l = false) pre ->
  scan_lines f (Some d) (pre ++ rest) st = scan_lines f (Some d) rest st.
Proof.
  induction 1 as [|l pre [Hb Hh] _ IH]; [reflexivity|].
  cbn [app scan_lines]. unfold next_name. rewrite Hb, Hh. exact IH.
Qed.

(** Without a pending name, lines that do not start a block are passed
    over, the header marker or not, and there is still no name. *)
Lemma scan_lines_idle f mid rest st :
  Forall (fun l => is_block_start l = false) mid ->
  scan_lines f None (mid ++ rest) st = scan_lines f None rest st.
Proof.
  induction 1 as [|l mid Hb _ IH]; [reflexivity|].
  cbn [app scan_lines]. unfold next_name. rewrite Hb. exact IH.
Qed.

Lemma blocks_pass f d pre rest :
  Forall (fun l => is_block_start l = false /\ is_header l = false) pre ->
  blocks f (Some d) (pre ++ rest) = blocks f (Some d) rest.
Proof.
  induction 1 as [|l pre [Hb Hh] _ IH]; [reflexivity|].
  cbn [app blocks]. unfold next_name. rewrite Hb, Hh. exact IH.
Qed.

Lemma blocks_idle f mid rest :
  Forall (fun l => is_block_start l = false) mid ->
  blocks f None (mid ++ rest) = blocks f None rest.
Proof.
  induction 1 as [|l mid Hb _ IH]; [reflexivity|].
  cbn [app blocks]. unfold next_name. rewrite Hb. exact IH.
Qed.

(** C9.  When the first line of a file that holds the header marker comes
    before any block-start line, the loop parses it as a header row under
    the file's own sample name - the pending name starts as [f['s_name']],
    not as [None] - with the next line ([''] at the end of the file) taken
    as the value row and away from the loop, and goes on after the value
    row without a pending name.  The record of the pair is stored under
    the file's name: its keys are field names of that header row, and a
    name is bound to what [float] makes of the value at its position in
    the next line - the text itself on [ValueError] - the last position
    counting for a name that the row repeats.  When the next line has a
    value for every header field, every header field name is a key, and a
    record with reads is still under the file's name after lines 57-61. *)
Theorem header_before_block_start_is_parsed (f : log_file) (pre : list string)
    (hdr : string) (rest : list string) (st : module_state) :
  f_lines f = pre ++ hdr :: rest ->
  Forall (fun l => is_block_start l = false /\ is_header l = false) pre ->
  is_header hdr = true ->
  is_block_start hdr = false ->
  let next := hd EmptyString rest in
  process_file f st =
    (store_block f (f_s_name f) hdr next ;;
     check_reads (f_s_name f) ;;
     scan_lines f None (tl rest) ;;
     remove_empty) st /\
  exists metr,
    Dict.get (picard_dupMetrics_data (state_of (store_block f (f_s_name f) hdr next st)))
             (f_s_name f) = Some metr /\
    (forall k, In k (Dict.keys metr) -> In k (row hdr)) /\
    (forall i k text,
       nth_error (row hdr) i = Some k ->
       nth_error (row next) i = Some text ->
       (forall j, i < j -> nth_error (row hdr) j <> Some k) ->
       Dict.get metr k =
         Some (match py_float text with
               | Some x => VFloat x
               | None => VStr text
               end)) /\
    (List.length (row hdr) <= List.length (row next) ->
     (forall k, In k (row hdr) -> In k (Dict.keys metr)) /\
     (no_reads metr = false ->
      exists st1,
        parse_block f (f_s_name f) hdr next st = Ok tt st1 /\
        Dict.get (picard_dupMetrics_data st1) (f_s_name f) = Some metr)).
Proof.
  intros Hlines Hpre Hh Hb next. split.
  - unfold process_file. rewrite Hlines.
    unfold bind at 1. rewrite (scan_lines_pass _ _ _ _ _ Hpre).
    cbn [scan_lines]. unfold next_name. rewrite Hb, Hh.
    destruct rest as [|nx rest']; subst next; cbn [hd tl].
    + unfold parse_block, bind, scan_lines, ret.
      destruct (store_block f (f_s_name f) hdr EmptyString st) as [[] s1|e s1];
        [|reflexivity].
      destruct (check_reads (f_s_name f) s1) as [[] s2|e s2]; reflexivity.
    + unfold parse_block, bind.
      destruct (store_block f (f_s_name f) hdr nx st) as [[] s1|e s1];
        [|reflexivity].
      destruct (check_reads (f_s_name f) s1) as [[] s2|e s2]; reflexivity.
  - exists (block_record hdr next). split; [|split; [|split]].
    + rewrite store_block_eq. destruct (covers hdr next); apply stored_get.
    + apply keys_block_record.
    + intros i k text Hk Ht Hlast. unfold block_record, paired.
      apply (get_update_combine_at _ _ _ i); [exact Hk| |exact Hlast].
      rewrite nth_error_map, Ht. reflexivity.
    + intros Hlen. split.
      * intros k Hk. unfold block_record, paired.
        assert (Hin : In k (Dict.keys (combine (row hdr) (map coerce (row next))))).
        { rewrite keys_combine; [exact Hk|]. rewrite length_map. lia. }
        destruct (get_update_some [] _ k Hin) as [v [_ Hg]].
        apply get_in in Hg. apply (in_map fst) in Hg. exact Hg.
      * intros Hreads. exists (stored f (f_s_name f) hdr next st).
        rewrite parse_block_eq. unfold covers.
        destruct (Nat.leb_spec (List.length (row hdr)) (List.length (row next)));
          [|lia].
        rewrite Hreads. split; [reflexivity|apply stored_get].
Qed.

End ScanClaims.

(** ** The collection that a call leaves *)

Section CollectionFacts.
Context {host : Host}.
Import DictFacts.

Lemma keys_ignore_samples data :
  Dict.keys (ignore_samples data) = filter (fun k => negb (ignored k)) (Dict.keys data).
Proof.
  unfold ignore_samples, Dict.keys.
  induction data as [|[k v] data IH]; simpl; [reflexivity|].
  destruct (negb (ignored k)); simpl; now rewrite IH.
Qed.

Lemma wf_ignore_samples data : Dict.wf data -> Dict.wf (ignore_samples data).
Proof.
  unfold Dict.wf. rewrite keys_ignore_samples. apply NoDup_filter.
Qed.

Lemma with_reads_ignore_samples data :
  with_reads data -> with_reads (ignore_samples data).
Proof.
  unfold with_reads, ignore_samples. rewrite !Forall_forall.
  intros Hd x Hx. apply filter_In in Hx as [Hx _]. now apply Hd.
Qed.

Lemma get_ignore_samples data s :
  Dict.get (ignore_samples data) s = if ignored s then None else Dict.get data s.
Proof.
  unfold ignore_samples.
  induction data as [|[k v] data IH]; simpl.
  - now destruct (ignored s).
  - destruct (String.eqb_spec s k) as [->|Hk].
    + destruct (ignored k); simpl; [exact IH|]. now rewrite String.eqb_refl.
    + destruct (ignored k); simpl; [exact IH|].
      destruct (String.eqb_spec s k); [congruence|exact IH].
Qed.

Lemma wf_collected files : Dict.wf (collected files).
Proof.
  apply wf_ignore_samples, wf_fold. constructor.
Qed.

Lemma with_reads_collected files : with_reads (collected files).
Proof.
  apply with_reads_ignore_samples, with_reads_fold. constructor.
Qed.

Lemma derive_all_ok data data' :
  derive_all data = Ok tt data' -> derived_from data data'.
Proof.
  revert data'. induction data as [|[s metr] data IH]; intros data'; cbn [derive_all].
  - intros [= <-]. constructor.
  - destruct (derive_metrics metr) as [[] metr'|e metr'] eqn:Hm; [|discriminate].
    destruct (derive_all data) as [[] data''|e data'']; [|discriminate].
    intros [= <-]. constructor; [now split|now apply IH].
Qed.

Lemma derived_from_get data data' s metr' :
  derived_from data data' -> Dict.get data' s = Some metr' ->
  exists metr, Dict.get data s = Some metr /\ derive_metrics metr = Ok tt metr'.
Proof.
  induction 1 as [|[s0 m0] [s0' m0'] data data' [Hk Hm] _ IH]; simpl in *;
    [discriminate|].
  subst s0'. destruct (String.eqb s s0).
  - intros [= <-]. now exists m0.
  - exact IH.
Qed.

(** Last write wins: the record that the blocks leave for a name is the one
    of the last block parsed under that name, and that block has reads. *)
Lemma settle_last bs : forall data s metr,
  Dict.wf data ->
  Dict.get (fold_left settle bs data) s = Some metr ->
  (exists bs1 l next bs2,
     bs = bs1 ++ (s, l, next) :: bs2 /\
     Forall (fun b => fst (fst b) <> s) bs2 /\
     metr = block_record l next /\ no_reads metr = false) \/
  (Forall (fun b => fst (fst b) <> s) bs /\ Dict.get data s = Some metr).
Proof.
  induction bs as [|[[n l] next] bs IH]; intros data s metr Hwf Hg; cbn [fold_left] in Hg.
  - right. split; [constructor|exact Hg].
  - destruct (IH _ s metr (wf_settle _ (n, l, next) Hwf) Hg)
      as [[bs1 [l' [next' [bs2 [-> [Hlast [Hm Hr]]]]]]]|[Hnone Hg']].
    + left. exists ((n, l, next) :: bs1), l', next', bs2. now repeat split.
    + unfold settle in Hg'. destruct (String.eqb_spec n s) as [->|Hn].
      * destruct (no_reads (block_record l next)) eqn:Hr.
        -- rewrite get_pop_same in Hg' by exact Hwf. discriminate.
        -- rewrite get_set_same in Hg'. injection Hg' as <-.
           left. exists [], l, next, bs. now repeat split.
      * right. split; [constructor; [exact Hn|exact Hnone]|].
        destruct (no_reads (block_record l next)).
        -- rewrite get_pop_other in Hg' by congruence; exact Hg'.
        -- rewrite get_set_other in Hg' by congruence; exact Hg'.
Qed.

(** When a call returns, it returns the number of records of the
    collection it leaves, and that collection is what the derived metrics
    make of the collected records. *)
Lemma parse_reports_returns p st n st' :
  parse_reports p st = Ok n st' ->
  forallb block_covers (all_blocks (find_log_files (log_key p))) = true /\
  derive_all (collected (find_log_files (log_key p)))
    = Ok tt (picard_dupMetrics_data st') /\
  n = Dict.len (picard_dupMetrics_data st').
Proof.
  intros Hrun. pose proof (parse_reports_cases p st) as Hc. cbv zeta in Hc.
  destruct (forallb block_covers (all_blocks (find_log_files (log_key p)))).
  - destruct (derive_all (collected (find_log_files (log_key p))))
      as [[] data'|e data'].
    + destruct Hc as [st'' [Hrun' [Hd _]]]. rewrite Hrun in Hrun'.
      injection Hrun' as -> <-. rewrite Hd. now repeat split.
    + destruct Hc as [st'' [Hrun' _]]. congruence.
  - destruct Hc as [st'' Hrun']. congruence.
Qed.

End CollectionFacts.

(** ** Rows that are too short, fields that are missing, samples without reads *)

Section WholeClaims.
Context {host : Host}.
Import DictFacts.

(** C2, amended.  A header row that the loop parses and whose value row
    splits into fewer fields ends the field parse with [IndexError] at the
    first header field without a value: the fields before it stay stored
    under the sample name, nothing is dropped and no warning is logged.
    Nothing catches the exception: the remaining lines and files are not
    processed, and [parse_reports] raises [IndexError] instead of returning
    a sample count. *)
Theorem short_value_row_raises (p : params) (st : module_state) (f : log_file)
    (n l next : string) :
  In f (find_log_files (log_key p)) ->
  In (n, l, next) (file_blocks f) ->
  covers l next = false ->
  (forall st1, parse_block f n l next st1 = Raise IndexError (stored f n l next st1)) /\
  (exists st', parse_reports p st = Raise IndexError st').
Proof.
  intros Hf Hb Hshort. split.
  - intros st1. rewrite parse_block_eq, Hshort. reflexivity.
  - pose proof (parse_reports_cases p st) as Hc. cbv zeta in Hc.
    destruct (forallb block_covers (all_blocks (find_log_files (log_key p))))
      eqn:Hall; [|exact Hc].
    exfalso. rewrite forallb_forall in Hall.
    assert (Hin : In (n, l, next) (all_blocks (find_log_files (log_key p)))).
    { unfold all_blocks. apply in_flat_map. now exists f. }
    specialize (Hall _ Hin). cbn [block_covers] in Hall. congruence.
Qed.

Lemma derivable_false metr :
  (exists k, In k required_fields /\ Dict.get metr k = None) \/
  (exists k t, In k arithmetic_fields /\ Dict.get metr k = Some (VStr t)) ->
  derivable metr = false.
Proof.
  unfold derivable, Dict.mem. cbn [forallb arithmetic_fields]. unfold is_number.
  intros [[k [Hk Hg]]|[k [t [Hk Hg]]]]; cbn [In required_fields arithmetic_fields] in Hk;
    repeat (destruct Hk as [<-|Hk]; [rewrite Hg; cbn [andb];
                                     rewrite ?andb_false_r; reflexivity|]);
    contradiction.
Qed.

(** C3, amended.  When the loop over the files has run to its end and a
    record left by the exclusion filter lacks one of the six required raw
    fields, or holds text in one of the five that enter a product or a
    difference (all but UNMAPPED_READS), the derived-metric computation
    raises - [KeyError] for a field some record lacks, [TypeError] for an
    operand that is text - and nothing catches the exception: it leaves
    [parse_reports].  No record loses a raw field by it, and no warning is
    logged for it. *)
Theorem missing_derived_input_raises (p : params) (st st1 : module_state)
    (s : string) (metr : record) :
  for_each (find_log_files (log_key p)) process_file
    (with_data (fun _ => []) st) = Ok tt st1 ->
  In (s, metr) (ignore_samples (picard_dupMetrics_data st1)) ->
  (exists k, In k required_fields /\ Dict.get metr k = None) \/
  (exists k t, In k arithmetic_fields /\ Dict.get metr k = Some (VStr t)) ->
  exists e st',
    parse_reports p st = Raise e st' /\
    (exists s0 metr0,
       In (s0, metr0) (ignore_samples (picard_dupMetrics_data st1)) /\
       failure metr0 e) /\
    framed (ignore_samples (picard_dupMetrics_data st1)) (picard_dupMetrics_data st') /\
    (forall msg, In (log_warn msg) (trace st') -> In (log_warn msg) (trace st1)).
Proof.
  intros Hs Hin Hbad.
  pose proof (parse_reports_after_scan p st st1 Hs) as Hafter. cbv zeta in Hafter.
  pose proof (derive_all_cases (ignore_samples (picard_dupMetrics_data st1))) as Hc.
  pose proof (derive_all_framed (ignore_samples (picard_dupMetrics_data st1))) as Hfr.
  assert (Hnot : forallb (fun kv => derivable (snd kv))
                   (ignore_samples (picard_dupMetrics_data st1)) = false).
  { destruct (forallb (fun kv => derivable (snd kv))
                (ignore_samples (picard_dupMetrics_data st1))) eqn:Hall;
      [|reflexivity].
    rewrite forallb_forall in Hall. specialize (Hall _ Hin). cbn [snd] in Hall.
    rewrite (derivable_false _ Hbad) in Hall. discriminate. }
  rewrite Hnot in Hc. destruct Hc as [e [data' [Hder Hfail]]].
  rewrite Hder in Hafter, Hfr. cbn [state_of] in Hfr.
  destruct Hafter as [st' [Hrun [Hd Ht]]].
  exists e, st'. split; [exact Hrun|]. split; [exact Hfail|].
  split; [now rewrite Hd|].
  intros msg Hw. rewrite Ht in Hw. apply in_app_or in Hw as [Hw|[Hw|[]]];
    [exact Hw|discriminate Hw].
Qed.

(** C4.  No record whose READ_PAIRS_EXAMINED and UNPAIRED_READS_EXAMINED
    are both zero - a field that is not there counting as zero - is in the
    collection that [parse_reports] leaves when it returns: whatever the
    state before the call, a pair without reads, once its fields are
    stored, is taken out of the collection at once and a warning naming the
    sample is logged. *)
Theorem no_reads_never_reported :
  (forall (p : params) (st : module_state) (n : nat) (st' : module_state),
     parse_reports p st = Ok n st' ->
     forall s metr, In (s, metr) (picard_dupMetrics_data st') -> no_reads metr = false) /\
  (forall (f : log_file) (s_name l next : string) (st : module_state),
     covers l next = true ->
     no_reads (state_of (store_fields 0 (row l) (row next) [])) = true ->
     Dict.wf (picard_dupMetrics_data st) ->
     exists st',
       parse_block f s_name l next st = Ok tt st' /\
       Dict.get (picard_dupMetrics_data st') s_name = None /\
       picard_dupMetrics_data st' = Dict.pop (picard_dupMetrics_data st) s_name /\
       trace st' = trace st ++ announce f s_name st
                     ++ [log_warn (no_reads_message s_name)]).
Proof.
  split.
  - intros p st n st' Hrun s metr Hin.
    destruct (parse_reports_returns p st n st' Hrun) as [_ [Hder _]].
    pose proof (derive_all_framed (collected (find_log_files (log_key p)))) as Hfr.
    rewrite Hder in Hfr. cbn [state_of] in Hfr.
    pose proof (framed_with_reads _ _ Hfr (with_reads_collected _)) as Hr.
    unfold with_reads in Hr. rewrite Forall_forall in Hr.
    exact (Hr _ Hin).
  - intros f s_name l next st Hcov Hno Hwf.
    assert (Hmetr : state_of (store_fields 0 (row l) (row next) [])
                    = block_record l next).
    { rewrite store_fields_eq by (simpl; lia).
      destruct (List.length (row l) + 0 <=? List.length (row next))%nat; reflexivity. }
    rewrite Hmetr in Hno.
    exists (dropped s_name (stored f s_name l next st)).
    rewrite parse_block_eq, Hcov, Hno.
    split; [reflexivity|].
    cbn [dropped stored picard_dupMetrics_data trace with_event with_data].
    rewrite pop_set. split; [now apply get_pop_same|].
    split; [reflexivity|]. now rewrite <- app_assoc.
Qed.

End WholeClaims.

(** ** Names met twice, tables without a start line, and the plot *)

Section NameClaims.
Context {host : Host}.
Import DictFacts.

Lemma parsed_record_eq l next :
  state_of (store_fields 0 (row l) (row next) []) = block_record l next.
Proof.
  rewrite store_fields_eq by (simpl; lia).
  destruct (List.length (row l) + 0 <=? List.length (row next))%nat; reflexivity.
Qed.

(** C5, amended.  When [parse_reports] returns, every name of the
    collection it leaves has exactly one record, and that record is the one
    of the last block parsed under the name, in the order of the files and
    of their lines, with its derived fields added: last write wins.  When
    a block is parsed under a name that the collection already holds, the
    duplicate name is reported by a message at debug level, not by a
    warning: the only warning that parsing a block can add is the one for
    a sample without reads. *)
Theorem last_block_wins :
  (forall (p : params) (st : module_state) (n : nat) (st' : module_state),
     parse_reports p st = Ok n st' ->
     Dict.wf (picard_dupMetrics_data st') /\
     forall s metr', Dict.get (picard_dupMetrics_data st') s = Some metr' ->
       exists bs1 l next bs2,
         all_blocks (find_log_files (log_key p)) = bs1 ++ (s, l, next) :: bs2 /\
         Forall (fun b => fst (fst b) <> s) bs2 /\
         derive_metrics (state_of (store_fields 0 (row l) (row next) []))
           = Ok tt metr') /\
  (forall (f : log_file) (s_name l next : string) (st : module_state),
     Dict.mem (picard_dupMetrics_data st) s_name = true ->
     let st' := state_of (parse_block f s_name l next st) in
     In (log_debug (duplicate_message (f_fn f) s_name)) (trace st') /\
     forall msg, In (log_warn msg) (trace st') ->
       In (log_warn msg) (trace st) \/ msg = no_reads_message s_name).
Proof.
  split.
  - intros p st n st' Hrun.
    destruct (parse_reports_returns p st n st' Hrun) as [_ [Hder _]].
    set (files := find_log_files (log_key p)) in *.
    split.
    + pose proof (derive_all_framed (collected files)) as Hfr.
      rewrite Hder in Hfr. cbn [state_of] in Hfr.
      unfold Dict.wf. rewrite (framed_keys _ _ Hfr). apply wf_collected.
    + intros s metr' Hg.
      destruct (derived_from_get _ _ s metr' (derive_all_ok _ _ Hder) Hg)
        as [metr [Hraw Hm]].
      unfold collected in Hraw. rewrite get_ignore_samples in Hraw.
      destruct (ignored s); [discriminate|].
      assert (Hwf0 : Dict.wf (@nil (string * record))) by constructor.
      destruct (settle_last _ _ _ _ Hwf0 Hraw)
        as [[bs1 [l [next [bs2 [Hbs [Hlast [-> _]]]]]]]|[_ Hnil]];
        [|discriminate].
      exists bs1, l, next, bs2. rewrite parsed_record_eq. now repeat split.
  - intros f s_name l next st Hmem st'. subst st'. rewrite parse_block_eq.
    assert (Htr : trace (stored f s_name l next st)
                  = trace st ++ [log_debug (duplicate_message (f_fn f) s_name);
                                 add_data_source (f_fn f) s_name "DuplicationMetrics"]).
    { unfold stored, announce. rewrite Hmem. reflexivity. }
    destruct (covers l next); [destruct (no_reads (block_record l next))|];
      cbn [state_of dropped trace with_event with_data]; rewrite Htr; split.
    + rewrite !in_app_iff. left; right; now left.
    + intros msg Hw. rewrite !in_app_iff in Hw.
      destruct Hw as [[Hw|[Hw|[Hw|[]]]]|[Hw|[]]];
        [now left|discriminate|discriminate|right; congruence].
    + rewrite in_app_iff. right; now left.
    + intros msg Hw. rewrite in_app_iff in Hw.
      destruct Hw as [Hw|[Hw|[Hw|[]]]]; [now left|discriminate|discriminate].
    + rewrite in_app_iff. right; now left.
    + intros msg Hw. rewrite in_app_iff in Hw.
      destruct Hw as [Hw|[Hw|[Hw|[]]]]; [now left|discriminate|discriminate].
Qed.

(** C6, amended.  Of the lines of a file that no block-start line
    precedes, the first one that holds the header marker is handled by what
    the line itself is.  When it is not a block-start line, it is parsed
    under the file's own sample name, with the line after it ([''] at the
    end of the file) as its value row.  When it is itself a block-start
    line, the name is taken from the line first (lines 35-42 come before
    the test of line 45): it is parsed under the name that its INPUT
    directive gives, not under the file's name, and it is not parsed at all
    when the pattern finds no directive in it - the loop then goes on with
    the next line and no pending name.  In the first two cases the lines
    after the value row up to the next block-start line are ignored, the
    header marker or not: none of them is parsed as a header row, and the
    loop goes on behind them without a pending name. *)
Theorem headless_table_parsed_once (f : log_file) (pre : list string)
    (hdr : string) (tail mid rest : list string) (st : module_state) :
  f_lines f = pre ++ hdr :: tail ->
  Forall (fun l => is_block_start l = false /\ is_header l = false) pre ->
  is_header hdr = true ->
  tl tail = mid ++ rest ->
  Forall (fun l => is_block_start l = false) mid ->
  let next := hd EmptyString tail in
  (is_block_start hdr = false ->
   scan_lines f (Some (f_s_name f)) (f_lines f) st =
     (parse_block f (f_s_name f) hdr next ;; scan_lines f None rest) st /\
   file_blocks f = (f_s_name f, hdr, next) :: blocks f None rest) /\
  (forall n,
     is_block_start hdr = true ->
     name_from_input (f_root f) hdr = Some n ->
     scan_lines f (Some (f_s_name f)) (f_lines f) st =
       (parse_block f n hdr next ;; scan_lines f None rest) st /\
     file_blocks f = (n, hdr, next) :: blocks f None rest) /\
  (is_block_start hdr = true ->
   name_from_input (f_root f) hdr = None ->
   scan_lines f (Some (f_s_name f)) (f_lines f) st = scan_lines f None tail st /\
   file_blocks f = blocks f None tail).
Proof.
  intros Hlines Hpre Hh Htail Hmid next.
  assert (Hparsed : forall n,
    next_name f (Some (f_s_name f)) hdr = Some n ->
    scan_lines f (Some (f_s_name f)) (f_lines f) st =
      (parse_block f n hdr next ;; scan_lines f None rest) st /\
    file_blocks f = (n, hdr, next) :: blocks f None rest).
  { intros n Hn. subst next. split.
    - rewrite Hlines, (scan_lines_pass _ _ _ _ _ Hpre).
      cbn [scan_lines]. rewrite Hn, Hh.
      destruct tail as [|nx tail']; cbn [hd tl] in *.
      + symmetry in Htail. apply app_eq_nil in Htail as [_ ->].
        unfold bind. destruct (parse_block f n hdr EmptyString st) as [[] s1|e s1];
          reflexivity.
      + subst tail'. unfold bind.
        destruct (parse_block f n hdr nx st) as [[] s1|e s1]; [|reflexivity].
        apply scan_lines_idle, Hmid.
    - unfold file_blocks. rewrite Hlines, (blocks_pass _ _ _ _ Hpre).
      cbn [blocks]. rewrite Hn, Hh.
      destruct tail as [|nx tail']; cbn [hd tl] in *.
      + symmetry in Htail. apply app_eq_nil in Htail as [_ ->]. reflexivity.
      + subst tail'. f_equal. apply blocks_idle, Hmid. }
  split; [|split].
  - intros Hb. apply Hparsed. unfold next_name. now rewrite Hb.
  - intros n Hb Hn. apply Hparsed. unfold next_name. now rewrite Hb.
  - intros Hb Hn. split.
    + rewrite Hlines, (scan_lines_pass _ _ _ _ _ Hpre).
      cbn [scan_lines]. unfold next_name at 1. rewrite Hb, Hn. reflexivity.
    + unfold file_blocks. rewrite Hlines, (blocks_pass _ _ _ _ Hpre).
      cbn [blocks]. unfold next_name at 1. rewrite Hb, Hn. reflexivity.
Qed.

End NameClaims.

(** ** The fields given to the plot *)

Section PlotClaims.
Context {host : Host}.

(** C7, amended.  The plot is given six derived fields: those of the
    table of derived metrics without READS_IN_DUPLICATE_PAIRS, in the order
    of that table, each with the label made of its name by taking off the
    prefixes READS_ and IN_, turning underscores into spaces and putting
    the rest in title case.  When [parse_reports] returns with samples
    left, the last thing it did was to hand the final collection to the
    plot with these fields. *)
Theorem plot_keys_listed :
  plot_keys =
    [ ("READS_IN_UNIQUE_PAIRS", "Unique Pairs");
      ("READS_IN_UNIQUE_UNPAIRED", "Unique Unpaired");
      ("READS_IN_DUPLICATE_PAIRS_OPTICAL", "Duplicate Pairs Optical");
      ("READS_IN_DUPLICATE_PAIRS_NONOPTICAL", "Duplicate Pairs Nonoptical");
      ("READS_IN_DUPLICATE_UNPAIRED", "Duplicate Unpaired");
      ("READS_UNMAPPED", "Unmapped") ] /\
  plot_keys =
    map (fun k => (k, spaced_label k))
        (filter (fun k => negb (String.eqb k "READS_IN_DUPLICATE_PAIRS")) derived_names) /\
  (forall (p : params) (st : module_state) (n : nat) (st' : module_state),
     parse_reports p st = Ok n st' -> 0 < n ->
     exists tr,
       trace st' = tr ++ [add_section (section_name p) (section_anchor p)
                            section_description (picard_dupMetrics_data st')
                            plot_keys (pconfig p)]).
Proof.
  split; [vm_compute; reflexivity|]. split; [vm_compute; reflexivity|].
  intros p st n st' Hrun Hn.
  pose proof (parse_reports_cases p st) as Hc. cbv zeta in Hc.
  destruct (forallb block_covers (all_blocks (find_log_files (log_key p)))).
  - destruct (derive_all (collected (find_log_files (log_key p))))
      as [[] data'|e data'].
    + destruct Hc as [st'' [Hrun' [Hd Ht]]]. rewrite Hrun in Hrun'.
      injection Hrun' as -> <-. rewrite Hd. apply Ht.
      intros ->. simpl in Hn. lia.
    + destruct Hc as [st'' [Hrun' _]]. congruence.
  - destruct Hc as [st'' Hrun']. congruence.
Qed.

End PlotClaims.

(** * Further properties of the code *)

(** ** The lines of a file *)

Section LineProperties.
Context {host : Host}.
Import DictFacts.

Lemma scan_lines_no_header f ls : forall s_name st,
  Forall (fun l => is_header l = false) ls ->
  scan_lines f s_name ls st = Ok tt st.
Proof.
  induction ls as [|l ls IH]; intros s_name st Hls; [reflexivity|].
  inversion Hls as [|? ? Hl Hrest]; subst.
  cbn [scan_lines]. rewrite Hl.
  destruct (next_name f s_name l); now apply IH.
Qed.

Lemma remove_empty_nothing st :
  picard_dupMetrics_data st = [] -> remove_empty st = Ok tt st.
Proof.
  intros Hd. apply remove_empty_id. rewrite Hd. constructor.
Qed.

(** X1.  When no line of any file that is found holds the header marker
    UNPAIRED_READ_DUPLICATES - in particular when no file is found -
    [parse_reports] returns 0, and all it has done to the module is to set
    its collection to the empty one: nothing is logged, written, added to
    the general statistics or plotted. *)
Theorem no_header_no_samples (p : params) (st : module_state) :
  (forall f l, In f (find_log_files (log_key p)) -> In l (f_lines f) ->
     is_header l = false) ->
  parse_reports p st = Ok 0 (with_data (fun _ => []) st).
Proof.
  intros Hno. unfold parse_reports. rewrite bind_modify.
  assert (Hscan : forall files st0,
            incl files (find_log_files (log_key p)) ->
            picard_dupMetrics_data st0 = [] ->
            for_each files process_file st0 = Ok tt st0).
  { induction files as [|f files IH]; intros st0 Hincl Hd; [reflexivity|].
    cbn [for_each]. unfold bind at 1, process_file, bind at 1.
    rewrite scan_lines_no_header.
    - rewrite (remove_empty_nothing _ Hd). apply IH; [|exact Hd].
      intros x Hx. apply Hincl. now right.
    - apply Forall_forall. intros l Hl. apply (Hno f); [|exact Hl].
      apply Hincl. now left. }
  rewrite (bind_ok _ _ _ _ _
             (Hscan _ (with_data (fun _ => []) st) (incl_refl _) eq_refl)).
  reflexivity.
Qed.

(** X2.  A block-start line that gives a sample name decides under which
    name the next table is stored, whatever name was pending before it:
    after such a line, the lines up to the first header row are passed
    over, that header row is parsed under the new name with the line after
    it as its value row, and the lines that follow are passed over, header
    rows included, until the next block-start line. *)
Theorem block_start_names_next_table (f : log_file) (s_name : option string)
    (start : string) (n : string) (pre : list string) (hdr next : string)
    (mid rest : list string) (st : module_state) :
  is_block_start start = true ->
  is_header start = false ->
  name_from_input (f_root f) start = Some n ->
  Forall (fun l => is_block_start l = false /\ is_header l = false) pre ->
  is_header hdr = true ->
  is_block_start hdr = false ->
  Forall (fun l => is_block_start l = false) mid ->
  scan_lines f s_name (start :: pre ++ hdr :: next :: mid ++ rest) st =
    (parse_block f n hdr next ;; scan_lines f None rest) st.
Proof.
  intros Hstart Hnh Hname Hpre Hh Hb Hmid.
  cbn [scan_lines]. unfold next_name at 1. rewrite Hstart, Hname, Hnh.
  rewrite (scan_lines_pass _ _ _ _ _ Hpre).
  cbn [scan_lines]. unfold next_name. rewrite Hb, Hh.
  unfold bind. destruct (parse_block f n hdr next st) as [[] s1|e s1];
    [|reflexivity].
  apply scan_lines_idle, Hmid.
Qed.

(** X3.  A block-start line in which the pattern finds no INPUT directive
    leaves no pending name, whatever name was pending before it: the line
    itself and the lines after it are passed over, header rows included,
    until the next block-start line. *)
Theorem unnamed_block_start_cancels (f : log_file) (s_name : option string)
    (start : string) (mid rest : list string) (st : module_state) :
  is_block_start start = true ->
  PyStr.search_input start = None ->
  Forall (fun l => is_block_start l = false) mid ->
  scan_lines f s_name (start :: mid ++ rest) st = scan_lines f None rest st /\
  blocks f s_name (start :: mid ++ rest) = blocks f None rest.
Proof.
  intros Hstart Hnone Hmid. split.
  - cbn [scan_lines]. unfold next_name, name_from_input. rewrite Hstart, Hnone.
    apply scan_lines_idle, Hmid.
  - cbn [blocks]. unfold next_name, name_from_input. rewrite Hstart, Hnone.
    apply blocks_idle, Hmid.
Qed.

End LineProperties.

(** ** What the loop over the files leaves behind *)

Section ScanEffects.
Context {host : Host}.
Import DictFacts.

Lemma scan_event_incl bs bs' e :
  incl bs bs' -> scan_event bs e -> scan_event bs' e.
Proof.
  intros Hincl [H|[H|[n [l [next [Hin H]]]]]]; [now left|right; now left|].
  right; right. exists n, l, next. split; [now apply Hincl|exact H].
Qed.

Lemma scan_effect_refl bs st : scan_effect bs st st.
Proof.
  unfold scan_effect. split; [reflexivity|]. split; [reflexivity|].
  exists []. split; [now rewrite app_nil_r|constructor].
Qed.

Lemma scan_effect_trans bs1 bs2 st1 st2 st3 :
  scan_effect bs1 st1 st2 -> scan_effect bs2 st2 st3 ->
  scan_effect (bs1 ++ bs2) st1 st3.
Proof.
  intros [Hh1 [Hg1 [evs1 [Ht1 He1]]]] [Hh2 [Hg2 [evs2 [Ht2 He2]]]].
  unfold scan_effect. split; [congruence|]. split; [congruence|].
  exists (evs1 ++ evs2). split; [now rewrite Ht2, Ht1, app_assoc|].
  apply Forall_app. split.
  - eapply Forall_impl; [|exact He1]. intros e. apply scan_event_incl.
    apply incl_appl, incl_refl.
  - eapply Forall_impl; [|exact He2]. intros e. apply scan_event_incl.
    apply incl_appr, incl_refl.
Qed.

Lemma scan_effect_weaken bs bs' st st' :
  incl bs bs' -> scan_effect bs st st' -> scan_effect bs' st st'.
Proof.
  intros Hincl [Hh [Hg [evs [Ht He]]]]. unfold scan_effect.
  split; [exact Hh|]. split; [exact Hg|]. exists evs. split; [exact Ht|].
  eapply Forall_impl; [|exact He]. intros e. now apply scan_event_incl.
Qed.

Lemma run_block_effect f b st :
  scan_effect [b] st (state_of (run_block f b st)).
Proof.
  destruct b as [[n l] next]. unfold run_block, scan_effect.
  rewrite parse_block_eq.
  assert (Hann : Forall (scan_event [(n, l, next)]) (announce f n st)).
  { unfold announce. apply Forall_app. split.
    - destruct (Dict.mem (picard_dupMetrics_data st) n);
        [apply Forall_cons; [|apply Forall_nil]|apply Forall_nil].
      left. now exists (f_fn f), n.
    - apply Forall_cons; [|apply Forall_nil].
      right; left. now exists (f_fn f), n. }
  destruct (covers l next) eqn:Hc;
    [destruct (no_reads (block_record l next)) eqn:Hr|]; cbn [state_of].
  - split; [reflexivity|]. split; [reflexivity|].
    exists (announce f n st ++ [log_warn (no_reads_message n)]).
    split; [cbn [dropped stored trace with_event with_data]; now rewrite app_assoc|].
    apply Forall_app. split; [exact Hann|].
    apply Forall_cons; [|apply Forall_nil].
    right; right. exists n, l, next. repeat split; try assumption. now left.
  - split; [reflexivity|]. split; [reflexivity|].
    exists (announce f n st). now split.
  - split; [reflexivity|]. split; [reflexivity|].
    exists (announce f n st). now split.
Qed.

Lemma run_blocks_effect f bs : forall st,
  scan_effect bs st (state_of (for_each bs (run_block f) st)).
Proof.
  induction bs as [|b bs IH]; intros st; cbn [for_each].
  - apply scan_effect_refl.
  - unfold bind. pose proof (run_block_effect f b st) as Hb.
    destruct (run_block f b st) as [[] st1|e st1]; cbn [state_of] in *.
    + change (b :: bs) with ([b] ++ bs).
      eapply scan_effect_trans; [exact Hb|apply IH].
    + eapply scan_effect_weaken; [|exact Hb].
      intros x [<-|[]]. now left.
Qed.

Lemma process_file_effect f st :
  with_reads (picard_dupMetrics_data st) ->
  scan_effect (file_blocks f) st (state_of (process_file f st)).
Proof.
  intros Hr. unfold process_file, bind. rewrite scan_lines_blocks.
  fold (file_blocks f).
  pose proof (run_blocks_effect f (file_blocks f) st) as He.
  pose proof (run_blocks_cases f (file_blocks f) st) as Hc.
  destruct (forallb block_covers (file_blocks f)).
  - destruct Hc as [st' [Hrun Hd]]. rewrite Hrun in *. cbn [state_of] in He.
    rewrite remove_empty_id; [exact He|].
    rewrite Hd. now apply with_reads_fold.
  - destruct Hc as [st' Hrun]. rewrite Hrun in *. exact He.
Qed.

Lemma process_files_effect files : forall st,
  with_reads (picard_dupMetrics_data st) ->
  scan_effect (all_blocks files) st (state_of (for_each files process_file st)).
Proof.
  induction files as [|f files IH]; intros st Hr;
    cbn [for_each all_blocks flat_map].
  - apply scan_effect_refl.
  - unfold bind. pose proof (process_file_effect f st Hr) as Hf.
    pose proof (process_file_cases f st Hr) as Hc.
    destruct (forallb block_covers (file_blocks f)).
    + destruct Hc as [st1 [Hrun Hd]]. rewrite Hrun in *. cbn [state_of] in Hf.
      eapply scan_effect_trans; [exact Hf|]. apply IH.
      rewrite Hd. now apply with_reads_fold.
    + destruct Hc as [st1 Hrun]. rewrite Hrun in *. cbn [state_of] in *.
      eapply scan_effect_weaken; [|exact Hf]. apply incl_appl, incl_refl.
Qed.

(** What a call adds to the trace, whether it returns or raises: events
    of the blocks it parses, then at most a data file and a section. *)
Lemma parse_reports_trace p st :
  exists evs tail,
    trace (state_of (parse_reports p st)) = trace st ++ evs ++ tail /\
    Forall (scan_event (all_blocks (find_log_files (log_key p)))) evs /\
    Forall report_event tail.
Proof.
  pose proof (process_files_effect (find_log_files (log_key p))
                (with_data (fun _ => []) st) (Forall_nil _))
    as [_ [_ [evs [Ht He]]]].
  cbn [trace with_data] in Ht.
  destruct (for_each (find_log_files (log_key p)) process_file
              (with_data (fun _ => []) st)) as [[] st1|e st1] eqn:Hscan;
    cbn [state_of] in Ht.
  - pose proof (parse_reports_after_scan p st st1 Hscan) as Hafter.
    cbv zeta in Hafter.
    destruct (derive_all (ignore_samples (picard_dupMetrics_data st1)))
      as [[] data'|e data'].
    + destruct Hafter as [st' [-> [_ Htr]]]. cbn [state_of].
      exists evs, (reported p (ignore_samples (picard_dupMetrics_data st1)) data').
      split; [now rewrite Htr, Ht, app_assoc|]. split; [exact He|].
      unfold reported. destruct (ignore_samples (picard_dupMetrics_data st1));
        [apply Forall_nil|].
      apply Forall_cons; [left; now eexists _, _|].
      apply Forall_cons; [|apply Forall_nil].
      right. now eexists _, _, _, _, _, _.
    + destruct Hafter as [st' [-> [_ Htr]]]. cbn [state_of].
      exists evs, [write_data_file (ignore_samples (picard_dupMetrics_data st1))
                     (data_filename p)].
      split; [now rewrite Htr, Ht, app_assoc|]. split; [exact He|].
      apply Forall_cons; [|apply Forall_nil]. left. now eexists _, _.
  - exists evs, []. unfold parse_reports. rewrite bind_modify.
    rewrite (bind_raise _ _ _ _ _ Hscan). cbn [state_of].
    split; [now rewrite app_nil_r|]. split; [exact He|constructor].
Qed.

(** X4.  The only warnings that a call of [parse_reports] logs, whether it
    returns or raises, are those of line 61: each names the sample of a
    block that was parsed, stored whole and found without reads.  A short
    value row, a missing field or a duplicate name gives no warning. *)
Theorem warnings_are_for_no_reads (p : params) (st : module_state) (msg : string) :
  In (log_warn msg) (trace (state_of (parse_reports p st))) ->
  In (log_warn msg) (trace st) \/
  exists n l next,
    In (n, l, next) (all_blocks (find_log_files (log_key p))) /\
    covers l next = true /\
    no_reads (state_of (store_fields 0 (row l) (row next) [])) = true /\
    msg = no_reads_message n.
Proof.
  intros Hin. destruct (parse_reports_trace p st) as [evs [tail [Ht [He Htail]]]].
  rewrite Ht, !in_app_iff in Hin. destruct Hin as [Hin|[Hin|Hin]].
  - now left.
  - right. rewrite Forall_forall in He.
    destruct (He _ Hin) as [[fn [s H]]|[[fn [s H]]|[n [l [next [Hb [Hc [Hr H]]]]]]]];
      try discriminate H.
    exists n, l, next. injection H as ->.
    rewrite store_fields_eq by (simpl; lia).
    assert (Hrec : forall b : bool,
      state_of ((if b then Ok tt else Raise IndexError)
                  (Dict.update [] (paired (row l) (skipn 0 (row next)))))
      = block_record l next) by (intros []; reflexivity).
    rewrite Hrec. now repeat split.
  - rewrite Forall_forall in Htail.
    destruct (Htail _ Hin) as [[d [fn H]]|[a [b [c [d [k [cf H]]]]]]]; discriminate H.
Qed.


End ScanEffects.

(** ** Which samples a call reports *)

Section ReportedSamples.
Context {host : Host}.
Import DictFacts.

(** what the blocks leave for a name is decided by the last block parsed
    under it *)
Lemma get_settled bs : forall data s,
  Dict.wf data ->
  Dict.get (fold_left settle bs data) s =
  match last_block bs s with
  | Some (l, next) =>
      if no_reads (block_record l next) then None else Some (block_record l next)
  | None => Dict.get data s
  end.
Proof.
  induction bs as [|[[n l] next] bs IH]; intros data s Hwf; [reflexivity|].
  cbn [fold_left last_block].
  rewrite (IH _ s (wf_settle _ (n, l, next) Hwf)).
  destruct (last_block bs s) as [[l' next']|]; [reflexivity|].
  unfold settle. destruct (String.eqb_spec n s) as [->|Hn].
  - destruct (no_reads (block_record l next)).
    + now apply get_pop_same.
    + apply get_set_same.
  - destruct (no_reads (block_record l next)).
    + apply get_pop_other. congruence.
    + apply get_set_other. congruence.
Qed.

Lemma derived_from_mem data data' s :
  derived_from data data' -> Dict.mem data' s = Dict.mem data s.
Proof.
  unfold Dict.mem.
  induction 1 as [|[s0 m0] [s0' m0'] data data' [Hk _] _ IH]; [reflexivity|].
  simpl in *. subst s0'. destruct (String.eqb s s0); [reflexivity|exact IH].
Qed.

(** X6.  When [parse_reports] returns, a sample name is in the collection
    it leaves exactly when the last block parsed under that name, over all
    files, has reads, and the name matches no ignore pattern (the exclusion
    filter being one on names): earlier blocks under the name do not count,
    so a later block without reads takes the sample out of the report. *)
Theorem reported_iff_last_block_has_reads (p : params) (st : module_state)
    (n : nat) (st' : module_state) (s : string) :
  parse_reports p st = Ok n st' ->
  (Dict.mem (picard_dupMetrics_data st') s = true <->
   ignored s = false /\
   exists l next,
     last_block (all_blocks (find_log_files (log_key p))) s = Some (l, next) /\
     no_reads (state_of (store_fields 0 (row l) (row next) [])) = false).
Proof.
  intros Hrun.
  destruct (parse_reports_returns p st n st' Hrun) as [_ [Hder _]].
  rewrite (derived_from_mem _ _ s (derive_all_ok _ _ Hder)).
  unfold Dict.mem, collected. rewrite get_ignore_samples.
  assert (Hwf0 : Dict.wf (@nil (string * record))) by constructor.
  rewrite (get_settled _ _ s Hwf0).
  destruct (ignored s).
  - split; [discriminate|]. intros [H _]. discriminate H.
  - destruct (last_block (all_blocks (find_log_files (log_key p))) s)
      as [[l next]|].
    + rewrite <- (parsed_record_eq l next).
      destruct (no_reads (state_of (store_fields 0 (row l) (row next) []))) eqn:Hr.
      * split; [discriminate|]. intros [_ [l' [next' [[= <- <-] H]]]]. congruence.
      * split; [|reflexivity]. intros _. split; [reflexivity|].
        now exists l, next.
    + split; [discriminate|]. intros [_ [l [next [H _]]]]. discriminate H.
Qed.

(** X7.  The number that [parse_reports] returns is the number of samples
    in the collection it leaves, and is at most the number of header rows
    that were parsed. *)
Theorem count_is_bounded (p : params) (st : module_state) (n : nat)
    (st' : module_state) :
  parse_reports p st = Ok n st' ->
  n = List.length (Dict.keys (picard_dupMetrics_data st')) /\
  n <= List.length (all_blocks (find_log_files (log_key p))).
Proof.
  intros Hrun.
  destruct (parse_reports_returns p st n st' Hrun) as [_ [Hder ->]].
  split; [unfold Dict.len, Dict.keys; now rewrite length_map|].
  set (bs := all_blocks (find_log_files (log_key p))).
  pose proof (derive_all_framed (collected (find_log_files (log_key p)))) as Hfr.
  rewrite Hder in Hfr. cbn [state_of] in Hfr.
  assert (Hlen : Dict.len (picard_dupMetrics_data st')
                 = List.length (Dict.keys (collected (find_log_files (log_key p))))).
  { rewrite <- (framed_keys _ _ Hfr). unfold Dict.len, Dict.keys.
    now rewrite length_map. }
  rewrite Hlen.
  transitivity (List.length (map (fun b => fst (fst b)) bs));
    [|now rewrite length_map].
  apply NoDup_incl_length; [apply wf_collected|].
  intros s Hs. apply in_keys_get in Hs as [metr Hg].
  unfold collected in Hg. rewrite get_ignore_samples in Hg.
  destruct (ignored s); [discriminate|].
  assert (Hwf0 : Dict.wf (@nil (string * record))) by constructor.
  destruct (settle_last _ _ _ _ Hwf0 Hg)
    as [[bs1 [l [next [bs2 [Hbs _]]]]]|[_ Hnil]]; [|discriminate].
  fold bs in Hbs. rewrite Hbs, map_app, in_app_iff. right. now left.
Qed.

End ReportedSamples.

(** ** What an exception leaves in the collection *)

Section AfterAnException.
Context {host : Host}.
Import DictFacts.

Lemma run_blocks_short f bs1 : forall n l next bs2 st,
  forallb block_covers bs1 = true ->
  covers l next = false ->
  exists st',
    for_each (bs1 ++ (n, l, next) :: bs2) (run_block f) st = Raise IndexError st' /\
    picard_dupMetrics_data st' =
      Dict.set (fold_left settle bs1 (picard_dupMetrics_data st)) n (block_record l next).
Proof.
  induction bs1 as [|b bs1 IH]; intros n l next bs2 st Hall Hshort.
  - cbn [app for_each run_block]. unfold bind.
    rewrite parse_block_eq, Hshort. eexists. split; reflexivity.
  - cbn [forallb] in Hall. apply andb_prop in Hall as [Hb Hall].
    cbn [app for_each fold_left]. unfold bind.
    pose proof (run_block_cases f b st) as Hc. rewrite Hb in Hc.
    destruct Hc as [st1 [-> Hd1]].
    destruct (IH n l next bs2 st1 Hall Hshort) as [st' [Hrun Hd]].
    exists st'. split; [exact Hrun|]. now rewrite Hd, Hd1.
Qed.

(** a list that starts with covered blocks and goes on beyond them *)
Lemma covered_prefix (fb : list (string * string * string)) :
  forall rest bs1 b bs2,
  fb ++ rest = bs1 ++ b :: bs2 ->
  forallb block_covers bs1 = true ->
  block_covers b = false ->
  if forallb block_covers fb
  then exists bs1', bs1 = fb ++ bs1' /\ rest = bs1' ++ b :: bs2
  else exists bs2', fb = bs1 ++ b :: bs2'.
Proof.
  induction fb as [|x fb IH]; intros rest bs1 b bs2 Heq Hall Hb.
  - cbn. exists bs1. now split.
  - destruct bs1 as [|y bs1]; cbn [app] in Heq; injection Heq as -> Heq.
    + cbn [forallb]. rewrite Hb. cbn. now exists fb.
    + cbn [forallb] in *. apply andb_prop in Hall as [Hy Hall]. rewrite Hy.
      cbn [andb]. specialize (IH rest bs1 b bs2 Heq Hall Hb).
      destruct (forallb block_covers fb).
      * destruct IH as [bs1' [-> ->]]. now exists bs1'.
      * destruct IH as [bs2' ->]. now exists bs2'.
Qed.

Lemma process_files_short files : forall st bs1 n l next bs2,
  with_reads (picard_dupMetrics_data st) ->
  all_blocks files = bs1 ++ (n, l, next) :: bs2 ->
  forallb block_covers bs1 = true ->
  covers l next = false ->
  exists st',
    for_each files process_file st = Raise IndexError st' /\
    picard_dupMetrics_data st' =
      Dict.set (fold_left settle bs1 (picard_dupMetrics_data st)) n (block_record l next).
Proof.
  induction files as [|f files IH]; intros st bs1 n l next bs2 Hr Hbs Hall Hshort.
  - destruct bs1; discriminate Hbs.
  - cbn [all_blocks flat_map] in Hbs. fold (all_blocks files) in Hbs.
    pose proof (covered_prefix _ _ _ _ _ Hbs Hall Hshort) as Hsplit.
    cbn [for_each]. unfold bind.
    pose proof (process_file_cases f st Hr) as Hc.
    destruct (forallb block_covers (file_blocks f)).
    + destruct Hsplit as [bs1' [-> Hrest]]. destruct Hc as [st1 [-> Hd1]].
      rewrite forallb_app in Hall. apply andb_prop in Hall as [_ Hall'].
      destruct (IH st1 bs1' n l next bs2) as [st' [Hrun Hd]]; try assumption.
      { rewrite Hd1. now apply with_reads_fold. }
      exists st'. split; [exact Hrun|]. now rewrite Hd, Hd1, fold_left_app.
    + destruct Hsplit as [bs2' Hfb]. clear Hc.
      unfold process_file, bind. rewrite scan_lines_blocks.
      fold (file_blocks f). rewrite Hfb.
      destruct (run_blocks_short f bs1 n l next bs2' st Hall Hshort)
        as [st' [-> Hd]].
      now exists st'.
Qed.

(** X8.  When the first value row that is shorter than its header row ends
    the call with [IndexError], the collection left in the module holds the
    samples of the blocks parsed before it, as they had settled, and under
    the name of the failing block the fields that its value row does have;
    the exclusion filter has not been applied and no later block or file
    has been read. *)
Theorem collection_after_short_row (p : params) (st : module_state)
    (bs1 : list (string * string * string)) (n l next : string)
    (bs2 : list (string * string * string)) :
  all_blocks (find_log_files (log_key p)) = bs1 ++ (n, l, next) :: bs2 ->
  forallb block_covers bs1 = true ->
  covers l next = false ->
  exists st',
    parse_reports p st = Raise IndexError st' /\
    picard_dupMetrics_data st' =
      Dict.set (fold_left settle bs1 []) n
               (state_of (store_fields 0 (row l) (row next) [])) /\
    general_stats_data st' = general_stats_data st /\
    general_stats_headers st' = general_stats_headers st.
Proof.
  intros Hbs Hall Hshort.
  destruct (process_files_short (find_log_files (log_key p))
              (with_data (fun _ => []) st) bs1 n l next bs2
              (Forall_nil _) Hbs Hall Hshort) as [st' [Hrun Hd]].
  exists st'. split; [|split].
  - unfold parse_reports. rewrite bind_modify. now apply bind_raise.
  - rewrite parsed_record_eq. exact Hd.
  - pose proof (process_files_effect (find_log_files (log_key p))
                  (with_data (fun _ => []) st) (Forall_nil _)) as [Hh [Hg _]].
    rewrite Hrun in Hh, Hg. cbn [state_of] in Hh, Hg. now split.
Qed.

(** the loop of lines 97-104 stops at the first record on which lines
    98-104 raise: the records before it have their derived fields, the
    record itself has those assigned before the exception, and the records
    after it are as they were *)
Lemma derive_all_stops data : forall e data',
  derive_all data = Raise e data' ->
  exists done s metr rest done' metr',
    data = done ++ (s, metr) :: rest /\
    derived_from done done' /\
    derive_metrics metr = Raise e metr' /\
    data' = done' ++ (s, metr') :: rest.
Proof.
  induction data as [|[s metr] data IH]; intros e data' Hrun; cbn [derive_all] in Hrun;
    [discriminate|].
  destruct (derive_metrics metr) as [[] metr1|e1 metr1] eqn:Hm.
  - destruct (derive_all data) as [[] data1|e2 data1] eqn:Hd; [discriminate|].
    injection Hrun as <- <-.
    destruct (IH _ _ eq_refl) as [done [s' [m' [rest [done' [m1' [-> [Hdone [Hm' ->]]]]]]]]].
    exists ((s, metr) :: done), s', m', rest, ((s, metr1) :: done'), m1'.
    split; [reflexivity|]. split; [|split; [exact Hm'|reflexivity]].
    constructor; [now split|exact Hdone].
  - injection Hrun as <- <-.
    exists [], s, metr, data, [], metr1.
    split; [reflexivity|]. split; [constructor|]. now split.
Qed.

(** X9.  The derived metrics are not computed all or nothing.  When the
    loop over the files has run to its end and the derived-metric loop
    raises, the collection left in the module is the filtered one with the
    records before the failing one carrying all their derived fields, the
    failing record carrying those assigned before the exception, and the
    records after it carrying none that they did not have; the samples are
    still there, in the same order. *)
Theorem collection_after_failed_derivation (p : params) (st st1 : module_state)
    (e : exn) (st' : module_state) :
  for_each (find_log_files (log_key p)) process_file
    (with_data (fun _ => []) st) = Ok tt st1 ->
  parse_reports p st = Raise e st' ->
  exists done s metr rest done' metr',
    ignore_samples (picard_dupMetrics_data st1) = done ++ (s, metr) :: rest /\
    derived_from done done' /\
    derive_metrics metr = Raise e metr' /\
    picard_dupMetrics_data st' = done' ++ (s, metr') :: rest.
Proof.
  intros Hscan Hrun.
  pose proof (parse_reports_after_scan p st st1 Hscan) as Hafter. cbv zeta in Hafter.
  destruct (derive_all (ignore_samples (picard_dupMetrics_data st1)))
    as [[] data'|e' data'] eqn:Hder.
  - destruct Hafter as [st'' [Hrun' _]]. congruence.
  - destruct Hafter as [st'' [Hrun' [Hd _]]]. rewrite Hrun in Hrun'.
    injection Hrun' as -> ->.
    destruct (derive_all_stops _ _ _ Hder)
      as [done [s [metr [rest [done' [metr' [H1 [H2 [H3 H4]]]]]]]]].
    exists done, s, metr, rest, done', metr'. rewrite Hd. now repeat split.
Qed.

End AfterAnException.

(** ** The general statistics *)

Section GeneralStats.
Context {host : Host}.
Import DictFacts.

(** lines 88-91 merge every sample of the collection into its entry *)
Lemma add_general_stats_eq st :
  add_general_stats st =
  Ok tt (with_stats (merge_stats (picard_dupMetrics_data st)
                       (Dict.keys (picard_dupMetrics_data st))) st).
Proof.
  unfold add_general_stats. rewrite bind_gets.
  assert (H : forall names st1,
    incl names (Dict.keys (picard_dupMetrics_data st1)) ->
    for_each names (fun s_name =>
        known <- gets (fun st => Dict.mem (general_stats_data st) s_name) ;;
        (if known : bool then ret tt
         else modify (with_stats (fun g => Dict.set g s_name []))) ;;
        g <- stats_of s_name ;;
        metr <- sample s_name ;;
        modify (with_stats (fun gs => Dict.set gs s_name (Dict.update g metr)))) st1
    = Ok tt (with_stats (merge_stats (picard_dupMetrics_data st1) names) st1)).
  { induction names as [|s names IH]; intros st1 Hincl.
    - destruct st1; reflexivity.
    - cbn [for_each]. unfold bind at 1.
      destruct (in_keys_get _ s (Hincl s (or_introl eq_refl))) as [metr Hg].
      assert (Hstep :
        (known <- gets (fun st => Dict.mem (general_stats_data st) s) ;;
         (if known : bool then ret tt
          else modify (with_stats (fun g => Dict.set g s []))) ;;
         g <- stats_of s ;;
         metr <- sample s ;;
         modify (with_stats (fun gs => Dict.set gs s (Dict.update g metr)))) st1
        = Ok tt (with_stats (fun gs => Dict.set gs s
                                         (Dict.update (entry gs s) metr)) st1)).
      { unfold bind, gets, stats_of, sample, modify, ret, Dict.mem, entry, with_stats.
        destruct (Dict.get (general_stats_data st1) s) as [g|] eqn:Hs.
        - cbn. rewrite Hs. cbn. rewrite Hg. reflexivity.
        - cbn. rewrite get_set_same. cbn. rewrite Hg. cbn. rewrite set_set.
          reflexivity. }
      rewrite Hstep, IH.
      + unfold with_stats, merge_stats.
        cbn [picard_dupMetrics_data general_stats_headers general_stats_data
             trace fold_left].
        rewrite Hg. reflexivity.
      + intros x Hx. apply Hincl. now right. }
  apply H, incl_refl.
Qed.

Lemma merge_stats_other data names : forall gs s,
  ~ In s names -> Dict.get (merge_stats data names gs) s = Dict.get gs s.
Proof.
  unfold merge_stats.
  induction names as [|a names IH]; intros gs s Hs; [reflexivity|].
  cbn [fold_left]. rewrite IH by (intros H; apply Hs; now right).
  destruct (Dict.get data a); [|reflexivity].
  apply get_set_other. intros ->. apply Hs. now left.
Qed.

Lemma merge_stats_in data names : forall gs s metr,
  NoDup names -> In s names -> Dict.get data s = Some metr ->
  Dict.get (merge_stats data names gs) s = Some (Dict.update (entry gs s) metr).
Proof.
  induction names as [|a names IH]; intros gs s metr Hnd Hin Hg; [contradiction|].
  inversion Hnd as [|? ? Ha Hnd']; subst.
  change (merge_stats data (a :: names) gs)
    with (merge_stats data names
            match Dict.get data a with
            | Some m => Dict.set gs a (Dict.update (entry gs a) m)
            | None => gs
            end).
  destruct (String.eqb_spec a s) as [->|Hne].
  - rewrite merge_stats_other by exact Ha. rewrite Hg. apply get_set_same.
  - destruct Hin as [->|Hin]; [congruence|].
    rewrite (IH _ s metr Hnd' Hin Hg). f_equal. f_equal. unfold entry.
    destruct (Dict.get data a); [|reflexivity].
    rewrite get_set_other by congruence. reflexivity.
Qed.

Lemma state_of_bind_gets {S A B} (c : M S A) (f : S -> B) st :
  state_of (bind c (fun _ => gets f) st) = state_of (c st).
Proof. unfold bind, gets. destruct (c st); reflexivity. Qed.

(** the general statistics and their headers after lines 73-147, whether
    they run to their end or raise *)
Lemma report_stats p st :
  general_stats_data (state_of (report p st))
    = merge_stats (picard_dupMetrics_data st)
        (Dict.keys (picard_dupMetrics_data st)) (general_stats_data st) /\
  general_stats_headers (state_of (report p st))
    = Dict.set (general_stats_headers st) "PERCENT_DUPLICATION"
        (percent_duplication_header p).
Proof.
  unfold report. rewrite bind_gets. cbv beta.
  unfold emit. rewrite bind_modify. cbv beta. rewrite bind_modify. cbv beta.
  rewrite (bind_ok _ _ _ _ _ (add_general_stats_eq _)). cbv beta.
  unfold bind, derive_samples, gets, modify.
  cbn [picard_dupMetrics_data with_stats with_headers with_event].
  destruct (derive_all (picard_dupMetrics_data st)) as [[] data'|e data'];
    split; reflexivity.
Qed.

(** the general statistics and their headers after a call whose loop over
    the files has run to its end, whether the call returns or raises *)
Lemma parse_reports_stats p st st1 :
  for_each (find_log_files (log_key p)) process_file
    (with_data (fun _ => []) st) = Ok tt st1 ->
  let raw := ignore_samples (picard_dupMetrics_data st1) in
  let st' := state_of (parse_reports p st) in
  general_stats_data st' = merge_stats raw (Dict.keys raw) (general_stats_data st) /\
  general_stats_headers st' =
    match raw with
    | [] => general_stats_headers st
    | _ :: _ => Dict.set (general_stats_headers st) "PERCENT_DUPLICATION"
                         (percent_duplication_header p)
    end.
Proof.
  intros Hs raw st'. subst st'.
  pose proof (process_files_effect (find_log_files (log_key p))
                (with_data (fun _ => []) st) (Forall_nil _)) as [Hh [Hg _]].
  rewrite Hs in Hh, Hg. cbn [state_of general_stats_headers general_stats_data
                             with_data] in Hh, Hg.
  unfold parse_reports. rewrite bind_modify.
  rewrite (bind_ok _ _ _ _ _ Hs). cbv beta.
  rewrite bind_modify. cbv beta. rewrite bind_gets. cbv beta.
  rewrite state_of_bind_gets.
  cbn [picard_dupMetrics_data with_data]. fold raw.
  destruct raw as [|kv raw'] eqn:Eraw.
  - cbn [Dict.len List.length Nat.ltb Nat.leb state_of ret].
    unfold ret. cbn [state_of general_stats_data general_stats_headers with_data].
    rewrite Hg, Hh. now split.
  - replace (0 <? Dict.len (kv :: raw'))%nat with true by reflexivity.
    destruct (report_stats p (with_data ignore_samples st1)) as [Hg' Hh'].
    rewrite Hg', Hh'.
    cbn [picard_dupMetrics_data general_stats_data general_stats_headers with_data].
    fold raw. rewrite Eraw, Hg, Hh. now split.
Qed.

(** X11.  A call of [parse_reports] that returns 0 has touched neither
    the general statistics nor their headers and has written no data file
    and added no section; a call that returns more has set the header
    PERCENT_DUPLICATION, replacing one of that name, and no other. *)
Theorem nothing_reported_without_samples (p : params) (st : module_state)
    (n : nat) (st' : module_state) :
  parse_reports p st = Ok n st' ->
  (n = 0 ->
   general_stats_data st' = general_stats_data st /\
   general_stats_headers st' = general_stats_headers st /\
   forall e, In e (trace st') -> report_event e -> In e (trace st)) /\
  (0 < n ->
   general_stats_headers st' =
     Dict.set (general_stats_headers st) "PERCENT_DUPLICATION"
              (percent_duplication_header p)).
Proof.
  intros Hrun.
  destruct (parse_reports_returns p st n st' Hrun) as [Hall [Hder Hn]].
  pose proof (process_files_cases (find_log_files (log_key p))
                (with_data (fun _ => []) st) (Forall_nil _)) as Hscan.
  rewrite Hall in Hscan. destruct Hscan as [st1 [Hs Hd1]].
  cbn [picard_dupMetrics_data with_data] in Hd1.
  pose proof (parse_reports_stats p st st1 Hs) as [Hg Hh].
  pose proof (parse_reports_after_scan p st st1 Hs) as Hafter. cbv zeta in Hafter.
  pose proof (process_files_effect (find_log_files (log_key p))
                (with_data (fun _ => []) st) (Forall_nil _)) as [_ [_ [evs [Ht He]]]].
  rewrite Hs in Ht. cbn [state_of trace with_data] in Ht.
  rewrite Hrun in Hg, Hh. cbn [state_of] in Hg, Hh.
  rewrite Hd1 in Hg, Hh, Hafter.
  fold (collected (find_log_files (log_key p))) in Hg, Hh, Hafter.
  pose proof (derive_all_framed (collected (find_log_files (log_key p)))) as Hfr.
  rewrite Hder in Hfr, Hafter. cbn [state_of] in Hfr.
  assert (Hlen : n = List.length (collected (find_log_files (log_key p)))).
  { rewrite Hn. symmetry. exact (Forall2_length Hfr). }
  clear Hn.
  destruct Hafter as [st'' [Hrun' [_ Htr]]]. rewrite Hrun in Hrun'.
  injection Hrun' as _ <-.
  destruct (collected (find_log_files (log_key p))) as [|kv raw].
  - split.
    + intros _. split; [exact Hg|]. split; [exact Hh|].
      intros e Hin Hrep. cbn [reported] in Htr.
      rewrite Htr, app_nil_r, Ht, in_app_iff in Hin.
      destruct Hin as [Hin|Hin]; [exact Hin|exfalso].
      rewrite Forall_forall in He. specialize (He _ Hin).
      destruct Hrep as [[d [fn ->]]|[a [b [c [d [k [cf ->]]]]]]];
        destruct He as [[? [? H]]|[[? [? H]]|[? [? [? [_ [_ [_ H]]]]]]]];
        discriminate H.
    + intros Hpos. exfalso. simpl in Hlen. lia.
  - split.
    + intros H0. exfalso. simpl in Hlen. lia.
    + intros _. exact Hh.
Qed.

End GeneralStats.

(** ** When the derived metrics can be computed *)

Section DerivedProperties.
Import DictFacts.

Lemma is_number_spec metr k :
  is_number metr k = true <-> exists x, Dict.get metr k = Some (VFloat x).
Proof.
  unfold is_number. destruct (Dict.get metr k) as [[x|t]|]; split;
    try discriminate; try (intros [x H]; discriminate H).
  - intros _. now exists x.
  - reflexivity.
Qed.

Lemma derivable_spec metr :
  derivable metr = true <->
  (forall k, In k arithmetic_fields -> exists x, Dict.get metr k = Some (VFloat x)) /\
  (exists v, Dict.get metr "UNMAPPED_READS" = Some v).
Proof.
  unfold derivable. rewrite andb_true_iff, forallb_forall. split.
  - intros [Hnum Hmem]. split.
    + intros k Hk. apply is_number_spec, Hnum, Hk.
    + unfold Dict.mem in Hmem.
      destruct (Dict.get metr "UNMAPPED_READS") as [v|]; [now exists v|discriminate].
  - intros [Hnum [v Hv]]. split.
    + intros k Hk. apply is_number_spec, Hnum, Hk.
    + unfold Dict.mem. now rewrite Hv.
Qed.

(** lines 98-104 on a record with the five operands numeric and
    UNMAPPED_READS holding anything *)
Lemma derive_metrics_any_unmapped (metr : record) (rpd rpe ure urd rpod : float)
    (unm : value) :
  Dict.get metr "READ_PAIR_DUPLICATES" = Some (VFloat rpd) ->
  Dict.get metr "READ_PAIRS_EXAMINED" = Some (VFloat rpe) ->
  Dict.get metr "UNPAIRED_READS_EXAMINED" = Some (VFloat ure) ->
  Dict.get metr "UNPAIRED_READ_DUPLICATES" = Some (VFloat urd) ->
  Dict.get metr "READ_PAIR_OPTICAL_DUPLICATES" = Some (VFloat rpod) ->
  Dict.get metr "UNMAPPED_READS" = Some unm ->
  derive_metrics metr =
  Ok tt (Dict.update metr
           [ ("READS_IN_DUPLICATE_PAIRS", VFloat (2 * rpd)%float);
             ("READS_IN_UNIQUE_PAIRS", VFloat (2 * (rpe - rpd))%float);
             ("READS_IN_UNIQUE_UNPAIRED", VFloat (ure - urd)%float);
             ("READS_IN_DUPLICATE_PAIRS_OPTICAL", VFloat (2 * rpod)%float);
             ("READS_IN_DUPLICATE_PAIRS_NONOPTICAL",
                VFloat (2 * rpd - 2 * rpod)%float);
             ("READS_IN_DUPLICATE_UNPAIRED", VFloat urd);
             ("READS_UNMAPPED", unm) ]).
Proof.
  intros Hrpd Hrpe Hure Hurd Hrpod Hunm.
  unfold derive_metrics, bind, getitem, setitem, modify, lift, ret, raise.
  repeat (progress (rewrite ?get_set;
                    cbn [String.eqb Ascii.eqb Bool.eqb andb py_double py_sub];
                    rewrite ?Hrpd, ?Hrpe, ?Hure, ?Hurd, ?Hrpod, ?Hunm)).
  reflexivity.
Qed.

(** X12.  The derived metrics of a record can be computed exactly when
    READ_PAIR_DUPLICATES, READ_PAIRS_EXAMINED, UNPAIRED_READS_EXAMINED,
    UNPAIRED_READ_DUPLICATES and READ_PAIR_OPTICAL_DUPLICATES are there as
    numbers and UNMAPPED_READS is there at all.  UNMAPPED_READS enters no
    arithmetic: READS_UNMAPPED is a copy of whatever it holds, text
    included, as READS_IN_DUPLICATE_UNPAIRED is a copy of
    UNPAIRED_READ_DUPLICATES. *)
Theorem derive_metrics_returns_iff (metr : record) :
  ((exists metr', derive_metrics metr = Ok tt metr') <->
   (forall k, In k arithmetic_fields -> exists x, Dict.get metr k = Some (VFloat x)) /\
   (exists v, Dict.get metr "UNMAPPED_READS" = Some v)) /\
  (forall metr', derive_metrics metr = Ok tt metr' ->
     Dict.get metr' "READS_UNMAPPED" = Dict.get metr "UNMAPPED_READS" /\
     Dict.get metr' "READS_IN_DUPLICATE_UNPAIRED"
       = Dict.get metr "UNPAIRED_READ_DUPLICATES").
Proof.
  assert (Hback : forall metr',
    derive_metrics metr = Ok tt metr' -> derivable metr = true).
  { intros metr' Hrun. pose proof (derive_metrics_cases metr) as Hc.
    destruct (derivable metr); [reflexivity|].
    destruct Hc as [e [m [Hr _]]]. congruence. }
  split.
  - rewrite <- derivable_spec. split.
    + intros [metr' Hrun]. exact (Hback metr' Hrun).
    + intros Hd. pose proof (derive_metrics_cases metr) as Hc.
      rewrite Hd in Hc. exact Hc.
  - intros metr' Hrun. pose proof (Hback metr' Hrun) as Hd.
    apply derivable_spec in Hd as [Hnum [unm Hunm]].
    destruct (Hnum "READ_PAIR_DUPLICATES") as [rpd Hrpd]; [cbn; tauto|].
    destruct (Hnum "READ_PAIRS_EXAMINED") as [rpe Hrpe]; [cbn; tauto|].
    destruct (Hnum "UNPAIRED_READS_EXAMINED") as [ure Hure]; [cbn; tauto|].
    destruct (Hnum "UNPAIRED_READ_DUPLICATES") as [urd Hurd]; [cbn; tauto|].
    destruct (Hnum "READ_PAIR_OPTICAL_DUPLICATES") as [rpod Hrpod]; [cbn; tauto|].
    rewrite (derive_metrics_any_unmapped metr rpd rpe ure urd rpod unm) in Hrun
      by assumption.
    injection Hrun as <-. rewrite Hunm, Hurd.
    unfold Dict.update; cbn [fold_left fst snd].
    split; rewrite ?get_set; reflexivity.
Qed.

End DerivedProperties.

(** ** Rows that do not fit the table *)

Section RowProperties.
Context {host : Host}.
Import DictFacts.

Lemma store_fields_app keys : forall i vals extra metr,
  i + List.length keys <= List.length vals ->
  store_fields i keys (vals ++ extra) metr = store_fields i keys vals metr.
Proof.
  induction keys as [|k keys IH]; intros i vals extra metr Hlen; [reflexivity|].
  cbn [store_fields List.length] in *.
  rewrite nth_error_app1 by lia.
  destruct (nth_error vals i) as [text|]; [|reflexivity].
  unfold bind, setitem, modify. apply IH. lia.
Qed.

(** X13.  Values past the end of the header row are ignored.  When the
    value row has at least as many fields as the header row, lines 52-56
    run to their end, and what they store is what they store for the value
    row cut after any of its fields from the last header position on: the
    surplus values are never read, and give no key, no exception and no
    message. *)
Theorem surplus_values_are_ignored (keys vals extra : list string) (metr : record) :
  List.length keys <= List.length vals ->
  store_fields 0 keys (vals ++ extra) metr = store_fields 0 keys vals metr /\
  exists metr',
    store_fields 0 keys vals metr = Ok tt metr' /\
    (forall k, In k keys -> In k (Dict.keys metr')) /\
    (forall k, ~ In k keys -> Dict.get metr' k = Dict.get metr k).
Proof.
  intros Hlen. split; [apply store_fields_app; simpl; lia|].
  exists (Dict.update metr (paired keys vals)).
  rewrite store_fields_eq by lia. cbn [skipn].
  destruct (Nat.leb_spec (List.length keys + 0) (List.length vals)); [|lia].
  split; [reflexivity|]. unfold paired. split.
  - intros k Hk.
    assert (Hin : In k (Dict.keys (combine keys (map coerce vals)))).
    { rewrite keys_combine; [exact Hk|]. rewrite length_map. lia. }
    destruct (get_update_some metr _ k Hin) as [v [_ Hg]].
    apply get_in in Hg. apply (in_map fst) in Hg. exact Hg.
  - intros k Hk. apply get_update_other. intros Hin.
    apply Hk. eapply in_keys_combine; eassumption.
Qed.

Lemma get_block_record_absent l next k :
  ~ In k (row l) -> Dict.get (block_record l next) k = None.
Proof.
  intros Hk. apply get_none_keys. intros Hin.
  apply Hk. eapply keys_block_record; eassumption.
Qed.

(** X14.  A metrics table without the two columns READ_PAIRS_EXAMINED and
    UNPAIRED_READS_EXAMINED never gives a sample, whatever its values are:
    [get(k, 0)] gives 0 for both, so that the table is stored, taken out
    again by lines 57-61 and reported with the no-reads warning.  A record
    that an earlier block left under the same name is lost with it. *)
Theorem table_without_examined_columns_is_dropped
    (f : log_file) (s_name l next : string) (st : module_state) :
  ~ In "READ_PAIRS_EXAMINED" (row l) ->
  ~ In "UNPAIRED_READS_EXAMINED" (row l) ->
  List.length (row l) <= List.length (row next) ->
  Dict.wf (picard_dupMetrics_data st) ->
  exists st',
    parse_block f s_name l next st = Ok tt st' /\
    Dict.get (picard_dupMetrics_data st') s_name = None /\
    (forall other, other <> s_name ->
       Dict.get (picard_dupMetrics_data st') other
         = Dict.get (picard_dupMetrics_data st) other) /\
    trace st' = trace st ++ announce f s_name st
                  ++ [log_warn (no_reads_message s_name)].
Proof.
  intros Hrpe Hure Hlen Hwf.
  exists (dropped s_name (stored f s_name l next st)).
  rewrite parse_block_eq. unfold covers.
  destruct (Nat.leb_spec (List.length (row l)) (List.length (row next))); [|lia].
  unfold no_reads, get_is_zero.
  rewrite !get_block_record_absent by assumption. cbn [andb].
  split; [reflexivity|].
  cbn [dropped stored with_event with_data picard_dupMetrics_data trace].
  rewrite pop_set. split; [|split].
  - now apply get_pop_same.
  - intros other Hother. now apply get_pop_other.
  - now rewrite <- app_assoc.
Qed.

(** X15.  An examined-reads count that is not a number counts as reads.
    When the value under READ_PAIRS_EXAMINED or UNPAIRED_READS_EXAMINED is a
    text that [float] refuses, the text is stored, and [text == 0] is
    false: the sample passes lines 57-61 without a warning, whatever the
    other count is.  Its derived metrics can then not be computed: lines
    98-104 raise on this record. *)
Theorem text_examined_count_is_kept
    (f : log_file) (s_name l next : string) (st : module_state)
    (i : nat) (k text : string) :
  In k ["READ_PAIRS_EXAMINED"; "UNPAIRED_READS_EXAMINED"] ->
  nth_error (row l) i = Some k ->
  (forall j, i < j -> nth_error (row l) j <> Some k) ->
  nth_error (row next) i = Some text ->
  py_float text = None ->
  List.length (row l) <= List.length (row next) ->
  exists st' metr,
    parse_block f s_name l next st = Ok tt st' /\
    Dict.get (picard_dupMetrics_data st') s_name = Some metr /\
    Dict.get metr k = Some (VStr text) /\
    trace st' = trace st ++ announce f s_name st /\
    exists e metr', derive_metrics metr = Raise e metr'.
Proof.
  intros Hk Hi Hlast Htext Hfloat Hlen.
  assert (Hget : Dict.get (block_record l next) k = Some (VStr text)).
  { unfold block_record, paired.
    apply (get_update_combine_at _ _ _ i); [exact Hi| |exact Hlast].
    rewrite nth_error_map, Htext. cbn [option_map]. unfold coerce.
    now rewrite Hfloat. }
  assert (Hreads : no_reads (block_record l next) = false).
  { unfold no_reads, get_is_zero.
    destruct Hk as [<-|[<-|[]]]; rewrite Hget; cbn [py_eq_zero andb].
    - reflexivity.
    - apply andb_false_r. }
  exists (stored f s_name l next st), (block_record l next).
  rewrite parse_block_eq. unfold covers.
  destruct (Nat.leb_spec (List.length (row l)) (List.length (row next))); [|lia].
  rewrite Hreads. split; [reflexivity|].
  split; [apply stored_get|]. split; [exact Hget|]. split; [reflexivity|].
  pose proof (derive_metrics_cases (block_record l next)) as Hc.
  rewrite derivable_false in Hc.
  - destruct Hc as [e [metr' [Hrun _]]]. now exists e, metr'.
  - right. exists k, text. split; [|exact Hget].
    destruct Hk as [<-|[<-|[]]]; cbn; tauto.
Qed.

End RowProperties.

(** ** The texts that the parser takes from a line *)

Section TextProperties.
Context {host : Host}.

Lemma split_nonempty sep s : PyStr.split sep s <> [].
Proof.
  induction s as [|c s IH]; simpl; [discriminate|].
  destruct (Ascii.eqb c sep); [discriminate|].
  destruct (PyStr.split sep s); discriminate.
Qed.

Lemma concat_split sep s :
  String.concat (String sep EmptyString) (PyStr.split sep s) = s.
Proof.
  induction s as [|c s IH]; [reflexivity|].
  cbn [PyStr.split]. pose proof (split_nonempty sep s) as Hne.
  destruct (Ascii.eqb_spec c sep) as [->|Hc].
  - destruct (PyStr.split sep s) as [|w ws]; [contradiction|].
    cbn [String.concat] in *. rewrite IH. reflexivity.
  - destruct (PyStr.split sep s) as [|w ws]; [contradiction|].
    destruct ws as [|w' ws]; cbn [String.concat] in *.
    + now rewrite IH.
    + rewrite <- IH. reflexivity.
Qed.

(** a field of [s.split(sep)] holds no separator, and only characters of [s] *)
Lemma split_fields sep s :
  Forall (fun w => PyStr.mem sep w = false /\
                   forall c, PyStr.mem c w = true -> PyStr.mem c s = true)
         (PyStr.split sep s).
Proof.
  induction s as [|a s IH]; cbn [PyStr.split].
  - apply Forall_cons; [|apply Forall_nil]. split; [reflexivity|discriminate].
  - assert (Hup : Forall (fun w => PyStr.mem sep w = false /\
                    forall c, PyStr.mem c w = true ->
                              PyStr.mem c (String a s) = true)
                  (PyStr.split sep s)).
    { eapply Forall_impl; [|exact IH]. intros w [Hs Hc]. split; [exact Hs|].
      intros c Hw. cbn [PyStr.mem]. rewrite (Hc c Hw). apply orb_true_r. }
    destruct (Ascii.eqb_spec a sep) as [->|Ha].
    + apply Forall_cons; [|exact Hup]. split; [reflexivity|discriminate].
    + destruct (PyStr.split sep s) as [|w ws].
      * apply Forall_cons; [|apply Forall_nil]. split.
        -- cbn [PyStr.mem]. destruct (Ascii.eqb_spec sep a) as [->|_];
             [contradiction|reflexivity].
        -- intros c. cbn [PyStr.mem]. rewrite !orb_false_r. intros ->.
           reflexivity.
      * inversion IH as [|? ? [Hs Hc] Hws]; subst.
        inversion Hup as [|? ? _ Hws']; subst.
        apply Forall_cons; [|exact Hws']. split.
        -- cbn [PyStr.mem]. rewrite Hs.
           destruct (Ascii.eqb_spec sep a) as [->|_]; [contradiction|reflexivity].
        -- intros c. cbn [PyStr.mem].
           destruct (Ascii.eqb c a); [reflexivity|]. cbn [orb]. apply Hc.
Qed.

Lemma rstrip_line_ends n : PyStr.rstrip PyStr.newline (line_ends n) = EmptyString.
Proof.
  induction n as [|n IH]; [reflexivity|].
  cbn [line_ends PyStr.newline append PyStr.rstrip]. rewrite IH. reflexivity.
Qed.

Lemma rstrip_app_line_ends l n :
  PyStr.rstrip PyStr.newline (l ++ line_ends n) = PyStr.rstrip PyStr.newline l.
Proof.
  induction l as [|c l IH]; cbn [append PyStr.rstrip].
  - apply rstrip_line_ends.
  - rewrite IH. reflexivity.
Qed.

(** X16.  The fields of a row (line 50) are the line without its line
    ends, cut at the tabs: joined by tabs again they give the line as it
    was, up to the line ends at its end; no field holds a tab; and the
    number of line ends at the end of the line, none included, has no
    influence on the fields. *)
Theorem row_round_trip (l : string) (n : nat) :
  String.concat (String PyStr.tab EmptyString) (row l) = PyStr.rstrip PyStr.newline l /\
  Forall (fun w => PyStr.mem PyStr.tab w = false) (row l) /\
  row (l ++ line_ends n) = row l.
Proof.
  unfold row. split; [apply concat_split|]. split.
  - eapply Forall_impl; [|apply split_fields]. intros w [Hw _]. exact Hw.
  - now rewrite rstrip_app_line_ends.
Qed.

Lemma mem_lstrip c cs s :
  PyStr.mem c (PyStr.lstrip cs s) = true -> PyStr.mem c s = true.
Proof.
  induction s as [|a s IH]; cbn [PyStr.lstrip]; [discriminate|].
  destruct (PyStr.mem a cs); [|tauto].
  intros H. cbn [PyStr.mem]. rewrite (IH H). apply orb_true_r.
Qed.

Lemma mem_rstrip c cs s :
  PyStr.mem c (PyStr.rstrip cs s) = true -> PyStr.mem c s = true.
Proof.
  induction s as [|a s IH]; cbn [PyStr.rstrip]; [discriminate|].
  destruct (PyStr.mem a cs && PyStr.is_empty (PyStr.rstrip cs s)); [discriminate|].
  cbn [PyStr.mem]. destruct (Ascii.eqb c a); [reflexivity|]. exact IH.
Qed.

Lemma last_forall {A} (P : A -> Prop) (xs : list A) (d : A) :
  Forall P xs -> P d -> P (last xs d).
Proof.
  induction 1 as [|x xs Hx Hxs IH]; intros Hd; [exact Hd|].
  destruct xs as [|y ys]; [exact Hx|]. exact (IH Hd).
Qed.

Lemma basename_chars s :
  PyStr.mem "/"%char (PyStr.basename s) = false /\
  forall c, PyStr.mem c (PyStr.basename s) = true -> PyStr.mem c s = true.
Proof.
  unfold PyStr.basename.
  apply (last_forall (fun w => PyStr.mem "/"%char w = false /\
           forall c, PyStr.mem c w = true -> PyStr.mem c s = true)).
  - apply split_fields.
  - split; [reflexivity|discriminate].
Qed.

Lemma solid_spec s c :
  solid s = true -> PyStr.mem c s = true -> PyStr.is_space c = false.
Proof.
  unfold solid. induction s as [|a s IH]; cbn [all_chars PyStr.mem]; [discriminate|].
  intros Hs Hc. apply andb_prop in Hs as [Ha Hs].
  destruct (Ascii.eqb_spec c a) as [->|_].
  - now apply negb_true_iff in Ha.
  - exact (IH Hs Hc).
Qed.

Lemma take_nonspace_solid s : solid (PyStr.take_nonspace s) = true.
Proof.
  unfold solid. induction s as [|c s IH]; [reflexivity|].
  cbn [PyStr.take_nonspace]. destruct (PyStr.is_space c) eqn:Hc; [reflexivity|].
  cbn [all_chars]. now rewrite Hc, IH.
Qed.

Lemma match_input_at_group s g :
  PyStr.match_input_at s = Some g -> PyStr.is_empty g = false /\ solid g = true.
Proof.
  unfold PyStr.match_input_at.
  destruct (PyStr.istartswith "input" s); [|discriminate].
  destruct (PyStr.drop 5 s) as [|c r]; [discriminate|].
  destruct (Ascii.eqb c "="%char); [|destruct (PyStr.is_space c); [|discriminate]].
  - destruct (PyStr.is_empty (PyStr.take_nonspace r)) eqn:He; [discriminate|].
    intros [= <-]. split; [exact He|apply take_nonspace_solid].
  - destruct (PyStr.is_empty (PyStr.take_nonspace (PyStr.skip_space r))) eqn:He;
      [discriminate|].
    intros [= <-]. split; [exact He|apply take_nonspace_solid].
Qed.

Lemma search_input_group l g :
  PyStr.search_input l = Some g -> PyStr.is_empty g = false /\ solid g = true.
Proof.
  induction l as [|c l IH]; cbn [PyStr.search_input].
  - destruct (PyStr.match_input_at EmptyString) eqn:Hm; [|discriminate].
    intros [= <-]. exact (match_input_at_group _ _ Hm).
  - destruct (PyStr.match_input_at (String c l)) eqn:Hm; [|exact IH].
    intros [= <-]. exact (match_input_at_group _ _ Hm).
Qed.

(** X17.  The name that a block-start line gives is [clean_s_name] of a
    text that is cut out of the group of the pattern: the group is not
    empty and holds no whitespace, and what lines 39-41 make of it holds
    no slash, no whitespace, and no character that the group does not
    hold. *)
Theorem input_name_has_no_path (root l n : string) :
  name_from_input root l = Some n ->
  exists g,
    PyStr.search_input l = Some g /\
    g <> EmptyString /\
    solid g = true /\
    n = clean_s_name (name_candidate g) root /\
    PyStr.mem "/"%char (name_candidate g) = false /\
    solid (name_candidate g) = true /\
    (forall c, PyStr.mem c (name_candidate g) = true -> PyStr.mem c g = true).
Proof.
  unfold name_from_input.
  destruct (PyStr.search_input l) as [g|] eqn:Hs; [|discriminate].
  intros [= <-]. exists g.
  destruct (search_input_group l g Hs) as [Hne Hsolid].
  destruct (basename_chars (PyStr.strip "[]" g)) as [Hslash Hsub].
  assert (Hin : forall c, PyStr.mem c (name_candidate g) = true ->
                          PyStr.mem c g = true).
  { intros c Hc. unfold name_candidate in Hc. apply Hsub in Hc.
    unfold PyStr.strip in Hc. apply mem_rstrip, mem_lstrip in Hc. exact Hc. }
  split; [reflexivity|]. split; [intros ->; discriminate|].
  split; [exact Hsolid|]. split; [reflexivity|]. split; [exact Hslash|].
  split; [|exact Hin].
  assert (Hall : forall s, (forall c, PyStr.mem c s = true -> PyStr.is_space c = false) ->
                           solid s = true).
  { unfold solid. induction s as [|a s IH]; intros Hc; [reflexivity|].
    cbn [all_chars]. rewrite (Hc a), IH; [reflexivity| |].
    - intros c Hm. apply Hc. cbn [PyStr.mem]. rewrite Hm. apply orb_true_r.
    - cbn [PyStr.mem]. now rewrite Ascii.eqb_refl. }
  apply Hall. intros c Hc. exact (solid_spec g c Hsolid (Hin c Hc)).
Qed.

End TextProperties.

(** ** The forms of the INPUT directive *)

Section InputDirective.
Context {host : Host}.

Lemma istartswith_lower p : forall s,
  PyStr.istartswith p s = PyStr.startswith p (PyStr.lower s).
Proof.
  induction p as [|a p IH]; intros [|b s]; cbn; try reflexivity.
  now rewrite IH.
Qed.

Lemma lower_app s t : PyStr.lower (s ++ t) = (PyStr.lower s ++ PyStr.lower t)%string.
Proof. induction s as [|c s IH]; cbn; [reflexivity|now rewrite IH]. Qed.

Lemma take_nonspace_app g tail :
  solid g = true -> ends_group tail = true ->
  PyStr.take_nonspace (g ++ tail) = g.
Proof.
  unfold solid. intros Hg Ht. induction g as [|c g IH]; cbn [append].
  - destruct tail as [|c t]; [reflexivity|].
    cbn in Ht. cbn [PyStr.take_nonspace]. now rewrite Ht.
  - cbn [all_chars] in Hg. apply andb_prop in Hg as [Hc Hg].
    apply negb_true_iff in Hc. cbn [PyStr.take_nonspace].
    rewrite Hc, (IH Hg). reflexivity.
Qed.

Lemma skip_space_app sep c g tail :
  all_chars PyStr.is_space sep = true -> PyStr.is_space c = false ->
  PyStr.skip_space (sep ++ String c g ++ tail) = (String c g ++ tail)%string.
Proof.
  intros Hs Hc. induction sep as [|a sep IH]; cbn [append PyStr.skip_space].
  - now rewrite Hc.
  - cbn [all_chars] in Hs. apply andb_prop in Hs as [Ha Hs].
    rewrite Ha. exact (IH Hs).
Qed.

(** the pattern matches where the directive starts *)
Lemma match_input_at_directive kw sep g tail :
  PyStr.lower kw = "input" ->
  sep = "=" \/ (sep <> EmptyString /\ all_chars PyStr.is_space sep = true) ->
  g <> EmptyString -> solid g = true -> ends_group tail = true ->
  PyStr.match_input_at (kw ++ sep ++ g ++ tail) = Some g.
Proof.
  intros Hkw Hsep Hne Hg Ht.
  assert (Hgrp : PyStr.take_nonspace (g ++ tail) = g)
    by now apply take_nonspace_app.
  assert (Hfull : PyStr.is_empty g = false) by (destruct g; [contradiction|reflexivity]).
  unfold PyStr.match_input_at. rewrite istartswith_lower, lower_app, Hkw.
  cbn [append PyStr.startswith Ascii.eqb Bool.eqb andb].
  destruct kw as [|k1 [|k2 [|k3 [|k4 [|k5 [|k6 kw]]]]]]; try discriminate Hkw.
  cbn [append PyStr.drop].
  destruct Hsep as [->|[Hsne Hblank]].
  - cbn [append Ascii.eqb Bool.eqb andb]. rewrite Hgrp, Hfull. reflexivity.
  - destruct sep as [|c sep]; [contradiction|].
    cbn [all_chars] in Hblank. apply andb_prop in Hblank as [Hc Hblank].
    cbn [append]. destruct (Ascii.eqb_spec c "="%char) as [->|_]; [discriminate Hc|].
    rewrite Hc. destruct g as [|a g]; [contradiction|].
    assert (Ha : PyStr.is_space a = false).
    { unfold solid in Hg. cbn [all_chars] in Hg.
      apply andb_prop in Hg as [Ha _]. now apply negb_true_iff in Ha. }
    rewrite (skip_space_app sep a g tail Hblank Ha), Hgrp. reflexivity.
Qed.

(** no match starts in a text that does not hold the word, when the word
    itself follows: a match cannot lie across the two *)
Lemma match_input_at_before pre kw rest :
  pre <> EmptyString ->
  PyStr.startswith "input" (PyStr.lower pre) = false ->
  PyStr.lower kw = "input" ->
  PyStr.match_input_at (pre ++ kw ++ rest) = None.
Proof.
  intros Hne Hpre Hkw. unfold PyStr.match_input_at.
  rewrite istartswith_lower, !lower_app, Hkw.
  assert (Hno : PyStr.startswith "input"
                  (PyStr.lower pre ++ "input" ++ PyStr.lower rest) = false).
  { destruct pre as [|c1 pre]; [contradiction|]. clear Hne.
    cbn [PyStr.lower append PyStr.startswith] in *.
    destruct (Ascii.eqb "i" (PyStr.to_lower c1)); [|reflexivity].
    cbn [andb] in *. destruct pre as [|c2 pre]; [reflexivity|].
    cbn [PyStr.lower append PyStr.startswith] in *.
    destruct (Ascii.eqb "n" (PyStr.to_lower c2)); [|reflexivity].
    cbn [andb] in *. destruct pre as [|c3 pre]; [reflexivity|].
    cbn [PyStr.lower append PyStr.startswith] in *.
    destruct (Ascii.eqb "p" (PyStr.to_lower c3)); [|reflexivity].
    cbn [andb] in *. destruct pre as [|c4 pre]; [reflexivity|].
    cbn [PyStr.lower append PyStr.startswith] in *.
    destruct (Ascii.eqb "u" (PyStr.to_lower c4)); [|reflexivity].
    cbn [andb] in *. destruct pre as [|c5 pre]; [reflexivity|].
    cbn [PyStr.lower append PyStr.startswith] in *.
    exact Hpre. }
  now rewrite Hno.
Qed.

Lemma search_input_directive pre : forall kw sep g tail,
  PyStr.contains "input" (PyStr.lower pre) = false ->
  PyStr.lower kw = "input" ->
  sep = "=" \/ (sep <> EmptyString /\ all_chars PyStr.is_space sep = true) ->
  g <> EmptyString -> solid g = true -> ends_group tail = true ->
  PyStr.search_input (pre ++ kw ++ sep ++ g ++ tail) = Some g.
Proof.
  induction pre as [|c pre IH]; intros kw sep g tail Hpre Hkw Hsep Hne Hg Ht.
  - cbn [append].
    pose proof (match_input_at_directive kw sep g tail Hkw Hsep Hne Hg Ht) as Hm.
    destruct (kw ++ sep ++ g ++ tail)%string; cbn [PyStr.search_input];
      now rewrite Hm.
  - cbn [PyStr.lower PyStr.contains] in Hpre.
    apply orb_false_iff in Hpre as [Hhere Hlater].
    cbn [append PyStr.search_input].
    change (String c (pre ++ kw ++ sep ++ g ++ tail))
      with (String c pre ++ kw ++ sep ++ g ++ tail)%string.
    rewrite match_input_at_before; [|discriminate|exact Hhere|exact Hkw].
    now apply IH.
Qed.

(** X18.  The two forms of the directive.  On a line that holds the word
    INPUT, in any mix of cases, for the first time where it is followed
    either by [=] or by a run of whitespace and then by a text without
    whitespace that ends at a blank or at the end of the line, lines 36-41
    take that text as the group, whatever follows it on the line: the name
    is [clean_s_name] of its base name without brackets at its ends. *)
Theorem input_directive_names_sample (root pre kw sep g tail : string) :
  PyStr.contains "input" (PyStr.lower pre) = false ->
  PyStr.lower kw = "input" ->
  sep = "=" \/ (sep <> EmptyString /\ all_chars PyStr.is_space sep = true) ->
  g <> EmptyString -> solid g = true -> ends_group tail = true ->
  name_from_input root (pre ++ kw ++ sep ++ g ++ tail)
    = Some (clean_s_name (PyStr.basename (PyStr.strip "[]" g)) root).
Proof.
  intros Hpre Hkw Hsep Hne Hg Ht. unfold name_from_input.
  now rewrite (search_input_directive pre kw sep g tail).
Qed.

End InputDirective.

(** ** What has been done when the derivation starts *)

Section BeforeDerivation.
Context {host : Host}.
Import DictFacts.

Lemma scanned_collection p st st1 :
  for_each (find_log_files (log_key p)) process_file
    (with_data (fun _ => []) st) = Ok tt st1 ->
  ignore_samples (picard_dupMetrics_data st1) = collected (find_log_files (log_key p)).
Proof.
  intros Hs.
  pose proof (process_files_cases (find_log_files (log_key p))
                (with_data (fun _ => []) st) (Forall_nil _)) as Hscan.
  destruct (forallb block_covers (all_blocks (find_log_files (log_key p)))).
  - destruct Hscan as [st1' [Hs' Hd]]. rewrite Hs in Hs'. injection Hs' as <-.
    rewrite Hd. reflexivity.
  - destruct Hscan as [st1' Hs']. rewrite Hs in Hs'. discriminate.
Qed.

(** X19.  The data file and the general statistics come before the
    derived metrics.  When the loop over the files has run to its end and
    the derivation of lines 97-104 raises, line 76 has already written the
    data file from the records as they were parsed, the column header has
    been added and every sample that is left - also one whose derived
    metrics were never reached - has been merged into the general
    statistics; the plot section is what is missing. *)
Theorem outputs_precede_derivation (p : params) (st st1 : module_state)
    (e : exn) (st' : module_state) :
  for_each (find_log_files (log_key p)) process_file
    (with_data (fun _ => []) st) = Ok tt st1 ->
  parse_reports p st = Raise e st' ->
  let raw := ignore_samples (picard_dupMetrics_data st1) in
  raw <> [] /\
  trace st' = trace st1 ++ [write_data_file raw (data_filename p)] /\
  general_stats_headers st' =
    Dict.set (general_stats_headers st) "PERCENT_DUPLICATION"
             (percent_duplication_header p) /\
  (forall s metr,
     Dict.get raw s = Some metr ->
     Dict.get (general_stats_data st') s
       = Some (Dict.update (entry (general_stats_data st) s) metr)).
Proof.
  intros Hs Hrun raw.
  pose proof (parse_reports_after_scan p st st1 Hs) as Hafter.
  pose proof (parse_reports_stats p st st1 Hs) as [Hg Hh].
  pose proof (scanned_collection p st st1 Hs) as Hraw.
  cbv zeta in Hafter. fold raw in Hafter, Hg, Hh, Hraw.
  rewrite Hrun in Hg, Hh. cbn [state_of] in Hg, Hh.
  assert (Hne : raw <> []).
  { intros Hnil. rewrite Hnil in Hafter. cbn [derive_all] in Hafter.
    destruct Hafter as [st2 [Hok _]]. rewrite Hrun in Hok. discriminate. }
  split; [exact Hne|]. split; [|split].
  - destruct (derive_all raw) as [[] data'|e' data'].
    + destruct Hafter as [st2 [Hok _]]. rewrite Hrun in Hok. discriminate.
    + destruct Hafter as [st2 [Hr [_ Ht]]]. rewrite Hrun in Hr.
      injection Hr as _ <-. exact Ht.
  - destruct raw; [contradiction|exact Hh].
  - intros s metr Hget. rewrite Hg. apply merge_stats_in; [| |exact Hget].
    + rewrite Hraw. apply wf_collected.
    + apply get_in in Hget. apply (in_map fst) in Hget. exact Hget.
Qed.

End BeforeDerivation.

(** ** The plotted fields *)

Section PlottedFields.
Context {host : Host}.
Import DictFacts.

(** what lines 98-104 leave when they run to their end *)
Lemma derive_metrics_result (metr metr' : record) :
  derive_metrics metr = Ok tt metr' ->
  exists rpd rpe ure urd rpod unm,
    metr' =
      Dict.update metr
        [ ("READS_IN_DUPLICATE_PAIRS", VFloat (2 * rpd)%float);
          ("READS_IN_UNIQUE_PAIRS", VFloat (2 * (rpe - rpd))%float);
          ("READS_IN_UNIQUE_UNPAIRED", VFloat (ure - urd)%float);
          ("READS_IN_DUPLICATE_PAIRS_OPTICAL", VFloat (2 * rpod)%float);
          ("READS_IN_DUPLICATE_PAIRS_NONOPTICAL",
             VFloat (2 * rpd - 2 * rpod)%float);
          ("READS_IN_DUPLICATE_UNPAIRED", VFloat urd);
          ("READS_UNMAPPED", unm) ].
Proof.
  intros Hrun.
  assert (Hd : derivable metr = true).
  { pose proof (derive_metrics_cases metr) as Hc.
    destruct (derivable metr); [reflexivity|].
    destruct Hc as [e [m [Hr _]]]. congruence. }
  apply derivable_spec in Hd as [Hnum [unm Hunm]].
  destruct (Hnum "READ_PAIR_DUPLICATES") as [rpd Hrpd]; [cbn; tauto|].
  destruct (Hnum "READ_PAIRS_EXAMINED") as [rpe Hrpe]; [cbn; tauto|].
  destruct (Hnum "UNPAIRED_READS_EXAMINED") as [ure Hure]; [cbn; tauto|].
  destruct (Hnum "UNPAIRED_READ_DUPLICATES") as [urd Hurd]; [cbn; tauto|].
  destruct (Hnum "READ_PAIR_OPTICAL_DUPLICATES") as [rpod Hrpod]; [cbn; tauto|].
  rewrite (derive_metrics_any_unmapped metr rpd rpe ure urd rpod unm) in Hrun
    by assumption.
  injection Hrun as <-. now exists rpd, rpe, ure, urd, rpod, unm.
Qed.


End PlottedFields.

(** ** The derived metrics of the records of a call *)

Section CallDerivedClaims.
Context {host : Host}.
Import DictFacts.

Lemma get_app {V} (a b : dict V) k :
  Dict.get (a ++ b) k =
  match Dict.get a k with Some v => Some v | None => Dict.get b k end.
Proof.
  induction a as [|[k0 v0] a IH]; simpl; [reflexivity|].
  destruct (String.eqb k k0); [reflexivity|exact IH].
Qed.

(** the loop of lines 97-104 gets to a record when lines 98-104 run to
    their end on every record before it; what comes behind it has no
    influence on what it is given *)
Lemma derive_all_reaches done : forall s metr rest,
  Forall (fun kv => exists m', derive_metrics (snd kv) = Ok tt m') done ->
  exists done' rest',
    state_of (derive_all (done ++ (s, metr) :: rest))
      = done' ++ (s, state_of (derive_metrics metr)) :: rest' /\
    Dict.keys done' = Dict.keys done.
Proof.
  induction done as [|[s0 m0] done IH]; intros s metr rest Hd.
  - exists [], (match derive_metrics metr with
                | Ok _ _ => state_of (derive_all rest)
                | Raise _ _ => rest
                end).
    cbn [app derive_all].
    destruct (derive_metrics metr) as [[] m'|e m']; cbn [state_of].
    + destruct (derive_all rest) as [[] r'|e r']; split; reflexivity.
    + split; reflexivity.
  - inversion Hd as [|? ? [m0' Hm0] Hd']; subst. cbn [snd] in Hm0.
    destruct (IH s metr rest Hd') as [done' [rest' [Hst Hk]]].
    exists ((s0, m0') :: done'), rest'. cbn [app derive_all]. rewrite Hm0.
    destruct (derive_all (done ++ (s, metr) :: rest)) as [[] d'|e d'];
      cbn [state_of] in *; rewrite Hst; (split; [reflexivity|]);
      unfold Dict.keys in *; cbn [map fst]; now rewrite Hk.
Qed.

Lemma derived_from_all data data' :
  derived_from data data' ->
  Forall (fun kv => exists m', derive_metrics (snd kv) = Ok tt m') data.
Proof.
  induction 1 as [|kv kv' data data' [_ Hm] _ IH]; constructor; [|exact IH].
  now exists (snd kv').
Qed.

(** the collection that a call leaves, when the loop over the files has
    run to its end *)
Lemma parse_reports_data p st st1 :
  for_each (find_log_files (log_key p)) process_file
    (with_data (fun _ => []) st) = Ok tt st1 ->
  picard_dupMetrics_data (state_of (parse_reports p st))
    = state_of (derive_all (ignore_samples (picard_dupMetrics_data st1))).
Proof.
  intros Hs. pose proof (parse_reports_after_scan p st st1 Hs) as Hafter.
  cbv zeta in Hafter.
  destruct (derive_all (ignore_samples (picard_dupMetrics_data st1)))
    as [[] data'|e data']; destruct Hafter as [st' [-> [Hd _]]]; exact Hd.
Qed.

(** C1, amended.  The loop of lines 97-104 runs over the records that are
    left after the loop over the files and the exclusion filter, in the
    order of the collection, and an exception ends it.  A record of that
    collection whose six raw fields READ_PAIR_DUPLICATES,
    READ_PAIRS_EXAMINED, UNPAIRED_READS_EXAMINED, UNPAIRED_READ_DUPLICATES,
    READ_PAIR_OPTICAL_DUPLICATES and UNMAPPED_READS are numbers is given
    exactly the seven derived fields of the specification's table, by its
    formulas and in its order, when lines 98-104 run to their end on every
    record before it, and so whenever [parse_reports] returns: the record
    that the call leaves under its name is the parsed one with the seven
    assignments made, whether records behind it make the call raise or
    not.  Each derived field then holds the value of its formula, and
    every other field is as it was parsed. *)
Theorem derived_fields_of_surviving_records (p : params) (st st1 : module_state)
    (done : dict record) (s : string) (metr : record) (rest : dict record)
    (rpd rpe ure urd rpod unm : float) :
  for_each (find_log_files (log_key p)) process_file
    (with_data (fun _ => []) st) = Ok tt st1 ->
  ignore_samples (picard_dupMetrics_data st1) = done ++ (s, metr) :: rest ->
  Dict.get metr "READ_PAIR_DUPLICATES" = Some (VFloat rpd) ->
  Dict.get metr "READ_PAIRS_EXAMINED" = Some (VFloat rpe) ->
  Dict.get metr "UNPAIRED_READS_EXAMINED" = Some (VFloat ure) ->
  Dict.get metr "UNPAIRED_READ_DUPLICATES" = Some (VFloat urd) ->
  Dict.get metr "READ_PAIR_OPTICAL_DUPLICATES" = Some (VFloat rpod) ->
  Dict.get metr "UNMAPPED_READS" = Some (VFloat unm) ->
  let derived := spec_derived_fields rpd rpe ure urd rpod unm in
  (Forall (fun kv => exists m', derive_metrics (snd kv) = Ok tt m') done \/
   (exists n st', parse_reports p st = Ok n st') ->
   Dict.get (picard_dupMetrics_data (state_of (parse_reports p st))) s
     = Some (Dict.update metr derived)) /\
  (forall k v, In (k, v) derived -> Dict.get (Dict.update metr derived) k = Some v) /\
  (forall k, ~ In k (Dict.keys derived) ->
     Dict.get (Dict.update metr derived) k = Dict.get metr k).
Proof.
  intros Hs Hsplit Hrpd Hrpe Hure Hurd Hrpod Hunm derived.
  destruct (derive_metrics_on_numbers metr rpd rpe ure urd rpod unm
              Hrpd Hrpe Hure Hurd Hrpod Hunm) as [Hone Hfacets].
  fold derived in Hone, Hfacets. split; [|exact Hfacets].
  intros Hreach.
  assert (Hdone : Forall (fun kv => exists m', derive_metrics (snd kv) = Ok tt m') done).
  { destruct Hreach as [Hd|[n [st' Hrun]]]; [exact Hd|].
    pose proof (parse_reports_after_scan p st st1 Hs) as Hafter.
    cbv zeta in Hafter.
    destruct (derive_all (ignore_samples (picard_dupMetrics_data st1)))
      as [[] data'|e data'] eqn:Hder.
    - apply derive_all_ok, derived_from_all in Hder.
      rewrite Hsplit in Hder. apply Forall_app in Hder. exact (proj1 Hder).
    - destruct Hafter as [st2 [Hr _]]. rewrite Hrun in Hr. discriminate. }
  assert (Hfresh : ~ In s (Dict.keys done)).
  { pose proof (wf_collected (find_log_files (log_key p))) as Hwf.
    rewrite <- (scanned_collection p st st1 Hs), Hsplit in Hwf.
    unfold Dict.wf, Dict.keys in Hwf. rewrite map_app in Hwf. cbn [map fst] in Hwf.
    apply NoDup_remove_2 in Hwf. intros Hin. apply Hwf, in_or_app. now left. }
  rewrite (parse_reports_data p st st1 Hs), Hsplit.
  destruct (derive_all_reaches done s metr rest Hdone) as [done' [rest' [-> Hk]]].
  rewrite get_app. rewrite <- Hk in Hfresh.
  apply get_none_keys in Hfresh. rewrite Hfresh.
  cbn [Dict.get]. rewrite String.eqb_refl, Hone. reflexivity.
Qed.

End CallDerivedClaims.

(** ** What the general statistics are given *)

Section GeneralStatsMerge.
Context {host : Host}.
Import DictFacts.

Lemma derived_from_get_raw data data' s raw :
  derived_from data data' -> Dict.get data s = Some raw ->
  exists metr', Dict.get data' s = Some metr' /\ derive_metrics raw = Ok tt metr'.
Proof.
  induction 1 as [|[s0 m0] [s0' m0'] data data' [Hk Hm] _ IH]; simpl in *;
    [discriminate|].
  subst s0'. destruct (String.eqb s s0).
  - intros [= <-]. now exists m0'.
  - exact IH.
Qed.

(** X10.  When [parse_reports] returns, each sample that the loop over
    the files and the exclusion filter have left is reported, and its entry
    in the general statistics is the entry that was there before the call
    (an empty one if there was none), updated field by field with the
    record of the sample as it was parsed, before lines 97-104: fields of
    that record replace fields of the same name, and a field that the
    parsed record does not hold is in the entry as it was before the call.
    The derived fields, which the record of the collection holds when the
    call is over, are computed afterwards and are not copied.  Entries of
    names that are not left are untouched. *)
Theorem general_stats_merge_raw_fields (p : params) (st st1 : module_state)
    (n : nat) (st' : module_state) :
  for_each (find_log_files (log_key p)) process_file
    (with_data (fun _ => []) st) = Ok tt st1 ->
  parse_reports p st = Ok n st' ->
  let raws := ignore_samples (picard_dupMetrics_data st1) in
  (forall s raw,
     Dict.get raws s = Some raw ->
     exists metr',
       derive_metrics raw = Ok tt metr' /\
       Dict.get (picard_dupMetrics_data st') s = Some metr' /\
       Dict.get (general_stats_data st') s
         = Some (Dict.update (entry (general_stats_data st) s) raw) /\
       (forall k, In k derived_names -> exists v, Dict.get metr' k = Some v) /\
       (forall k, Dict.get raw k = None ->
          Dict.get (Dict.update (entry (general_stats_data st) s) raw) k
            = Dict.get (entry (general_stats_data st) s) k)) /\
  (forall s,
     Dict.get raws s = None ->
     Dict.get (picard_dupMetrics_data st') s = None /\
     Dict.get (general_stats_data st') s = Dict.get (general_stats_data st) s).
Proof.
  intros Hs Hrun raws.
  pose proof (parse_reports_stats p st st1 Hs) as [Hg _].
  rewrite Hrun in Hg. cbn [state_of] in Hg. fold raws in Hg.
  pose proof (parse_reports_after_scan p st st1 Hs) as Hafter.
  cbv zeta in Hafter. fold raws in Hafter.
  assert (Hwf : Dict.wf raws).
  { unfold raws. rewrite (scanned_collection p st st1 Hs). apply wf_collected. }
  destruct (derive_all raws) as [[] data'|e data'] eqn:Hder.
  2: { destruct Hafter as [st2 [Hr _]]. rewrite Hrun in Hr. discriminate. }
  destruct Hafter as [st2 [Hr [Hd _]]]. rewrite Hrun in Hr.
  injection Hr as _ <-.
  pose proof (derive_all_ok _ _ Hder) as Hfrom.
  split.
  - intros s raw Hraw.
    destruct (derived_from_get_raw _ _ s raw Hfrom Hraw) as [metr' [Hget Hm]].
    exists metr'. split; [exact Hm|]. split; [now rewrite Hd|].
    split; [|split].
    + rewrite Hg. apply merge_stats_in; [exact Hwf| |exact Hraw].
      apply get_in in Hraw. apply (in_map fst) in Hraw. exact Hraw.
    + intros k Hk.
      destruct (derive_metrics_result raw metr' Hm)
        as [rpd [rpe [ure [urd [rpod [unm ->]]]]]].
      unfold Dict.update. cbn [fold_left fst snd].
      cbn [In derived_names] in Hk.
      repeat (destruct Hk as [<-|Hk];
              [eexists; rewrite ?get_set; reflexivity|]).
      contradiction.
    + intros k Hk. apply get_update_other. now apply get_none_keys.
  - intros s Hnone. split.
    + rewrite Hd. pose proof (derived_from_mem _ _ s Hfrom) as Hmem.
      unfold Dict.mem in Hmem. rewrite Hnone in Hmem.
      destruct (Dict.get data' s); [discriminate|reflexivity].
    + rewrite Hg. apply merge_stats_other. now apply get_none_keys.
Qed.

End GeneralStatsMerge.

(** * Worked examples *)

Section Examples.
Import Sample.

(** The worked example of the specification on one record: from the raw
    counts 10, 100, 0, 0, 2 and 5 the derived fields are 20, 180, 0, 4, 16,
    0 and 5, added in this order. *)
Lemma derive_metrics_worked_record :
  derive_metrics counts =
  Ok tt (counts ++
         [ ("READS_IN_DUPLICATE_PAIRS", VFloat 20);
           ("READS_IN_UNIQUE_PAIRS", VFloat 180);
           ("READS_IN_UNIQUE_UNPAIRED", VFloat 0);
           ("READS_IN_DUPLICATE_PAIRS_OPTICAL", VFloat 4);
           ("READS_IN_DUPLICATE_PAIRS_NONOPTICAL", VFloat 16);
           ("READS_IN_DUPLICATE_UNPAIRED", VFloat 0);
           ("READS_UNMAPPED", VFloat 5) ]).
Proof.
  exact (proj1 (derive_metrics_on_numbers counts 10 100 0 0 2 5
                  eq_refl eq_refl eq_refl eq_refl eq_refl eq_refl)).
Defined.

(** A value row with one field less than its header row: the call on the
    two files raises [IndexError] in the first one. *)
Lemma short_row_sample :
  covers header_row short_row = false /\
  exists st', parse_reports (host := host_of [short_log; full_log])
                default_params fresh = Raise IndexError st'.
Proof.
  split; [vm_compute; reflexivity|].
  refine (proj2 (short_value_row_raises (host := host_of [short_log; full_log])
                   default_params fresh short_log "sampleA" header_row short_row
                   _ _ _)).
  - left; reflexivity.
  - vm_compute. left; reflexivity.
  - vm_compute; reflexivity.
Defined.

(** The specification's account of a short value row fails on these two
    files: the call returns no count. *)
Lemma short_row_is_not_dropped :
  ~ spec_short_row_is_dropped (host := host_of [short_log; full_log])
      default_params fresh.
Proof.
  intros Hspec.
  destruct (Hspec short_log "sampleA" header_row short_row)
    as [count [st' [Hrun _]]].
  - left; reflexivity.
  - vm_compute. left; reflexivity.
  - vm_compute; reflexivity.
  - vm_compute in Hrun. discriminate Hrun.
Qed.

(** A record without UNMAPPED_READS: the call raises [KeyError]. *)
Lemma missing_field_sample :
  In ("sampleA", old_record)
     (ignore_samples (host := host_of [unmapped_missing_log])
        (picard_dupMetrics_data (scanned [unmapped_missing_log]))) /\
  exists e st', parse_reports (host := host_of [unmapped_missing_log])
                  default_params fresh = Raise e st'.
Proof.
  assert (Hin : In ("sampleA", old_record)
     (ignore_samples (host := host_of [unmapped_missing_log])
        (picard_dupMetrics_data (scanned [unmapped_missing_log]))))
    by (vm_compute; left; reflexivity).
  split; [exact Hin|].
  destruct (missing_derived_input_raises (host := host_of [unmapped_missing_log])
              default_params fresh (scanned [unmapped_missing_log])
              "sampleA" old_record) as [e [st' [Hrun _]]].
  - vm_compute; reflexivity.
  - exact Hin.
  - left. exists "UNMAPPED_READS". split; [cbn; tauto|reflexivity].
  - exists e, st'. exact Hrun.
Defined.

(** The specification's account of a missing field fails on this file: the
    call returns no count. *)
Lemma missing_field_is_not_soft :
  ~ spec_missing_input_is_soft (host := host_of [unmapped_missing_log])
      default_params fresh.
Proof.
  intros Hspec.
  destruct (Hspec (scanned [unmapped_missing_log]) "sampleA" old_record)
    as [count [st' [Hrun _]]].
  - vm_compute; reflexivity.
  - vm_compute; left; reflexivity.
  - exists "UNMAPPED_READS". split; [cbn; tauto|left; reflexivity].
  - vm_compute in Hrun. discriminate Hrun.
Qed.

(** A sample without reads and a sample with reads in one file: the call
    returns one sample, and the one without reads has been taken out with a
    warning. *)
Lemma no_reads_sample :
  parse_reports (host := host_of [empty_log]) default_params fresh
    = Ok 1 (final [empty_log]) /\
  (forall s metr, In (s, metr) (picard_dupMetrics_data (final [empty_log])) ->
     no_reads metr = false) /\
  Dict.get (picard_dupMetrics_data (final [empty_log])) "sampleA" = None /\
  In (log_warn (no_reads_message "sampleA")) (trace (final [empty_log])).
Proof.
  assert (Hrun : parse_reports (host := host_of [empty_log]) default_params fresh
                 = Ok 1 (final [empty_log])) by (vm_compute; reflexivity).
  split; [exact Hrun|]. split; [|split].
  - exact (proj1 (no_reads_never_reported (host := host_of [empty_log]))
             default_params fresh 1 (final [empty_log]) Hrun).
  - vm_compute; reflexivity.
  - vm_compute. right; left; reflexivity.
Defined.

(** Two files that both name sampleA: the call returns one sample, with
    the counts of the second file, and has reported the duplicate name at
    debug level. *)
Lemma duplicate_name_sample :
  parse_reports (host := host_of [first_log; second_log]) default_params fresh
    = Ok 1 (final [first_log; second_log]) /\
  Dict.wf (picard_dupMetrics_data (final [first_log; second_log])) /\
  (exists metr,
     Dict.get (picard_dupMetrics_data (final [first_log; second_log])) "sampleA"
       = Some metr /\
     Dict.get metr "READ_PAIRS_EXAMINED" = Some (VFloat 200)) /\
  In (log_debug (duplicate_message "second.txt" "sampleA"))
     (trace (final [first_log; second_log])).
Proof.
  assert (Hrun : parse_reports (host := host_of [first_log; second_log])
                   default_params fresh
                 = Ok 1 (final [first_log; second_log])) by (vm_compute; reflexivity).
  split; [exact Hrun|]. split; [|split].
  - exact (proj1 (proj1 (last_block_wins (host := host_of [first_log; second_log]))
                    default_params fresh 1 (final [first_log; second_log]) Hrun)).
  - eexists. split; vm_compute; reflexivity.
  - vm_compute. right; left; reflexivity.
Defined.

(** The specification's account of a name met twice fails on these two
    files: no warning is logged. *)
Lemma duplicate_is_not_warned :
  ~ spec_duplicate_is_warned (host := host_of [first_log; second_log])
      default_params fresh.
Proof.
  intros Hspec.
  destruct (Hspec [] "sampleA" header_row full_row [] header_row other_row []
              1 (final [first_log; second_log])) as [_ [_ [msg Hw]]].
  - vm_compute; reflexivity.
  - constructor.
  - vm_compute; reflexivity.
  - vm_compute in Hw.
    repeat (destruct Hw as [Hw|Hw]; [discriminate Hw|]). exact Hw.
Qed.

(** A metrics table with no block-start line before it, twice in one file:
    the first table is parsed under the name of the file, the second one is
    passed over. *)
Lemma headless_sample :
  f_lines headless_log
    = [List.hd EmptyString (f_lines headless_log)] ++ header_row
        :: [full_row; header_row; other_row] /\
  file_blocks (host := host_of [headless_log]) headless_log
    = [("headless", header_row, full_row)].
Proof.
  split; [reflexivity|].
  refine (proj2 (proj1 (headless_table_parsed_once (host := host_of [headless_log])
                          headless_log [List.hd EmptyString (f_lines headless_log)]
                          header_row [full_row; header_row; other_row]
                          [header_row; other_row] [] fresh
                          _ _ _ _ _) _)).
  - reflexivity.
  - repeat constructor.
  - vm_compute; reflexivity.
  - reflexivity.
  - repeat constructor.
  - vm_compute; reflexivity.
Defined.

(** The specification's account of a header row without a block-start line
    fails on this file: the row is parsed. *)
Lemma idle_header_is_not_ignored :
  ~ spec_idle_header_is_ignored (host := host_of [headless_log]) headless_log fresh.
Proof.
  intros Hspec. destruct Hspec as [Hblocks _].
  - repeat constructor.
  - vm_compute in Hblocks. discriminate Hblocks.
Qed.

(** On the same file, the header row that comes before any block-start
    line is stored under the name of the file, with the values of the line
    after it: 100 examined pairs, and the text of the library. *)
Lemma header_before_block_start_sample :
  exists metr,
    Dict.get (picard_dupMetrics_data
                (state_of (store_block (host := host_of [headless_log]) headless_log
                             "headless" header_row full_row fresh)))
             "headless" = Some metr /\
    Dict.get metr "READ_PAIRS_EXAMINED" = Some (VFloat 100) /\
    Dict.get metr "LIBRARY" = Some (VStr "lib") /\
    (forall k, In k (row header_row) -> In k (Dict.keys metr)).
Proof.
  destruct (header_before_block_start_is_parsed (host := host_of [headless_log])
              headless_log [List.hd EmptyString (f_lines headless_log)]
              header_row [full_row; header_row; other_row] fresh)
    as [_ [metr [Hget [_ [Hpos Hcov]]]]].
  - reflexivity.
  - repeat constructor.
  - vm_compute; reflexivity.
  - vm_compute; reflexivity.
  - assert (Hrow : row header_row = columns) by (vm_compute; reflexivity).
    exists metr. split; [exact Hget|]. split; [|split].
    + apply (Hpos 2 "READ_PAIRS_EXAMINED" "100"); [reflexivity|reflexivity|].
      intros j Hj Hn. rewrite Hrow in Hn. unfold columns in Hn.
      do 3 (destruct j as [|j]; [lia|]).
      do 4 (destruct j as [|j]; [cbn in Hn; discriminate Hn|]).
      destruct j; cbn in Hn; discriminate Hn.
    + apply (Hpos 0 "LIBRARY" "lib"); [reflexivity|reflexivity|].
      intros j Hj Hn. rewrite Hrow in Hn. unfold columns in Hn.
      destruct j as [|j]; [lia|].
      do 6 (destruct j as [|j]; [cbn in Hn; discriminate Hn|]).
      destruct j; cbn in Hn; discriminate Hn.
    + apply Hcov. vm_compute. lia.
Defined.

(** The plot is not given the seven fields of the specification, nor its
    labels. *)
Lemma plot_keys_are_not_the_seven :
  plot_keys <> spec_plot_keys.
Proof.
  intros Heq. vm_compute in Heq. discriminate Heq.
Qed.

(** The call on a complete report ends by handing its one sample to the
    plot. *)
Lemma plot_keys_sample :
  exists tr,
    trace (final [full_log])
      = tr ++ [add_section "Mark Duplicates" "picard-markduplicates"
                 section_description (picard_dupMetrics_data (final [full_log]))
                 plot_keys (pconfig default_params)].
Proof.
  refine (proj2 (proj2 (plot_keys_listed (host := host_of [full_log])))
            default_params fresh 1 (final [full_log]) _ _).
  - vm_compute; reflexivity.
  - constructor.
Defined.

(** A well-formed pair: seven names, seven values. *)
Lemma well_formed_pair_sample :
  exists st' metr,
    store_block (host := host_of [full_log]) full_log "sampleB"
      header_row full_row fresh = Ok tt st' /\
    Dict.get (picard_dupMetrics_data st') "sampleB" = Some metr /\
    Dict.get metr "READ_PAIRS_EXAMINED" = Some (VFloat 100) /\
    Dict.get metr "LIBRARY" = Some (VStr "lib").
Proof.
  destruct (well_formed_pair_record (host := host_of [full_log]) full_log "sampleB"
              header_row full_row fresh eq_refl)
    as [st' [metr [Hrun [Hget [_ [_ [Hpos _]]]]]]].
  assert (Hnd : NoDup (row header_row)).
  { vm_compute. repeat (constructor; [cbn; intuition discriminate|]). constructor. }
  exists st', metr. split; [exact Hrun|]. split; [exact Hget|]. split.
  - apply (Hpos Hnd 2 "READ_PAIRS_EXAMINED" "100"); reflexivity.
  - apply (Hpos Hnd 0 "LIBRARY" "lib"); reflexivity.
Defined.

(** A second pair under a name that has a record: the record that was
    there is replaced. *)
Lemma reparsed_sample :
  Dict.get (picard_dupMetrics_data
              (state_of (store_block (host := host_of [first_log; second_log])
                           second_log "sampleA" header_row other_row
                           (scanned [first_log]))))
           "sampleA"
    = Some (state_of (store_fields (host := host_of [first_log; second_log]) 0
                        (row header_row) (row other_row) [])).
Proof.
  refine (proj1 (reparsed_sample_is_replaced (host := host_of [first_log; second_log])
                   second_log "sampleA" header_row other_row (scanned [first_log])
                   (state_of (store_fields (host := host_of [first_log]) 0
                                (row header_row) (row full_row) []))
                   _)).
  vm_compute; reflexivity.
Defined.

(** A log without a metrics table: the call returns 0 and leaves the empty
    collection. *)
Lemma no_header_sample :
  parse_reports (host := host_of [plain_log]) default_params fresh
    = Ok 0 (with_data (fun _ => []) fresh).
Proof.
  apply (no_header_no_samples (host := host_of [plain_log]) default_params fresh).
  intros f l Hf Hl. cbn in Hf. destruct Hf as [<-|[]].
  cbn [f_lines plain_log log_of] in Hl.
  destruct Hl as [<-|[<-|[]]]; vm_compute; reflexivity.
Defined.

(** The command line of sampleB names the table that follows it. *)
Lemma block_start_sample :
  scan_lines (host := host_of [full_log]) full_log (Some "full")
    (start_line "/runs/sampleB" :: [] ++ header_row :: full_row :: [] ++ []) fresh
  = (parse_block (host := host_of [full_log]) full_log "sampleB" header_row full_row ;;
     scan_lines (host := host_of [full_log]) full_log None []) fresh.
Proof.
  refine (block_start_names_next_table (host := host_of [full_log]) full_log
            (Some "full") (start_line "/runs/sampleB") "sampleB" [] header_row
            full_row [] [] fresh _ _ _ _ _ _ _).
  - vm_compute; reflexivity.
  - vm_compute; reflexivity.
  - vm_compute; reflexivity.
  - apply Forall_nil.
  - vm_compute; reflexivity.
  - vm_compute; reflexivity.
  - apply Forall_nil.
Defined.

(** A block-start line without an input file: the table after it is
    passed over. *)
Lemma unnamed_block_start_sample :
  scan_lines (host := host_of [full_log]) full_log (Some "full")
    (unnamed_start :: [] ++ [header_row; full_row]) fresh
  = scan_lines (host := host_of [full_log]) full_log None [header_row; full_row] fresh /\
  blocks (host := host_of [full_log]) full_log (Some "full")
    (unnamed_start :: [] ++ [header_row; full_row])
  = blocks (host := host_of [full_log]) full_log None [header_row; full_row].
Proof.
  refine (unnamed_block_start_cancels (host := host_of [full_log]) full_log
            (Some "full") unnamed_start [] [header_row; full_row] fresh _ _ _).
  - vm_compute; reflexivity.
  - vm_compute; reflexivity.
  - apply Forall_nil.
Defined.

(** The warning of the call on the report without reads comes from the
    block of sampleA. *)
Lemma warning_sample :
  In (log_warn (no_reads_message "sampleA")) (trace fresh) \/
  exists n l next,
    In (n, l, next)
       (all_blocks (host := host_of [empty_log])
          (find_log_files (Host := host_of [empty_log]) (log_key default_params))) /\
    covers l next = true /\
    no_reads (state_of (store_fields (host := host_of [empty_log]) 0
                          (row l) (row next) [])) = true /\
    no_reads_message "sampleA" = no_reads_message n.
Proof.
  apply (warnings_are_for_no_reads (host := host_of [empty_log]) default_params
           fresh (no_reads_message "sampleA")).
  vm_compute. right; left; reflexivity.
Defined.


(** Of the two samples of the report whose first table has no reads, the
    second one is reported. *)
Lemma reported_sample :
  Dict.mem (picard_dupMetrics_data (final [empty_log])) "sampleB" = true <->
  ignored (Host := host_of [empty_log]) "sampleB" = false /\
  exists l next,
    last_block (all_blocks (host := host_of [empty_log])
                  (find_log_files (Host := host_of [empty_log])
                     (log_key default_params))) "sampleB" = Some (l, next) /\
    no_reads (state_of (store_fields (host := host_of [empty_log]) 0
                          (row l) (row next) [])) = false.
Proof.
  apply (reported_iff_last_block_has_reads (host := host_of [empty_log])
           default_params fresh 1 (final [empty_log]) "sampleB").
  vm_compute; reflexivity.
Defined.

(** The same call returns 1, for two tables read. *)
Lemma count_sample :
  1 = List.length (Dict.keys (picard_dupMetrics_data (final [empty_log]))) /\
  1 <= List.length (all_blocks (host := host_of [empty_log])
                      (find_log_files (Host := host_of [empty_log])
                         (log_key default_params))).
Proof.
  apply (count_is_bounded (host := host_of [empty_log]) default_params fresh 1
           (final [empty_log])).
  vm_compute; reflexivity.
Defined.

(** The call on the report with the short row leaves the six fields that
    were stored before the exception. *)
Lemma short_row_collection_sample :
  exists st',
    parse_reports (host := host_of [short_log; full_log]) default_params fresh
      = Raise IndexError st' /\
    picard_dupMetrics_data st' =
      Dict.set (fold_left (settle (host := host_of [short_log; full_log])) [] [])
               "sampleA"
               (state_of (store_fields (host := host_of [short_log; full_log]) 0
                            (row header_row) (row short_row) [])) /\
    general_stats_data st' = general_stats_data fresh /\
    general_stats_headers st' = general_stats_headers fresh.
Proof.
  refine (collection_after_short_row (host := host_of [short_log; full_log])
            default_params fresh [] "sampleA" header_row short_row
            [("sampleB", header_row, full_row)] _ _ _).
  - vm_compute; reflexivity.
  - reflexivity.
  - vm_compute; reflexivity.
Defined.

(** The call on the report without UNMAPPED_READS stops in the record of
    sampleA. *)
Lemma failed_derivation_sample :
  exists done s metr rest done' metr',
    ignore_samples (host := host_of [unmapped_missing_log])
      (picard_dupMetrics_data (scanned [unmapped_missing_log]))
      = done ++ (s, metr) :: rest /\
    derived_from done done' /\
    derive_metrics metr = Raise (KeyError "UNMAPPED_READS") metr' /\
    picard_dupMetrics_data (final [unmapped_missing_log])
      = done' ++ (s, metr') :: rest.
Proof.
  refine (collection_after_failed_derivation (host := host_of [unmapped_missing_log])
            default_params fresh (scanned [unmapped_missing_log])
            (KeyError "UNMAPPED_READS") (final [unmapped_missing_log]) _ _).
  - vm_compute; reflexivity.
  - vm_compute; reflexivity.
Defined.

(** The general statistics after the call on a complete report: the entry
    of sampleB is its record as parsed, while the record that the call
    leaves holds the derived fields as well. *)
Lemma general_stats_sample :
  Dict.get (general_stats_data (final [full_log])) "sampleB" = Some full_record /\
  exists metr',
    Dict.get (picard_dupMetrics_data (final [full_log])) "sampleB" = Some metr' /\
    (forall k, In k derived_names -> exists v, Dict.get metr' k = Some v) /\
    (forall k, Dict.get full_record k = None ->
       Dict.get (Dict.update (entry (general_stats_data fresh) "sampleB") full_record) k
         = Dict.get (entry (general_stats_data fresh) "sampleB") k).
Proof.
  destruct (proj1 (general_stats_merge_raw_fields (host := host_of [full_log])
                     default_params fresh (scanned [full_log]) 1 (final [full_log])
                     ltac:(vm_compute; reflexivity) ltac:(vm_compute; reflexivity))
              "sampleB" full_record ltac:(vm_compute; reflexivity))
    as [metr' [_ [Hget [Hgs [Hder Hold]]]]].
  split; [exact Hgs|]. exists metr'. split; [exact Hget|]. split; assumption.
Defined.

(** The call on the log without a table has reported nothing. *)
Lemma nothing_reported_sample :
  (0 = 0 ->
   general_stats_data (final [plain_log]) = general_stats_data fresh /\
   general_stats_headers (final [plain_log]) = general_stats_headers fresh /\
   forall e, In e (trace (final [plain_log])) -> report_event e -> In e (trace fresh)) /\
  (0 < 0 ->
   general_stats_headers (final [plain_log]) =
     Dict.set (general_stats_headers fresh) "PERCENT_DUPLICATION"
              (percent_duplication_header default_params)).
Proof.
  apply (nothing_reported_without_samples (host := host_of [plain_log])
           default_params fresh 0 (final [plain_log])).
  vm_compute; reflexivity.
Defined.

(** A value row with one field more than the header row. *)
Lemma surplus_values_sample :
  store_fields (host := host_of []) 0 (row header_row) (row full_row ++ ["extra"]) []
    = store_fields (host := host_of []) 0 (row header_row) (row full_row) [] /\
  exists metr',
    store_fields (host := host_of []) 0 (row header_row) (row full_row) []
      = Ok tt metr' /\
    (forall k, In k (row header_row) -> In k (Dict.keys metr')) /\
    (forall k, ~ In k (row header_row) -> Dict.get metr' k = Dict.get [] k).
Proof.
  apply (surplus_values_are_ignored (host := host_of []) (row header_row)
           (row full_row) ["extra"] []).
  vm_compute. lia.
Defined.

(** A table without the columns of examined reads gives no sample. *)
Lemma bare_table_sample :
  exists st',
    parse_block (host := host_of [full_log]) full_log "sampleB" bare_header bare_row
      fresh = Ok tt st' /\
    Dict.get (picard_dupMetrics_data st') "sampleB" = None /\
    (forall other, other <> "sampleB" ->
       Dict.get (picard_dupMetrics_data st') other
         = Dict.get (picard_dupMetrics_data fresh) other) /\
    trace st' = trace fresh ++ announce full_log "sampleB" fresh
                  ++ [log_warn (no_reads_message "sampleB")].
Proof.
  refine (table_without_examined_columns_is_dropped (host := host_of [full_log])
            full_log "sampleB" bare_header bare_row fresh _ _ _ _).
  - intros H. vm_compute in H.
    repeat (destruct H as [H|H]; [discriminate H|]). exact H.
  - intros H. vm_compute in H.
    repeat (destruct H as [H|H]; [discriminate H|]). exact H.
  - vm_compute. lia.
  - constructor.
Defined.

(** A count of examined pairs that is no number: the sample is kept, and
    its derived metrics raise. *)
Lemma text_count_sample :
  exists st' metr,
    parse_block (host := host_of [full_log]) full_log "sampleB" header_row text_row
      fresh = Ok tt st' /\
    Dict.get (picard_dupMetrics_data st') "sampleB" = Some metr /\
    Dict.get metr "READ_PAIRS_EXAMINED" = Some (VStr "n/a") /\
    trace st' = trace fresh ++ announce full_log "sampleB" fresh /\
    exists e metr', derive_metrics metr = Raise e metr'.
Proof.
  refine (text_examined_count_is_kept (host := host_of [full_log]) full_log
            "sampleB" header_row text_row fresh 2 "READ_PAIRS_EXAMINED" "n/a"
            _ _ _ _ _ _).
  - left; reflexivity.
  - vm_compute; reflexivity.
  - intros j Hj Hn.
    assert (Hrow : row header_row = columns) by (vm_compute; reflexivity).
    rewrite Hrow in Hn. unfold columns in Hn.
    do 3 (destruct j as [|j]; [lia|]).
    do 4 (destruct j as [|j]; [cbn in Hn; discriminate Hn|]).
    destruct j; cbn in Hn; discriminate Hn.
  - vm_compute; reflexivity.
  - vm_compute; reflexivity.
  - vm_compute. lia.
Defined.

(** The name that the command line of sampleB gives. *)
Lemma input_name_sample :
  exists g,
    PyStr.search_input (start_line "/runs/sampleB") = Some g /\
    g <> EmptyString /\
    solid g = true /\
    "sampleB" = clean_s_name (Host := host_of []) (name_candidate g) "/data" /\
    PyStr.mem "/"%char (name_candidate g) = false /\
    solid (name_candidate g) = true /\
    (forall c, PyStr.mem c (name_candidate g) = true -> PyStr.mem c g = true).
Proof.
  apply (input_name_has_no_path (host := host_of []) "/data"
           (start_line "/runs/sampleB") "sampleB").
  vm_compute; reflexivity.
Defined.

(** The same command line, taken apart. *)
Lemma input_directive_sample :
  name_from_input (host := host_of []) "/data"
    (command_start ++ "INPUT" ++ "=" ++ "[/runs/sampleB]" ++ command_end)
  = Some (clean_s_name (Host := host_of [])
            (PyStr.basename (PyStr.strip "[]" "[/runs/sampleB]")) "/data").
Proof.
  refine (input_directive_names_sample (host := host_of []) "/data" command_start
            "INPUT" "=" "[/runs/sampleB]" command_end _ _ _ _ _ _).
  - vm_compute; reflexivity.
  - reflexivity.
  - left; reflexivity.
  - discriminate.
  - vm_compute; reflexivity.
  - reflexivity.
Defined.

(** The call on the report without UNMAPPED_READS has written the data
    file and merged the general statistics before it raises. *)
Lemma outputs_sample :
  let raw := ignore_samples (host := host_of [unmapped_missing_log])
               (picard_dupMetrics_data (scanned [unmapped_missing_log])) in
  raw <> [] /\
  trace (final [unmapped_missing_log])
    = trace (scanned [unmapped_missing_log])
        ++ [write_data_file raw (data_filename default_params)] /\
  general_stats_headers (final [unmapped_missing_log]) =
    Dict.set (general_stats_headers fresh) "PERCENT_DUPLICATION"
             (percent_duplication_header default_params) /\
  (forall s metr,
     Dict.get raw s = Some metr ->
     Dict.get (general_stats_data (final [unmapped_missing_log])) s
       = Some (Dict.update (entry (general_stats_data fresh) s) metr)).
Proof.
  refine (outputs_precede_derivation (host := host_of [unmapped_missing_log])
            default_params fresh (scanned [unmapped_missing_log])
            (KeyError "UNMAPPED_READS") (final [unmapped_missing_log]) _ _).
  - vm_compute; reflexivity.
  - vm_compute; reflexivity.
Defined.


(** The worked example of the specification through a call: the report of
    sampleB gives the raw counts 10, 100, 0, 0, 2 and 5, and the record that
    the call leaves holds 20, 180, 0, 4, 16, 0 and 5, added in this order. *)
Lemma worked_example_through_call :
  Dict.get (picard_dupMetrics_data (final [full_log])) "sampleB"
    = Some (full_record ++
            [ ("READS_IN_DUPLICATE_PAIRS", VFloat 20);
              ("READS_IN_UNIQUE_PAIRS", VFloat 180);
              ("READS_IN_UNIQUE_UNPAIRED", VFloat 0);
              ("READS_IN_DUPLICATE_PAIRS_OPTICAL", VFloat 4);
              ("READS_IN_DUPLICATE_PAIRS_NONOPTICAL", VFloat 16);
              ("READS_IN_DUPLICATE_UNPAIRED", VFloat 0);
              ("READS_UNMAPPED", VFloat 5) ]).
Proof.
  refine (proj1 (derived_fields_of_surviving_records (host := host_of [full_log])
                   default_params fresh (scanned [full_log]) [] "sampleB"
                   full_record [] 10 100 0 0 2 5 _ _ eq_refl eq_refl eq_refl
                   eq_refl eq_refl eq_refl) _).
  - vm_compute; reflexivity.
  - vm_compute; reflexivity.
  - left. apply Forall_nil.
Defined.

(** The specification's account of the derived metrics fails on these two
    files: the record of sampleB is left after the validation with its six
    raw fields as numbers, and the call, which raises [KeyError] in the
    record of sampleA before it, leaves it without any derived field. *)
Lemma record_after_failure_is_not_derived :
  ~ spec_every_numeric_record_is_derived
      (host := host_of [unmapped_missing_log; full_log]) default_params fresh.
Proof.
  intros Hspec.
  pose proof (Hspec (scanned [unmapped_missing_log; full_log]) "sampleB"
                full_record 10%float 100%float 0%float 0%float 2%float
                5%float) as H.
  assert (Hget : Dict.get (picard_dupMetrics_data
                             (final [unmapped_missing_log; full_log])) "sampleB"
                 = Some full_record) by (vm_compute; reflexivity).
  unfold final in Hget. rewrite H in Hget.
  - apply (f_equal (fun o => match o with
                             | Some metr => List.length metr
                             | None => 0
                             end)) in Hget.
    vm_compute in Hget. discriminate Hget.
  - vm_compute; reflexivity.
  - vm_compute. right; left; reflexivity.
  - reflexivity.
  - reflexivity.
  - reflexivity.
  - reflexivity.
  - reflexivity.
  - reflexivity.
Qed.

(** The specification's account of a well-formed pair fails on a header
    row that holds a name twice: READ_PAIRS_EXAMINED stands at the
    positions 0 and 2, the values there are 7 and 8, and the record binds
    the name to 8, not to the value 7 of position 0. *)
Lemma repeated_name_is_not_positional :
  ~ spec_pair_is_positional (host := host_of []).
Proof.
  intros Hspec.
  pose proof (Hspec full_log "sampleB" repeated_header repeated_row fresh
                [("READ_PAIRS_EXAMINED", VFloat 8);
                 ("UNPAIRED_READ_DUPLICATES", VFloat 3)]
                0 "READ_PAIRS_EXAMINED" "7") as H.
  assert (Hget : Dict.get [("READ_PAIRS_EXAMINED", VFloat 8);
                           ("UNPAIRED_READ_DUPLICATES", VFloat 3)]
                          "READ_PAIRS_EXAMINED"
                 = Some (coerce (host := host_of []) "7")).
  { apply H; vm_compute; reflexivity. }
  apply (f_equal (fun o => match o with
                           | Some (VFloat x) => PrimFloat.eqb x 8
                           | _ => false
                           end)) in Hget.
  vm_compute in Hget. discriminate Hget.
Qed.

End Examples.
